(** * Wide residual networks on CIFAR-100

  A shallow embedding of [deepobs/cifar100/cifar100_wrn.py].

  The Python class [set_up] builds a TensorFlow (graph mode) computation
  graph.  Building a graph is a stateful computation over
    - the variable store of the graph ([tf.get_variable] under
      [tf.variable_scope]),
    - the graph collections ([tf.add_to_collection], [tf.get_collection]),
  and it can raise.  It is embedded as a state-and-exception monad [M]
  over [Graph]; tensors are the symbolic nodes the framework creates,
  together with the static shape inference that makes the framework raise
  [ValueError] while the graph is built.  Numerical evaluation of the
  kernels is not part of the model. *)

From Stdlib Require Import ZArith String Ascii List Bool Floats Lia.
From Stdlib Require Import DecimalString DecimalZ.
Import ListNotations.

Local Open Scope string_scope.
Local Open Scope Z_scope.
Local Open Scope list_scope.

(* ================================================================== *)
(** ** The Python fragment the module relies on *)
(* ================================================================== *)

Module Py.

Inductive Exception : Type :=
| NameError (name : string)
| IndexError (msg : string)
| ValueError (msg : string)
| TypeError (msg : string)
| ZeroDivisionError (msg : string).

Inductive Result (A : Type) : Type :=
| Ok (a : A)
| Raise (e : Exception).

Arguments Ok {A} a.
Arguments Raise {A} e.

(** The interpreter decides which builtins exist: [xrange] is a builtin of
    Python 2 only. [setup.py] declares the package for Python 3
    (classifiers, [open(..., encoding=...)], [tensorflow~=2.5]). *)
Inductive Interpreter : Type := Python2 | Python3.

(** [range(start, stop, step)] as a list. *)
Definition range (start stop step : Z) : Result (list Z) :=
  if step =? 0 then Raise (ValueError "range() arg 3 must not be zero")
  else
    let len := if 0 <? step then (stop - start + step - 1) / step
               else (start - stop - step - 1) / (- step) in
    Ok (map (fun t => start + step * Z.of_nat t) (seq 0 (Z.to_nat len))).

(** Looking up the global name [xrange] and calling it.  Python 2 takes
    C longs here and raises [OverflowError] beyond them; the statements
    that promise a result bound [num_residual_units] accordingly. *)
Definition xrange (py : Interpreter) (start stop step : Z) : Result (list Z) :=
  match py with
  | Python2 => range start stop step
  | Python3 => Raise (NameError "xrange")
  end.

(** [l[i]], negative indices counting from the end. *)
Definition getitem {A : Type} (l : list A) (i : Z) : Result A :=
  let n := Z.of_nat (List.length l) in
  let i' := if i <? 0 then i + n else i in
  if (i' <? 0) || (n <=? i') then Raise (IndexError "list index out of range")
  else match nth_error l (Z.to_nat i') with
       | Some a => Ok a
       | None => Raise (IndexError "list index out of range")
       end.

(** ['%d' % z] *)
Definition format_d (z : Z) : string := NilZero.string_of_int (Z.to_int z).

(** Scalar expressions handed to numpy ([np.sqrt(1.0 / a / b)]).  The
    expression is recorded, not rounded; a zero integer divisor raises as
    in Python. *)
Inductive PyExpr : Type :=
| PyFloat (f : float)
| PyInt (z : Z)
| PyDiv (a b : PyExpr)
| NpSqrt (a : PyExpr).

Definition truediv (a : PyExpr) (z : Z) : Result PyExpr :=
  if z =? 0 then Raise (ZeroDivisionError "float division by zero")
  else Ok (PyDiv a (PyInt z)).

End Py.
Export Py.

(* ================================================================== *)
(** ** The TensorFlow (graph mode) interface used by the module *)
(* ================================================================== *)

Module TF.

Inductive DType : Type := float32 | int64 | bool_ | string_.

(** A dimension is known or unknown ([None]); shapes have known rank. *)
Definition Dim : Type := option Z.
Definition Shape : Type := list Dim.

Inductive Padding : Type := SAME | VALID.

Inductive Initializer : Type :=
| zeros_initializer
| ones_initializer
| random_normal_initializer (stddev : PyExpr)
| constant_initializer (value : float).

(** A variable of the graph's variable store.  [var_name] is the scope
    path followed by the variable's own name (TensorFlow joins the
    components with a slash). *)
Record tf_Variable : Type := mkVariable {
  var_name : list string;
  var_shape : list Z;
  var_dtype : DType;
  var_initializer : Initializer;
  var_trainable : bool
}.

(** Nodes of the graph.  [DataTensor] stands for an output of the data
    loading collaborator; [Cond pred t f] is one output of [tf.cond]. *)
Inductive Tensor : Type :=
| DataTensor (name : string) (shape : Shape) (dtype : DType)
| Const (value : float)
| ConstStr (value : string)
| ReadVar (v : tf_Variable)
| Conv2d (input filter : Tensor) (strides : list Z) (padding : Padding) (name : string)
| Relu (x : Tensor) (name : string)
| Identity (x : Tensor)
| MaxPool (x : Tensor) (ksize strides : list Z) (padding : Padding)
| Add (x y : Tensor)
| Mul (x y : Tensor)
| MomentsMean (x : Tensor) (axes : list Z)
| MomentsVariance (x : Tensor) (axes : list Z)
| Assign (ref : tf_Variable) (value : Tensor)
| Equal (x y : Tensor)
| Cond (pred true_fn false_fn : Tensor)
| BatchNormalization (x mean variance offset scale : Tensor) (variance_epsilon : float)
| ReduceMean (x : Tensor) (axes : option (list Z))
| Reshape (x : Tensor) (shape : list Z)
| MatMul (a b : Tensor)
| SoftmaxCrossEntropyWithLogitsV2 (labels logits : Tensor)
| L2Loss (t : Tensor)
| ArgMax (input : Tensor) (axis : Z)
| Cast (x : Tensor) (dtype : DType).

(** Operations without output ([tf.Operation]): the initialisation
    operations of the data loader and [tf.group]. *)
Inductive Operation : Type :=
| DataOp (name : string)
| Group (inputs : list Operation).

(** *** Static shape inference *)

Definition dims_compatible (a b : Dim) : bool :=
  match a, b with
  | Some x, Some y => x =? y
  | _, _ => true
  end.

Definition broadcast_dim (x y : Dim) : option Dim :=
  match x, y with
  | Some a, Some b =>
      if a =? 1 then Some (Some b)
      else if b =? 1 then Some (Some a)
      else if a =? b then Some (Some a)
      else None
  | Some a, None => if 1 <? a then Some (Some a) else Some None
  | None, Some b => if 1 <? b then Some (Some b) else Some None
  | None, None => Some None
  end.

(** Broadcasting, innermost dimension first. *)
Fixpoint broadcast_rev (xs ys : list Dim) : option (list Dim) :=
  match xs, ys with
  | [], _ => Some ys
  | _, [] => Some xs
  | x :: xs', y :: ys' =>
      match broadcast_dim x y, broadcast_rev xs' ys' with
      | Some d, Some r => Some (d :: r)
      | _, _ => None
      end
  end.

Definition broadcast_shape (x y : Shape) : option Shape :=
  option_map (@rev Dim) (broadcast_rev (rev x) (rev y)).

Definition windowed_output_size (padding : Padding) (input filter stride : Z) : Z :=
  match padding with
  | SAME => (input + stride - 1) / stride
  | VALID => (input - filter + stride) / stride
  end.

Definition conv2d_shape (input filter : Shape) (strides : list Z) (padding : Padding)
  : option Shape :=
  match input, filter, strides with
  | [b; h; w; c], [Some fh; Some fw; fc; oc], [_; sh; sw; _] =>
      if dims_compatible c fc && (0 <? sh) && (0 <? sw)
      then Some [b;
                 option_map (fun n => windowed_output_size padding n fh sh) h;
                 option_map (fun n => windowed_output_size padding n fw sw) w;
                 oc]
      else None
  | _, _, _ => None
  end.

Definition max_pool_shape (input : Shape) (ksize strides : list Z) (padding : Padding)
  : option Shape :=
  match input, ksize, strides with
  | [b; h; w; c], [_; kh; kw; _], [_; sh; sw; _] =>
      if (0 <? sh) && (0 <? sw)
      then Some [b;
                 option_map (fun n => windowed_output_size padding n kh sh) h;
                 option_map (fun n => windowed_output_size padding n kw sw) w;
                 c]
      else None
  | _, _, _ => None
  end.

Fixpoint drop_axes (s : Shape) (idx : Z) (axes : list Z) : Shape :=
  match s with
  | [] => []
  | d :: r =>
      if existsb (Z.eqb idx) axes then drop_axes r (idx + 1) axes
      else d :: drop_axes r (idx + 1) axes
  end.

(** Reduction over [axes] without keeping the reduced dimensions. *)
Definition reduce_shape (s : Shape) (axes : list Z) : option Shape :=
  let r := Z.of_nat (List.length s) in
  let ax := map (fun a => if a <? 0 then a + r else a) axes in
  if forallb (fun a => (0 <=? a) && (a <? r)) ax
  then Some (drop_axes s 0 ax) else None.

Fixpoint num_elements (s : Shape) : option Z :=
  match s with
  | [] => Some 1
  | Some d :: r => option_map (Z.mul d) (num_elements r)
  | None :: _ => None
  end.

(** [tf.reshape]: at most one entry of the target is [-1]; it is inferred
    when the input is fully known. *)
Definition reshape_shape (input : Shape) (target : list Z) : option Shape :=
  let known := filter (fun d => negb (d =? -1)) target in
  let holes := List.length (filter (fun d => d =? -1) target) in
  let p := fold_right Z.mul 1 known in
  if negb (forallb (fun d => 0 <=? d) known) then None
  else match holes, num_elements input with
       | O, Some n => if n =? p then Some (map (@Some Z) target) else None
       | O, None => Some (map (@Some Z) target)
       | S O, Some n =>
           if p =? 0 then Some (map (fun d => if d =? -1 then None else Some d) target)
           else if n mod p =? 0
                then Some (map (fun d => if d =? -1 then Some (n / p) else Some d) target)
                else None
       | S O, None => Some (map (fun d => if d =? -1 then None else Some d) target)
       | _, _ => None
       end.

Definition matmul_shape (a b : Shape) : option Shape :=
  match a, b with
  | [m; k1], [k2; n] => if dims_compatible k1 k2 then Some [m; n] else None
  | _, _ => None
  end.

(** The loss has the shape of the logits without the class dimension. *)
Definition softmax_cross_entropy_shape (labels logits : Shape) : option Shape :=
  match logits, broadcast_shape labels logits with
  | _ :: _, Some _ => Some (removelast logits)
  | _, _ => None
  end.

Definition dim_eqb (a b : Dim) : bool :=
  match a, b with
  | Some x, Some y => x =? y
  | None, None => true
  | _, _ => false
  end.

(** Output shape of [tf.cond]: what both branches agree on. *)
Definition cond_shape (a b : Shape) : Shape :=
  map (fun p => if dim_eqb (fst p) (snd p) then fst p else None) (combine a b).

Definition assign_shape (ref : list Z) (value : Shape) : option Shape :=
  if (List.length ref =? List.length value)%nat
     && forallb (fun p => dims_compatible (Some (fst p)) (snd p)) (combine ref value)
  then Some (map (@Some Z) ref) else None.

Definition batch_normalization_shape (x mean variance offset scale : Shape)
  : option Shape :=
  match broadcast_shape variance scale with
  | Some inv =>
      match broadcast_shape mean inv with
      | Some m =>
          match broadcast_shape offset m, broadcast_shape x inv with
          | Some o, Some xi => broadcast_shape xi o
          | _, _ => None
          end
      | None => None
      end
  | None => None
  end.

Definition shape_or_scalar (o : option Shape) : Shape :=
  match o with Some s => s | None => [] end.

(** [t.get_shape()] *)
Fixpoint get_shape (t : Tensor) : Shape :=
  match t with
  | DataTensor _ s _ => s
  | Const _ => []
  | ConstStr _ => []
  | ReadVar v => map (@Some Z) (var_shape v)
  | Conv2d x f st p _ => shape_or_scalar (conv2d_shape (get_shape x) (get_shape f) st p)
  | Relu x _ => get_shape x
  | Identity x => get_shape x
  | MaxPool x k st p => shape_or_scalar (max_pool_shape (get_shape x) k st p)
  | Add x y => shape_or_scalar (broadcast_shape (get_shape x) (get_shape y))
  | Mul x y => shape_or_scalar (broadcast_shape (get_shape x) (get_shape y))
  | MomentsMean x ax => shape_or_scalar (reduce_shape (get_shape x) ax)
  | MomentsVariance x ax => shape_or_scalar (reduce_shape (get_shape x) ax)
  | Assign v _ => map (@Some Z) (var_shape v)
  | Equal x y => shape_or_scalar (broadcast_shape (get_shape x) (get_shape y))
  | Cond _ a b => cond_shape (get_shape a) (get_shape b)
  | BatchNormalization x m v o s _ =>
      shape_or_scalar (batch_normalization_shape (get_shape x) (get_shape m)
                         (get_shape v) (get_shape o) (get_shape s))
  | ReduceMean x (Some ax) => shape_or_scalar (reduce_shape (get_shape x) ax)
  | ReduceMean x None => []
  | Reshape x target => shape_or_scalar (reshape_shape (get_shape x) target)
  | MatMul a b => shape_or_scalar (matmul_shape (get_shape a) (get_shape b))
  | SoftmaxCrossEntropyWithLogitsV2 l z =>
      shape_or_scalar (softmax_cross_entropy_shape (get_shape l) (get_shape z))
  | L2Loss _ => []
  | ArgMax x axis => shape_or_scalar (reduce_shape (get_shape x) [axis])
  | Cast x _ => get_shape x
  end.

(** *** Node constructors: they raise when shape inference fails *)

Definition checked (o : option Shape) (t : Tensor) (msg : string) : Result Tensor :=
  match o with
  | Some _ => Ok t
  | None => Raise (ValueError msg)
  end.

Definition tf_nn_conv2d (x W : Tensor) (strides : list Z) (padding : Padding)
  (name : string) : Result Tensor :=
  checked (conv2d_shape (get_shape x) (get_shape W) strides padding)
    (Conv2d x W strides padding name) "conv2d: incompatible shapes".

Definition tf_nn_relu (x : Tensor) (name : string) : Result Tensor := Ok (Relu x name).

Definition tf_identity (x : Tensor) : Result Tensor := Ok (Identity x).

Definition tf_nn_max_pool (x : Tensor) (ksize strides : list Z) (padding : Padding)
  : Result Tensor :=
  checked (max_pool_shape (get_shape x) ksize strides padding)
    (MaxPool x ksize strides padding) "max_pool: incompatible shapes".

Definition tf_add (x y : Tensor) : Result Tensor :=
  checked (broadcast_shape (get_shape x) (get_shape y)) (Add x y)
    "add: dimensions must be equal".

Definition tf_multiply (x y : Tensor) : Result Tensor :=
  checked (broadcast_shape (get_shape x) (get_shape y)) (Mul x y)
    "mul: dimensions must be equal".

Definition tf_nn_moments (x : Tensor) (axes : list Z) : Result (Tensor * Tensor) :=
  match reduce_shape (get_shape x) axes with
  | Some _ => Ok (MomentsMean x axes, MomentsVariance x axes)
  | None => Raise (ValueError "moments: invalid reduction dimension")
  end.

Definition assign (ref : tf_Variable) (value : Tensor) : Result Tensor :=
  checked (assign_shape (var_shape ref) (get_shape value)) (Assign ref value)
    "assign: shapes must be equal".

Definition tf_equal (x y : Tensor) : Result Tensor :=
  checked (broadcast_shape (get_shape x) (get_shape y)) (Equal x y)
    "equal: dimensions must be equal".

(** [tf.cond(pred, lambda: (a1, a2), lambda: (b1, b2))] *)
Definition tf_cond (pred : Tensor) (true_fn false_fn : Tensor * Tensor)
  : Result (Tensor * Tensor) :=
  Ok (Cond pred (fst true_fn) (fst false_fn), Cond pred (snd true_fn) (snd false_fn)).

Definition tf_nn_batch_normalization (x mean variance offset scale : Tensor)
  (variance_epsilon : float) : Result Tensor :=
  checked (batch_normalization_shape (get_shape x) (get_shape mean)
             (get_shape variance) (get_shape offset) (get_shape scale))
    (BatchNormalization x mean variance offset scale variance_epsilon)
    "batch_normalization: incompatible shapes".

Definition tf_reduce_mean (x : Tensor) (axes : option (list Z)) : Result Tensor :=
  match axes with
  | Some ax => checked (reduce_shape (get_shape x) ax) (ReduceMean x axes)
                 "reduce_mean: invalid reduction dimension"
  | None => Ok (ReduceMean x None)
  end.

(** The target of [tf.reshape] is a Python list; an entry [None] cannot be
    converted to a tensor. *)
Definition tf_reshape (x : Tensor) (target : list (option Z)) : Result Tensor :=
  if forallb (fun d => match d with Some _ => true | None => false end) target
  then let tgt := map (fun d => match d with Some z => z | None => 0 end) target in
       checked (reshape_shape (get_shape x) tgt) (Reshape x tgt)
         "reshape: incompatible shapes"
  else Raise (TypeError "reshape: None in shape").

Definition tf_matmul (a b : Tensor) : Result Tensor :=
  checked (matmul_shape (get_shape a) (get_shape b)) (MatMul a b)
    "matmul: incompatible shapes".

Definition tf_nn_softmax_cross_entropy_with_logits_v2 (labels logits : Tensor)
  : Result Tensor :=
  checked (softmax_cross_entropy_shape (get_shape labels) (get_shape logits))
    (SoftmaxCrossEntropyWithLogitsV2 labels logits)
    "softmax_cross_entropy: incompatible shapes".

Definition tf_nn_l2_loss (t : Tensor) : Result Tensor := Ok (L2Loss t).

Definition tf_argmax (x : Tensor) (axis : Z) : Result Tensor :=
  checked (reduce_shape (get_shape x) [axis]) (ArgMax x axis)
    "argmax: invalid dimension".

Definition tf_cast (x : Tensor) (dtype : DType) : Result Tensor := Ok (Cast x dtype).

Definition tf_group (inputs : list Operation) : Operation := Group inputs.

End TF.
Export TF.

(* ================================================================== *)
(** ** The graph under construction *)
(* ================================================================== *)

Module GraphState.

(** What a graph collection holds: variables or tensors. *)
Inductive Item : Type :=
| IVar (v : tf_Variable)
| ITensor (t : Tensor).

(** The [reuse] flag of the variable scope.  [tf.variable_scope(name)]
    inherits it; the module never sets it. *)
Inductive Reuse : Type := reuse_False | reuse_True | AUTO_REUSE.

Record Graph : Type := mkGraph {
  variable_scope : list string;
  scope_reuse : Reuse;
  variables : list tf_Variable;
  collections : list (string * list Item)
}.

(** The default graph before anything is built. *)
Definition empty_graph : Graph :=
  {| variable_scope := []; scope_reuse := reuse_False;
     variables := []; collections := [] |}.

(** Graph construction: state and exceptions. *)
Definition M (A : Type) : Type := Graph -> Result (A * Graph).

Definition ret {A : Type} (a : A) : M A := fun g => Ok (a, g).

Definition bind {A B : Type} (m : M A) (f : A -> M B) : M B :=
  fun g => match m g with
           | Ok (a, g') => f a g'
           | Raise e => Raise e
           end.

Definition lift {A : Type} (r : Result A) : M A :=
  fun g => match r with
           | Ok a => Ok (a, g)
           | Raise e => Raise e
           end.

Declare Scope graph_scope.
Delimit Scope graph_scope with graph.

Notation "x <- m ;; k" := (bind m (fun x => k))
  (at level 61, m at next level, right associativity) : graph_scope.
Notation "' pat <- m ;; k" := (bind m (fun x => match x with pat => k end))
  (at level 61, pat pattern, m at next level, right associativity) : graph_scope.
Notation "m ;;; k" := (bind m (fun _ => k))
  (at level 61, right associativity) : graph_scope.

Local Open Scope graph_scope.

(** [for a in items: s = body(a, s)] *)
Fixpoint for_each {A S : Type} (items : list A) (body : A -> S -> M S) (s : S) : M S :=
  match items with
  | [] => ret s
  | a :: rest => s' <- body a s ;; for_each rest body s'
  end.

Definition name_eq_dec : forall a b : list string, {a = b} + {a <> b} :=
  list_eq_dec string_dec.

Definition has_name (name : list string) (v : tf_Variable) : bool :=
  if name_eq_dec (var_name v) name then true else false.

Definition fully_defined (s : Shape) : option (list Z) :=
  fold_right (fun d acc => match d, acc with
                           | Some z, Some r => Some (z :: r)
                           | _, _ => None
                           end) (Some []) s.

Definition shape_eqb (a b : list Z) : bool :=
  if list_eq_dec Z.eq_dec a b then true else false.

Definition dtype_eqb (a b : DType) : bool :=
  match a, b with
  | float32, float32 | int64, int64 | bool_, bool_ | string_, string_ => true
  | _, _ => false
  end.

(** [tf.get_variable(name, shape, dtype, initializer=..., trainable=...)]
    in the current variable scope. *)
Definition tf_get_variable (name : string) (shape : Shape) (dtype : DType)
  (initializer : Initializer) (trainable : bool) : M tf_Variable :=
  fun g =>
    let full := variable_scope g ++ [name] in
    match find (has_name full) (variables g), scope_reuse g with
    | Some _, reuse_False =>
        Raise (ValueError "Variable already exists, disallowed")
    | Some v, _ =>
        match fully_defined shape with
        | Some s =>
            if shape_eqb s (var_shape v) && dtype_eqb dtype (var_dtype v)
            then Ok (v, g)
            else Raise (ValueError "Trying to share variable with another shape")
        | None => Raise (ValueError "Shape must be fully defined")
        end
    | None, reuse_True =>
        Raise (ValueError "Variable does not exist, or was not created with tf.get_variable()")
    | None, _ =>
        match fully_defined shape with
        | Some s =>
            let v := {| var_name := full; var_shape := s; var_dtype := dtype;
                        var_initializer := initializer; var_trainable := trainable |} in
            Ok (v, {| variable_scope := variable_scope g; scope_reuse := scope_reuse g;
                      variables := variables g ++ [v]; collections := collections g |})
        | None => Raise (ValueError "Shape of a new variable must be fully defined")
        end
    end.

Definition set_scope (scope : list string) (g : Graph) : Graph :=
  {| variable_scope := scope; scope_reuse := scope_reuse g;
     variables := variables g; collections := collections g |}.

(** [with tf.variable_scope(name): body] *)
Definition tf_variable_scope {A : Type} (name : string) (body : M A) : M A :=
  fun g =>
    match body (set_scope (variable_scope g ++ [name]) g) with
    | Ok (a, g') => Ok (a, set_scope (variable_scope g) g')
    | Raise e => Raise e
    end.

Fixpoint coll_lookup (key : string) (c : list (string * list Item)) : list Item :=
  match c with
  | [] => []
  | (k, l) :: rest => if String.eqb k key then l else coll_lookup key rest
  end.

Fixpoint coll_add (key : string) (item : Item) (c : list (string * list Item))
  : list (string * list Item) :=
  match c with
  | [] => [(key, [item])]
  | (k, l) :: rest =>
      if String.eqb k key then (k, l ++ [item]) :: rest
      else (k, l) :: coll_add key item rest
  end.

Definition get_collection (key : string) (g : Graph) : list Item :=
  coll_lookup key (collections g).

Definition tf_get_collection (key : string) : M (list Item) :=
  fun g => Ok (get_collection key g, g).

Definition tf_add_to_collection (key : string) (item : Item) : M unit :=
  fun g => Ok (tt, {| variable_scope := variable_scope g; scope_reuse := scope_reuse g;
                      variables := variables g;
                      collections := coll_add key item (collections g) |}).

Definition tf_GraphKeys_REGULARIZATION_LOSSES : string := "regularization_losses".
Definition tf_GraphKeys_UPDATE_OPS : string := "update_ops".

(** [W in collection]: variables are compared by identity, which in one
    variable store is the name. *)
Definition contains_variable (W : tf_Variable) (coll : list Item) : bool :=
  existsb (fun it => match it with
                     | IVar v => has_name (var_name W) v
                     | ITensor _ => false
                     end) coll.

(** A collection item used where a tensor is expected. *)
Definition convert_to_tensor (it : Item) : Tensor :=
  match it with
  | IVar v => ReadVar v
  | ITensor t => t
  end.

End GraphState.
Export GraphState.

(* ================================================================== *)
(** ** The data loading collaborator *)
(* ================================================================== *)

Module cifar100_input.

(** The interface of [cifar100_input.data_loading] that the module uses:
    [load()] and the three initialisation operations.  The collaborator
    itself is not part of the sources. *)
Record data_loading : Type := mk_data_loading {
  load : Tensor * Tensor * Tensor;
  train_init_op : Operation;
  train_eval_init_op : Operation;
  test_init_op : Operation
}.

End cifar100_input.

(* ================================================================== *)
(** ** deepobs/cifar100/cifar100_wrn.py *)
(* ================================================================== *)

Module cifar100_wrn.

Local Open Scope graph_scope.

(** The literal [1e-5] (the double nearest to it). *)
Definition eps_1e_5 : float := 0x1.4f8b588e368f1p-17%float.

(** [set_up.batch_norm(x, phase, decay, name)]; the defaults [decay=0.9]
    and [name="batch_norm"] are written out at the call sites. *)
Definition batch_norm (x phase : Tensor) (decay : float) (name : string) : M Tensor :=
  tf_variable_scope name (
    '(mean_batch, variance_batch) <- lift (tf_nn_moments x [0; 1; 2]) ;;
    mean_avg <- tf_get_variable "mean_avg" (get_shape mean_batch) float32
                  zeros_initializer false ;;
    variance_avg <- tf_get_variable "std_avg" (get_shape variance_batch) float32
                      ones_initializer false ;;
    beta <- tf_get_variable "beta" (get_shape mean_batch) float32
              zeros_initializer true ;;
    gamma <- tf_get_variable "gamma" (get_shape variance_batch) float32
               ones_initializer true ;;
    m1 <- lift (tf_multiply (Const decay) (ReadVar mean_avg)) ;;
    m2 <- lift (tf_multiply (Const (1 - decay)%float) mean_batch) ;;
    m3 <- lift (tf_add m1 m2) ;;
    update_mean <- lift (assign mean_avg m3) ;;
    v1 <- lift (tf_multiply (Const decay) (ReadVar variance_avg)) ;;
    v2 <- lift (tf_multiply (Const (1 - decay)%float) variance_batch) ;;
    v3 <- lift (tf_add v1 v2) ;;
    update_variance <- lift (assign variance_avg v3) ;;
    tf_add_to_collection tf_GraphKeys_UPDATE_OPS (ITensor update_mean) ;;;
    tf_add_to_collection tf_GraphKeys_UPDATE_OPS (ITensor update_variance) ;;;
    pred <- lift (tf_equal phase (ConstStr "train")) ;;
    '(mean, variance) <- lift (tf_cond pred (mean_batch, variance_batch)
                                 (ReadVar mean_avg, ReadVar variance_avg)) ;;
    lift (tf_nn_batch_normalization x mean variance (ReadVar beta) (ReadVar gamma)
            eps_1e_5)).

(** [set_up.conv(x, filter_size, out_channels, stride, padding, name)] *)
Definition conv (x : Tensor) (filter_size out_channels stride : Z)
  (padding : Padding) (name : string) : M Tensor :=
  let in_shape := get_shape x in
  tf_variable_scope name (
    q1 <- lift (truediv (PyFloat 1) filter_size) ;;
    q2 <- lift (truediv q1 filter_size) ;;
    q3 <- lift (truediv q2 out_channels) ;;
    let init := random_normal_initializer (NpSqrt q3) in
    in_channels <- lift (getitem in_shape 3) ;;
    W <- tf_get_variable "W"
           [Some filter_size; Some filter_size; in_channels; Some out_channels]
           float32 init true ;;
    regs <- tf_get_collection "regularizable_variables" ;;
    (if negb (contains_variable W regs)
     then tf_add_to_collection "regularizable_variables" (IVar W)
     else ret tt) ;;;
    lift (tf_nn_conv2d x (ReadVar W) [1; stride; stride; 1] padding "output")).

(** [set_up.fc(x, out_dim, name)] *)
Definition fc (x : Tensor) (out_dim : Z) (name : string) : M Tensor :=
  tf_variable_scope name (
    q <- lift (truediv (PyFloat 1) out_dim) ;;
    let initializer := random_normal_initializer (NpSqrt q) in
    in_dim <- lift (getitem (get_shape x) 1) ;;
    W <- tf_get_variable "W" [in_dim; Some out_dim] float32 initializer true ;;
    regs <- tf_get_collection "regularizable_variables" ;;
    (if negb (contains_variable W regs)
     then tf_add_to_collection "regularizable_variables" (IVar W)
     else ret tt) ;;;
    b <- tf_get_variable "b" [Some out_dim] float32 (constant_initializer 0) true ;;
    xW <- lift (tf_matmul x (ReadVar W)) ;;
    lift (tf_add xW (ReadVar b))).

(** The shortcut of the first unit of block [i] (lines 111-120); [x] is the
    activated input of the unit. *)
Definition first_unit_shortcut (filters strides : list Z) (i : Z) (x : Tensor)
  : M Tensor :=
  f_prev <- lift (getitem filters (i - 1)) ;;
  f_i <- lift (getitem filters i) ;;
  if f_prev =? f_i then
    s <- lift (getitem strides (i - 1)) ;;
    if s =? 1 then lift (tf_identity x)
    else
      k1 <- lift (getitem strides (i - 1)) ;;
      k2 <- lift (getitem strides (i - 1)) ;;
      s1 <- lift (getitem strides (i - 1)) ;;
      s2 <- lift (getitem strides (i - 1)) ;;
      lift (tf_nn_max_pool x [1; k1; k2; 1] [1; s1; s2; 1] VALID)
  else
    out_channels <- lift (getitem filters i) ;;
    stride <- lift (getitem strides (i - 1)) ;;
    conv x 1 out_channels stride SAME "shortcut".

(** The first residual unit of block [i] (lines 105-132). *)
Definition first_residual_unit (filters strides : list Z) (phase : Tensor)
  (bn_decay : float) (i : Z) (x : Tensor) : M Tensor :=
  tf_variable_scope ("unit_" ++ format_d i ++ "_0")%string (
    x <- batch_norm x phase bn_decay "bn_1" ;;
    x <- lift (tf_nn_relu x "relu_1") ;;
    shortcut <- first_unit_shortcut filters strides i x ;;
    out_channels <- lift (getitem filters i) ;;
    stride <- lift (getitem strides (i - 1)) ;;
    x <- conv x 3 out_channels stride SAME "conv_1" ;;
    x <- batch_norm x phase bn_decay "bn_2" ;;
    x <- lift (tf_nn_relu x "relu_2") ;;
    out_channels <- lift (getitem filters i) ;;
    x <- conv x 3 out_channels 1 SAME "conv_2" ;;
    lift (tf_add x shortcut)).

(** A further residual unit [j] of block [i] (lines 136-153). *)
Definition further_residual_unit (filters : list Z) (phase : Tensor)
  (bn_decay : float) (i j : Z) (x : Tensor) : M Tensor :=
  tf_variable_scope ("unit_" ++ format_d i ++ "_" ++ format_d j)%string (
    let shortcut := x in
    x <- batch_norm x phase bn_decay "bn_1" ;;
    x <- lift (tf_nn_relu x "relu_1") ;;
    out_channels <- lift (getitem filters i) ;;
    x <- conv x 3 out_channels 1 SAME "conv_1" ;;
    x <- batch_norm x phase bn_decay "bn_2" ;;
    x <- lift (tf_nn_relu x "relu_2") ;;
    out_channels <- lift (getitem filters i) ;;
    x <- conv x 3 out_channels 1 SAME "conv_2" ;;
    lift (tf_add x shortcut)).

(** The body of the loop over the blocks (lines 103-153). *)
Definition residual_block (py : Interpreter) (filters strides : list Z)
  (phase : Tensor) (bn_decay : float) (num_residual_units : Z) (i : Z) (x : Tensor)
  : M Tensor :=
  x <- first_residual_unit filters strides phase bn_decay i x ;;
  js <- lift (xrange py 1 num_residual_units 1) ;;
  for_each js (fun j x => further_residual_unit filters phase bn_decay i j x) x.

(** The weight decay loop (lines 171-174). *)
Definition add_weight_decay (weight_decay : float) (W : Item) (_ : unit) : M unit :=
  l2 <- lift (tf_nn_l2_loss (convert_to_tensor W)) ;;
  term <- lift (tf_multiply (Const weight_decay) l2) ;;
  tf_add_to_collection tf_GraphKeys_REGULARIZATION_LOSSES (ITensor term).

(** [set_up.set_up(num_residual_units, k, weight_decay, bn_decay)] *)
Definition set_up (py : Interpreter) (self_data_loading : cifar100_input.data_loading)
  (num_residual_units k : Z) (weight_decay bn_decay : float) : M (Tensor * Tensor) :=
  let filters := [16; 16 * k; 32 * k; 64 * k] in
  let strides := [1; 2; 2] in
  let '(X, y, phase) := cifar100_input.load self_data_loading in
  x <- conv X 3 16 1 SAME "conv_0" ;;
  blocks <- lift (xrange py 1 4 1) ;;
  x <- for_each blocks
         (residual_block py filters strides phase bn_decay num_residual_units) x ;;
  x <- tf_variable_scope "unit_last" (
         x <- batch_norm x phase bn_decay "batch_norm" ;;
         x <- lift (tf_nn_relu x "relu") ;;
         lift (tf_reduce_mean x (Some [1; 2]))) ;;
  linear_outputs <- tf_variable_scope "fully-connected" (
         let x_shape := get_shape x in
         d1 <- lift (getitem x_shape 1) ;;
         x <- lift (tf_reshape x [Some (-1); d1]) ;;
         fc x 100 "fc") ;;
  losses <- lift (tf_nn_softmax_cross_entropy_with_logits_v2 y linear_outputs) ;;
  regs <- tf_get_collection "regularizable_variables" ;;
  for_each regs (add_weight_decay weight_decay) tt ;;;
  y_pred <- lift (tf_argmax linear_outputs 1) ;;
  y_correct <- lift (tf_argmax y 1) ;;
  correct_prediction <- lift (tf_equal y_pred y_correct) ;;
  c <- lift (tf_cast correct_prediction float32) ;;
  accuracy <- lift (tf_reduce_mean c None) ;;
  ret (losses, accuracy).

(** An instance of the class [set_up]. *)
Record set_up_class : Type := mk_set_up {
  data_loading : cifar100_input.data_loading;
  losses : Tensor;
  accuracy : Tensor;
  train_init_op : Operation;
  train_eval_init_op : Operation;
  test_init_op : Operation
}.

(** [set_up.__init__(batch_size, num_residual_units, k, weight_decay,
    bn_decay)].  [cifar100_input_data_loading] is the constructor of the
    collaborator. *)
Definition __init__ (py : Interpreter)
  (cifar100_input_data_loading : Z -> cifar100_input.data_loading)
  (batch_size num_residual_units k : Z) (weight_decay bn_decay : float)
  : M set_up_class :=
  let self_data_loading := cifar100_input_data_loading batch_size in
  '(self_losses, self_accuracy) <-
     set_up py self_data_loading num_residual_units k weight_decay bn_decay ;;
  let self_train_init_op := tf_group [cifar100_input.train_init_op self_data_loading] in
  let self_train_eval_init_op :=
    tf_group [cifar100_input.train_eval_init_op self_data_loading] in
  let self_test_init_op := tf_group [cifar100_input.test_init_op self_data_loading] in
  ret {| data_loading := self_data_loading;
         losses := self_losses; accuracy := self_accuracy;
         train_init_op := self_train_init_op;
         train_eval_init_op := self_train_eval_init_op;
         test_init_op := self_test_init_op |}.

(** [set_up.get()] *)
Definition get (self : set_up_class) : Tensor * Tensor :=
  (losses self, accuracy self).

End cifar100_wrn.
Export cifar100_wrn.

(* ================================================================== *)
(** ** A CIFAR-100 data loader to run the model on *)
(* ================================================================== *)

(** Modelled from the spec: the data source collaborator
    ([cifar100_input.data_loading], not part of the sources) supplies batches
    and a phase indicator.  Images are 32x32 with 3 channels, labels are
    one-hot over 100 classes; the batch dimension is [batch_size]. *)
Definition cifar100_loader (batch_size : Z) : cifar100_input.data_loading :=
  {| cifar100_input.load :=
       (DataTensor "X" [Some batch_size; Some 32; Some 32; Some 3] float32,
        DataTensor "y" [Some batch_size; Some 100] float32,
        DataTensor "phase" [] string_);
     cifar100_input.train_init_op := DataOp "train_init_op";
     cifar100_input.train_eval_init_op := DataOp "train_eval_init_op";
     cifar100_input.test_init_op := DataOp "test_init_op" |}.

Definition run_result {A : Type} (r : Result (A * Graph)) : option A :=
  match r with Ok (a, _) => Some a | Raise _ => None end.

Definition ok_b {A : Type} (r : Result A) : bool :=
  match r with Ok _ => true | Raise _ => false end.

(* ================================================================== *)
(** ** Vocabulary of the properties *)
(* ================================================================== *)

(** The statistic a batch norm layer normalises with: one output of the
    [tf.cond] on [phase == "train"]. *)
Definition bn_select (phase batch avg : Tensor) : Tensor :=
  Cond (Equal phase (ConstStr "train")) batch avg.

(** The assignment [avg.assign(decay * avg + (1.0 - decay) * batch)]. *)
Definition moving_average_update (decay : float) (avg : tf_Variable) (batch : Tensor)
  : Tensor :=
  Assign avg (Add (Mul (Const decay) (ReadVar avg)) (Mul (Const (1 - decay)%float) batch)).

(** Running a [tf.cond] node whose predicate compares a string tensor of
    run-time value [value] with a constant: the selected branch. *)
Definition run_cond (value : string) (t : Tensor) : Tensor :=
  match t with
  | Cond (Equal _ (ConstStr s)) a b => if String.eqb value s then a else b
  | _ => t
  end.

(** The variables a tensor assigns to when it is evaluated. *)
Fixpoint assigned_variables (t : Tensor) : list tf_Variable :=
  match t with
  | DataTensor _ _ _ | Const _ | ConstStr _ | ReadVar _ => []
  | Assign v value => v :: assigned_variables value
  | Conv2d x f _ _ _ => assigned_variables x ++ assigned_variables f
  | Relu x _ | Identity x | MaxPool x _ _ _ | MomentsMean x _ | MomentsVariance x _
  | ReduceMean x _ | Reshape x _ | L2Loss x | ArgMax x _ | Cast x _ =>
      assigned_variables x
  | Add x y | Mul x y | Equal x y | MatMul x y
  | SoftmaxCrossEntropyWithLogitsV2 x y =>
      assigned_variables x ++ assigned_variables y
  | Cond p a b => assigned_variables p ++ assigned_variables a ++ assigned_variables b
  | BatchNormalization x m v o s _ =>
      assigned_variables x ++ assigned_variables m ++ assigned_variables v
      ++ assigned_variables o ++ assigned_variables s
  end.

(** Concrete inputs to run the layers on. *)
Definition example_x : Tensor := DataTensor "x" [Some 2; Some 4; Some 4; Some 8] float32.
Definition example_phase : Tensor := DataTensor "phase" [] string_.
(** The double nearest to 0.9. *)
Definition decay_0_9 : float := 0x1.ccccccccccccdp-1%float.
(** The double nearest to 0.0005. *)
Definition weight_decay_5e_4 : float := 0x1.0624dd2f1a9fcp-11%float.

(** The names of the variables held by a collection. *)
Definition collection_variable_names (coll : list Item) : list (list string) :=
  flat_map (fun it => match it with IVar v => [var_name v] | ITensor _ => [] end) coll.

(** No variable occurs twice in the "regularizable_variables" collection. *)
Definition regularized_once (g : Graph) : Prop :=
  NoDup (collection_variable_names (get_collection "regularizable_variables" g)).

(** The initializer of a convolution kernel. *)
Definition conv_initializer (filter_size out_channels : Z) : Initializer :=
  random_normal_initializer
    (NpSqrt (PyDiv (PyDiv (PyDiv (PyFloat 1) (PyInt filter_size)) (PyInt filter_size))
               (PyInt out_channels))).

(** The effect of the guarded registration of a weight. *)
Definition register_weight (W : tf_Variable) (g : Graph) : Graph :=
  if contains_variable W (get_collection "regularizable_variables" g) then g
  else {| variable_scope := variable_scope g; scope_reuse := scope_reuse g;
          variables := variables g;
          collections := coll_add "regularizable_variables" (IVar W) (collections g) |}.

(** The default graph with a reusing variable scope, as a caller that
    builds the same layers repeatedly sets it up. *)
Definition auto_reuse_graph : Graph :=
  {| variable_scope := []; scope_reuse := AUTO_REUSE; variables := []; collections := [] |}.

(** That graph after [conv(x, 3, 16, 1, name="conv_0")] has been built once. *)
Definition once_built : Graph :=
  Eval vm_compute in
    match conv example_x 3 16 1 SAME "conv_0" auto_reuse_graph with
    | Ok (_, g) => g
    | Raise _ => auto_reuse_graph
    end.

(** A weight is a variable named "W" in its scope. *)
Definition is_weight (v : tf_Variable) : bool :=
  String.eqb (last (var_name v) "") "W".

Definition names (g : Graph) : list (list string) := map var_name (variables g).

(** The "regularizable_variables" collection holds exactly the weights of
    the variable store, in the order they were created. *)
Definition reg_inv (g : Graph) : Prop :=
  get_collection "regularizable_variables" g = map IVar (filter is_weight (variables g)).

(** [m] run on [g] returns [a] and leaves [g']. *)
Definition runs {A : Type} (m : M A) (g : Graph) (a : A) (g' : Graph) : Prop :=
  m g = Ok (a, g').

(** What building a part of the network does to the graph: it creates the
    variables [vs], registers those that are weights and adds the update
    operations [ups]. *)
Record grows (g g' : Graph) (vs : list tf_Variable) (ups : list Tensor) : Prop := {
  gr_scope : variable_scope g' = variable_scope g;
  gr_reuse : scope_reuse g' = scope_reuse g;
  gr_vars : variables g' = variables g ++ vs;
  gr_regs : get_collection "regularizable_variables" g'
            = get_collection "regularizable_variables" g
              ++ map IVar (filter is_weight vs);
  gr_updates : get_collection tf_GraphKeys_UPDATE_OPS g'
               = get_collection tf_GraphKeys_UPDATE_OPS g ++ map ITensor ups;
  gr_losses : get_collection tf_GraphKeys_REGULARIZATION_LOSSES g'
              = get_collection tf_GraphKeys_REGULARIZATION_LOSSES g
}.

Definition add_variable (v : tf_Variable) (g : Graph) : Graph :=
  {| variable_scope := variable_scope g; scope_reuse := scope_reuse g;
     variables := variables g ++ [v]; collections := collections g |}.

(** The four variables of a batch norm layer in scope [scope], for [c]
    channels. *)
Definition bn_variables (scope : list string) (c : Z) : list tf_Variable :=
  [ mkVariable (scope ++ ["mean_avg"]) [c] float32 zeros_initializer false;
    mkVariable (scope ++ ["std_avg"]) [c] float32 ones_initializer false;
    mkVariable (scope ++ ["beta"]) [c] float32 zeros_initializer true;
    mkVariable (scope ++ ["gamma"]) [c] float32 ones_initializer true ].

(** The normalised tensor of a batch norm layer in scope [scope]. *)
Definition bn_output (scope : list string) (c : Z) (x phase : Tensor) : Tensor :=
  BatchNormalization x
    (bn_select phase (MomentsMean x [0; 1; 2])
       (ReadVar (mkVariable (scope ++ ["mean_avg"]) [c] float32 zeros_initializer false)))
    (bn_select phase (MomentsVariance x [0; 1; 2])
       (ReadVar (mkVariable (scope ++ ["std_avg"]) [c] float32 ones_initializer false)))
    (ReadVar (mkVariable (scope ++ ["beta"]) [c] float32 zeros_initializer true))
    (ReadVar (mkVariable (scope ++ ["gamma"]) [c] float32 ones_initializer true))
    eps_1e_5.

(** The two update operations of that layer. *)
Definition bn_updates (scope : list string) (c : Z) (x : Tensor) (decay : float)
  : list Tensor :=
  [ moving_average_update decay
      (mkVariable (scope ++ ["mean_avg"]) [c] float32 zeros_initializer false)
      (MomentsMean x [0; 1; 2]);
    moving_average_update decay
      (mkVariable (scope ++ ["std_avg"]) [c] float32 ones_initializer false)
      (MomentsVariance x [0; 1; 2]) ].

(** The kernel of a convolution created in scope [scope]. *)
Definition conv_kernel (scope : list string) (filter_size in_channels out_channels : Z)
  : tf_Variable :=
  mkVariable (scope ++ ["W"]) [filter_size; filter_size; in_channels; out_channels]
    float32 (conv_initializer filter_size out_channels) true.

(** The output of a convolution layer built in scope [scope]. *)
Definition conv_output (scope : list string) (x : Tensor)
  (filter_size in_channels out_channels stride : Z) : Tensor :=
  Conv2d x (ReadVar (conv_kernel scope filter_size in_channels out_channels))
    [1; stride; stride; 1] SAME "output".

(** A spatial dimension after a SAME convolution of stride [stride]. *)
Definition same_dim (d : option Z) (stride : Z) : option Z :=
  option_map (fun n => (n + stride - 1) / stride) d.

(** The scope name ['unit_%d_%d' % (i, j)] of unit [j] of block [i]. *)
Definition unit_name (i j : Z) : string :=
  ("unit_" ++ format_d i ++ "_" ++ format_d j)%string.

(** The weight matrix and the bias of a fully-connected layer in [scope]. *)
Definition fc_weight (scope : list string) (in_dim out_dim : Z) : tf_Variable :=
  mkVariable (scope ++ ["W"]) [in_dim; out_dim] float32
    (random_normal_initializer (NpSqrt (PyDiv (PyFloat 1) (PyInt out_dim)))) true.

Definition fc_bias (scope : list string) (out_dim : Z) : tf_Variable :=
  mkVariable (scope ++ ["b"]) [out_dim] float32 (constant_initializer 0) true.

(** The output of a fully-connected layer built in [scope]. *)
Definition fc_output (scope : list string) (x : Tensor) (in_dim out_dim : Z) : Tensor :=
  Add (MatMul x (ReadVar (fc_weight scope in_dim out_dim)))
      (ReadVar (fc_bias scope out_dim)).

(** The outermost scope of each variable of the store. *)
Definition heads (g : Graph) : list string :=
  map (fun v => hd "" (var_name v)) (variables g).

(** The state [set_up] builds its parts in: top-level scope, no reuse, and
    the weights registered. *)
Definition ready (g : Graph) : Prop :=
  variable_scope g = [] /\ scope_reuse g = reuse_False /\ reg_inv g.

(** A part of the network was built between [g] and [g']: it created
    [nvars] variables, all in outermost scopes satisfying [P], [nweights] of
    them weights, and registered [nups] update operations. *)
Definition segment (P : string -> Prop) (g g' : Graph) (nvars nweights nups : nat)
  : Prop :=
  exists vs ups,
    grows g g' vs ups
    /\ Forall (fun v => P (hd "" (var_name v))) vs
    /\ List.length vs = nvars
    /\ List.length (filter is_weight vs) = nweights
    /\ List.length ups = nups.

(** [t] is [relu(batch_norm(x))]. *)
Definition bn_relu (x t : Tensor) (name : string) : Prop :=
  exists m v o s, t = Relu (BatchNormalization x m v o s eps_1e_5) name.

(** [t] is a SAME convolution of [x] with a square kernel. *)
Definition conv_layer (filter_size out_channels stride : Z) (x t : Tensor) : Prop :=
  exists W in_channels,
    t = Conv2d x (ReadVar W) [1; stride; stride; 1] SAME "output"
    /\ var_shape W = [filter_size; filter_size; in_channels; out_channels].

(** A residual unit after the first of its block: the shortcut is the
    input of the unit. *)
Definition further_unit (f : Z) (x out : Tensor) : Prop :=
  exists a1 c1 a2 c2,
    bn_relu x a1 "relu_1" /\ conv_layer 3 f 1 a1 c1
    /\ bn_relu c1 a2 "relu_2" /\ conv_layer 3 f 1 a2 c2
    /\ out = Add c2 x.

(** The first residual unit of a block: the shortcut is taken after the
    first activation, as the identity or as a 1x1 convolution. *)
Definition first_unit (f s : Z) (x out : Tensor) : Prop :=
  exists a1 c1 a2 c2 sc,
    bn_relu x a1 "relu_1" /\ conv_layer 3 f s a1 c1
    /\ bn_relu c1 a2 "relu_2" /\ conv_layer 3 f 1 a2 c2
    /\ (sc = Identity a1 \/ conv_layer 1 f s a1 sc)
    /\ out = Add c2 sc.

(** The outermost scopes in use before unit [j] of block [i] is built:
    that of the initial convolution and those of the earlier units. *)
Definition head_before (i j : Z) (h : string) : Prop :=
  h = "conv_0"
  \/ exists a b, h = unit_name a b /\ 1 <= a /\ 0 <= b /\ (a < i \/ (a = i /\ b < j)).

(** [set_up] is about to build unit [j] of block [i]. *)
Definition at_position (i j : Z) (g : Graph) : Prop :=
  ready g /\ Forall (head_before i j) (heads g).

(** [m] further units in a row. *)
Fixpoint further_units (m : nat) (f : Z) (x out : Tensor) : Prop :=
  match m with
  | O => out = x
  | S m' => exists mid, further_unit f x mid /\ further_units m' f mid out
  end.

(** A residual block of [1 + m] units. *)
Definition residual_block_of (m : nat) (f s : Z) (x out : Tensor) : Prop :=
  exists mid, first_unit f s x mid /\ further_units m f mid out.

(** The classification head on the features [feat] with [c] channels. *)
Definition pooled_features (feat phase : Tensor) (c : Z) : Tensor :=
  ReduceMean (Relu (bn_output ["unit_last"; "batch_norm"] c feat phase) "relu")
    (Some [1; 2]).

Definition classifier_logits (feat phase : Tensor) (c : Z) : Tensor :=
  fc_output ["fully-connected"; "fc"] (Reshape (pooled_features feat phase c) [-1; c])
    c 100.

Definition losses_of (y logits : Tensor) : Tensor :=
  SoftmaxCrossEntropyWithLogitsV2 y logits.

Definition accuracy_of (y logits : Tensor) : Tensor :=
  ReduceMean (Cast (Equal (ArgMax logits 1) (ArgMax y 1)) float32) None.

(** The weight decay term of a variable. *)
Definition weight_decay_term (weight_decay : float) (W : tf_Variable) : Item :=
  ITensor (Mul (Const weight_decay) (L2Loss (ReadVar W))).

(** [m] run on [g] raises [e]. *)
Definition raises {A : Type} (m : M A) (g : Graph) (e : Exception) : Prop :=
  m g = Raise e.

(** [g'] extends [g]: the variable scope and its reuse flag are as before,
    the variable store and every collection have only been appended to, the
    new variables are named under the current scope, and variable names
    stay unique in a non-reusing scope. *)
Record extends (g g' : Graph) : Prop := {
  ex_scope : variable_scope g' = variable_scope g;
  ex_reuse : scope_reuse g' = scope_reuse g;
  ex_vars : exists vs,
      variables g' = variables g ++ vs
      /\ Forall (fun v => exists rest, var_name v = variable_scope g ++ rest) vs;
  ex_colls : forall key, exists items,
      get_collection key g' = get_collection key g ++ items;
  ex_unique : scope_reuse g = reuse_False -> NoDup (names g) -> NoDup (names g')
}.

(** Every successful run of [m] extends the graph. *)
Definition extending {A : Type} (m : M A) : Prop :=
  forall g a g', m g = Ok (a, g') -> extends g g'.

(** Every successful run of [m] keeps the property [Q] of the collection
    [key]. *)
Definition keeps (key : string) (Q : list Item -> Prop) {A : Type} (m : M A) : Prop :=
  forall g a g', Q (get_collection key g) -> m g = Ok (a, g') -> Q (get_collection key g').

(** The term [weight_decay * tf.nn.l2_loss(W)] of a collection entry. *)
Definition decay_term (weight_decay : float) (W : Item) : Item :=
  ITensor (Mul (Const weight_decay) (L2Loss (convert_to_tensor W))).

(** [h] knows what [g] knows: it is in the same scope and reuse mode, every
    variable lookup that succeeds in [g] finds the same variable in [h], and
    every weight registered in [g] is registered in [h]. *)
Record later (g h : Graph) : Prop := {
  lt_scope : variable_scope h = variable_scope g;
  lt_reuse : scope_reuse h = scope_reuse g;
  lt_find : forall n v, find (has_name n) (variables g) = Some v ->
                        find (has_name n) (variables h) = Some v;
  lt_regs : forall W,
      contains_variable W (get_collection "regularizable_variables" g) = true ->
      contains_variable W (get_collection "regularizable_variables" h) = true
}.

(** The step from [h] to [h'] repeats the step from [g] to [g']: it creates
    no variable and registers no weight, and appends to every other
    collection what the first step appended. *)
Record repeats (g g' h h' : Graph) : Prop := {
  rp_scope : variable_scope h' = variable_scope h;
  rp_reuse : scope_reuse h' = scope_reuse h;
  rp_vars : variables h' = variables h;
  rp_regs : get_collection "regularizable_variables" h'
            = get_collection "regularizable_variables" h;
  rp_colls : forall key items,
      key <> "regularizable_variables"%string ->
      get_collection key g' = get_collection key g ++ items ->
      get_collection key h' = get_collection key h ++ items
}.

(** In a reusing scope, [m] can be run again on every graph that knows what
    its first run left, with the same result. *)
Definition repeatable {A : Type} (m : M A) : Prop :=
  forall g a g', scope_reuse g <> reuse_False -> m g = Ok (a, g') ->
    forall h, later g' h -> exists h', m h = Ok (a, h') /\ repeats g g' h h'.

(** A call of one of the three layer builders of the class. *)
Inductive layer_call : Type :=
| call_batch_norm (x phase : Tensor) (decay : float) (name : string)
| call_conv (x : Tensor) (filter_size out_channels stride : Z) (padding : Padding)
    (name : string)
| call_fc (x : Tensor) (out_dim : Z) (name : string).

Definition run_layer (c : layer_call) : M Tensor :=
  match c with
  | call_batch_norm x phase decay name => batch_norm x phase decay name
  | call_conv x filter_size out_channels stride padding name =>
      conv x filter_size out_channels stride padding name
  | call_fc x out_dim name => fc x out_dim name
  end.

(** The number of update operations a layer registers. *)
Definition layer_update_ops (c : layer_call) : nat :=
  match c with
  | call_batch_norm _ _ _ _ => 2
  | _ => 0
  end.

(** [W] is a weight of the graph [g]: the variable that the store holds
    under its name, registered by name in "regularizable_variables". *)
Definition kernel_in (g : Graph) (W : tf_Variable) : Prop :=
  find (has_name (var_name W)) (variables g) = Some W
  /\ In (var_name W)
        (collection_variable_names (get_collection "regularizable_variables" g)).

(** The layers of the network, with a property [R] of every kernel. *)
Definition conv_layer_where (R : tf_Variable -> Prop) (filter_size out_channels stride : Z)
  (x t : Tensor) : Prop :=
  exists W in_channels,
    t = Conv2d x (ReadVar W) [1; stride; stride; 1] SAME "output"
    /\ var_shape W = [filter_size; filter_size; in_channels; out_channels]
    /\ R W.

Definition further_unit_where (R : tf_Variable -> Prop) (f : Z) (x out : Tensor) : Prop :=
  exists a1 c1 a2 c2,
    bn_relu x a1 "relu_1" /\ conv_layer_where R 3 f 1 a1 c1
    /\ bn_relu c1 a2 "relu_2" /\ conv_layer_where R 3 f 1 a2 c2
    /\ out = Add c2 x.

Definition first_unit_where (R : tf_Variable -> Prop) (f s : Z) (x out : Tensor) : Prop :=
  exists a1 c1 a2 c2 sc,
    bn_relu x a1 "relu_1" /\ conv_layer_where R 3 f s a1 c1
    /\ bn_relu c1 a2 "relu_2" /\ conv_layer_where R 3 f 1 a2 c2
    /\ (sc = Identity a1 \/ conv_layer_where R 1 f s a1 sc)
    /\ out = Add c2 sc.

Fixpoint further_units_where (R : tf_Variable -> Prop) (m : nat) (f : Z)
  (x out : Tensor) : Prop :=
  match m with
  | O => out = x
  | S m' => exists mid, further_unit_where R f x mid
                        /\ further_units_where R m' f mid out
  end.

(** A residual block of [units] residual units: a first unit of stride [s]
    and [units - 1] further units, all with [f] channels. *)
Definition residual_block_where (R : tf_Variable -> Prop) (units : nat) (f s : Z)
  (x out : Tensor) : Prop :=
  exists m mid,
    units = S m /\ first_unit_where R f s x mid /\ further_units_where R m f mid out.

(** How [tf.get_variable] came by the variable [v] it returned for the
    full name [name] in the graph [g]: it created [v] with the initializer
    and the trainable flag of the call, the name being free; or, in a
    reusing scope, it returned the variable of that name that the graph
    already had, whatever its initializer and flag. *)
Definition obtained (g : Graph) (name : list string) (init : Initializer) (tr : bool)
  (v : tf_Variable) : Prop :=
  var_name v = name
  /\ ((~ In name (names g) /\ var_initializer v = init /\ var_trainable v = tr)
      \/ (scope_reuse g <> reuse_False /\ In v (variables g))).

(** A graph in an [AUTO_REUSE] scope that already has a variable
    [bn_1/mean_avg], trainable and initialised to ones. *)
Definition shared_mean_graph : Graph :=
  {| variable_scope := []; scope_reuse := AUTO_REUSE;
     variables := [mkVariable ["bn_1"; "mean_avg"] [8] float32 ones_initializer true];
     collections := [] |}.
(** The classifier's logits, computed from the activation [act] of the
    last unit: the mean over the axes 1 and 2, reshaped to
    [[-1, channels]], times [W] plus [bias]. *)
Definition logits_of (act : Tensor) (channels : Z) (W bias : tf_Variable) : Tensor :=
  Add (MatMul (Reshape (ReduceMean act (Some [1; 2])) [-1; channels]) (ReadVar W))
      (ReadVar bias).

(** [V] is a variable of the graph [g]. *)
Definition variable_of (g : Graph) (V : tf_Variable) : Prop := In V (variables g).
(** [t.dtype] *)
Fixpoint get_dtype (t : Tensor) : DType :=
  match t with
  | DataTensor _ _ d => d
  | Const _ => float32
  | ConstStr _ => string_
  | ReadVar v => var_dtype v
  | Conv2d x _ _ _ _ => get_dtype x
  | Relu x _ => get_dtype x
  | Identity x => get_dtype x
  | MaxPool x _ _ _ => get_dtype x
  | Add x _ => get_dtype x
  | Mul x _ => get_dtype x
  | MomentsMean x _ => get_dtype x
  | MomentsVariance x _ => get_dtype x
  | Assign v _ => var_dtype v
  | Equal _ _ => bool_
  | Cond _ a _ => get_dtype a
  | BatchNormalization x _ _ _ _ _ => get_dtype x
  | ReduceMean x _ => get_dtype x
  | Reshape x _ => get_dtype x
  | MatMul a _ => get_dtype a
  | SoftmaxCrossEntropyWithLogitsV2 _ z => get_dtype z
  | L2Loss t => get_dtype t
  | ArgMax _ _ => int64
  | Cast _ d => d
  end.

(** The sizes for which the statements that promise a result are made:
    positive, and small enough for TensorFlow's 32-bit shape entries, for
    the element count of a four-dimensional tensor in 64 bits and for the
    conversion to a float in the initializers. *)
Definition max_size : Z := 2 ^ 15.

Definition size_ok (z : Z) : Prop := 1 <= z <= max_size.

(** A dimension is unknown or a size. *)
Definition dim_ok (d : Dim) : Prop :=
  match d with
  | Some z => size_ok z
  | None => True
  end.

(** The values of [num_residual_units] for which the statements that
    promise a result are made: [xrange] of Python 2 takes C longs (32 bits
    at least), and the graph has to fit into memory. *)
Definition units_ok (n : Z) : Prop := - 2 ^ 31 <= n <= 2 ^ 10.

(** The values of [num_residual_units] that [xrange] of Python 2 takes on
    every platform. *)
Definition fits_c_long (n : Z) : Prop := - 2 ^ 31 <= n < 2 ^ 31.

(** The names [tf.variable_scope] accepts as one component of a scope
    path, also at top level: a letter, a digit or a dot, followed by
    letters, digits, dots, underscores and dashes. *)
Definition scope_name_char (first : bool) (c : ascii) : bool :=
  let n := nat_of_ascii c in
  ((48 <=? n) && (n <=? 57) || (65 <=? n) && (n <=? 90) || (97 <=? n) && (n <=? 122)
   || (n =? 46) || negb first && ((n =? 95) || (n =? 45)))%nat.

Fixpoint scope_name_rest (s : string) : bool :=
  match s with
  | EmptyString => true
  | String c r => scope_name_char false c && scope_name_rest r
  end.

Definition valid_scope_name (name : string) : bool :=
  match name with
  | EmptyString => false
  | String c r => scope_name_char true c && scope_name_rest r
  end.

(** The phase input of the network: a scalar string tensor. *)
Definition phase_tensor (t : Tensor) : Prop :=
  get_shape t = [] /\ get_dtype t = string_.

(** A batch of feature maps: a [float32] tensor of rank four with a known
    channel count. *)
Definition feature_maps (x : Tensor) (b h w : Dim) (c : Z) : Prop :=
  get_shape x = [b; h; w; Some c] /\ get_dtype x = float32
  /\ dim_ok b /\ dim_ok h /\ dim_ok w /\ size_ok c.

(** A batch of feature vectors: a [float32] tensor of rank two with a
    known feature count. *)
Definition feature_vectors (x : Tensor) (b : Dim) (c : Z) : Prop :=
  get_shape x = [b; Some c] /\ get_dtype x = float32 /\ dim_ok b /\ size_ok c.

(** A batch of one-hot labels over the 100 classes. *)
Definition label_batch (y : Tensor) (b : Dim) : Prop :=
  get_shape y = [b; Some 100] /\ get_dtype y = float32.




(* END OF DEFINITIONS *)

(* ================================================================== *)
(** ** Running graph constructions: inversion lemmas *)
(* ================================================================== *)

Local Open Scope graph_scope.

Lemma bind_ok {A B : Type} (m : M A) (f : A -> M B) (g : Graph) (b : B) (g2 : Graph) :
  bind m f g = Ok (b, g2) ->
  exists a g1, m g = Ok (a, g1) /\ f a g1 = Ok (b, g2).
Proof.
  unfold bind. destruct (m g) as [[a g1]|e]; [|discriminate].
  intros H. exists a, g1. split; [reflexivity|exact H].
Qed.

Lemma bind_run {A B : Type} (m : M A) (f : A -> M B) (g g1 : Graph) (a : A) :
  m g = Ok (a, g1) -> bind m f g = f a g1.
Proof. unfold bind. intros ->. reflexivity. Qed.

Lemma lift_ok {A : Type} (r : Result A) (g : Graph) (a : A) (g' : Graph) :
  lift r g = Ok (a, g') -> r = Ok a /\ g' = g.
Proof.
  unfold lift. destruct r; [|discriminate].
  intros H. inversion H. split; reflexivity.
Qed.

Lemma scope_ok {A : Type} (name : string) (body : M A) (g : Graph) (a : A) (g' : Graph) :
  tf_variable_scope name body g = Ok (a, g') ->
  exists g1, body (set_scope (variable_scope g ++ [name]) g) = Ok (a, g1)
             /\ g' = set_scope (variable_scope g) g1.
Proof.
  unfold tf_variable_scope.
  destruct (body _) as [[a1 g1]|e]; [|discriminate].
  intros H. inversion H. subst. exists g1. split; reflexivity.
Qed.

Lemma checked_ok (o : option Shape) (t r : Tensor) (msg : string) :
  checked o t msg = Ok r -> r = t /\ exists s, o = Some s.
Proof.
  unfold checked. destruct o as [s|]; [|discriminate].
  intros H. inversion H. split; [reflexivity|exists s; reflexivity].
Qed.

Lemma has_name_true (name : list string) (v : tf_Variable) :
  has_name name v = true <-> var_name v = name.
Proof.
  unfold has_name. destruct (name_eq_dec (var_name v) name); split;
    intros; congruence.
Qed.

Lemma find_has_name_none (name : list string) (vs : list tf_Variable) :
  find (has_name name) vs = None <-> ~ In name (map var_name vs).
Proof.
  induction vs as [|v vs IH]; simpl.
  - split; [intros _ []|reflexivity].
  - destruct (has_name name v) eqn:E.
    + apply has_name_true in E. split; [discriminate|].
      intros H. exfalso. apply H. left. exact E.
    + rewrite IH. split.
      * intros H [H1|H1]; [|exact (H H1)].
        apply has_name_true in H1. congruence.
      * intros H H1. apply H. right. exact H1.
Qed.

(** What a successful [tf.get_variable] did: it returned a variable of the
    store under the scoped name, creating it unless the scope reuses. *)
Lemma get_variable_inv (name : string) (shape : Shape) (dtype : DType)
  (init : Initializer) (tr : bool) (g : Graph) (v : tf_Variable) (g' : Graph) :
  tf_get_variable name shape dtype init tr g = Ok (v, g') ->
  var_name v = variable_scope g ++ [name]
  /\ variable_scope g' = variable_scope g
  /\ scope_reuse g' = scope_reuse g
  /\ collections g' = collections g
  /\ ((g' = g /\ In v (variables g) /\ scope_reuse g <> reuse_False)
      \/ (exists s, fully_defined shape = Some s
            /\ v = mkVariable (variable_scope g ++ [name]) s dtype init tr
            /\ variables g' = variables g ++ [v]
            /\ ~ In (variable_scope g ++ [name]) (map var_name (variables g)))).
Proof.
  unfold tf_get_variable.
  destruct (find (has_name (variable_scope g ++ [name])) (variables g)) as [v0|] eqn:F.
  - destruct (scope_reuse g) eqn:R; [discriminate| |];
      (destruct (fully_defined shape) as [s|]; [|discriminate]);
      (destruct (shape_eqb s (var_shape v0) && dtype_eqb dtype (var_dtype v0));
       [|discriminate]);
      intros H; inversion H; subst;
      apply find_some in F; destruct F as [F1 F2]; apply has_name_true in F2;
      (repeat split; try assumption; try reflexivity);
      left; (repeat split; try assumption; try reflexivity); congruence.
  - destruct (scope_reuse g) eqn:R; [|discriminate|];
      (destruct (fully_defined shape) as [s|]; [|discriminate]);
      intros H; inversion H; subst; simpl;
      (repeat split; try reflexivity);
      right; exists s; (repeat split; try reflexivity);
      apply find_has_name_none; exact F.
Qed.

Lemma get_variable_stored (name : string) (shape : Shape) (dtype : DType)
  (init : Initializer) (tr : bool) (g : Graph) (v : tf_Variable) (g' : Graph) :
  tf_get_variable name shape dtype init tr g = Ok (v, g') ->
  In v (variables g') /\ incl (variables g) (variables g').
Proof.
  intros H. apply get_variable_inv in H.
  destruct H as (_ & _ & _ & _ & [(-> & I & _)|(s & _ & _ & W & _)]).
  - split; [exact I|apply incl_refl].
  - rewrite W. split.
    + apply in_or_app. right. left. reflexivity.
    + apply incl_appl, incl_refl.
Qed.

Lemma coll_lookup_add_same (key : string) (it : Item) (c : list (string * list Item)) :
  coll_lookup key (coll_add key it c) = coll_lookup key c ++ [it].
Proof.
  induction c as [|[k l] c IH]; simpl.
  - rewrite String.eqb_refl. reflexivity.
  - destruct (String.eqb k key) eqn:E; simpl; rewrite E; [reflexivity|exact IH].
Qed.

Lemma coll_lookup_add_other (key key' : string) (it : Item)
  (c : list (string * list Item)) :
  key <> key' -> coll_lookup key' (coll_add key it c) = coll_lookup key' c.
Proof.
  intros N. induction c as [|[k l] c IH]; simpl.
  - destruct (String.eqb key key') eqn:E; [|reflexivity].
    apply String.eqb_eq in E. contradiction.
  - destruct (String.eqb k key) eqn:E; simpl.
    + apply String.eqb_eq in E. subst k.
      destruct (String.eqb key key') eqn:E'; [|reflexivity].
      apply String.eqb_eq in E'. contradiction.
    + destruct (String.eqb k key'); [reflexivity|exact IH].
Qed.

Lemma add_to_collection_ok (key : string) (it : Item) (g : Graph) (u : unit) (g' : Graph) :
  tf_add_to_collection key it g = Ok (u, g') ->
  variable_scope g' = variable_scope g /\ scope_reuse g' = scope_reuse g
  /\ variables g' = variables g
  /\ get_collection key g' = get_collection key g ++ [it]
  /\ (forall key', key <> key' -> get_collection key' g' = get_collection key' g).
Proof.
  unfold tf_add_to_collection, get_collection. intros H. inversion H. subst. simpl.
  repeat split.
  - apply coll_lookup_add_same.
  - intros key' N. apply coll_lookup_add_other. exact N.
Qed.

Ltac inv_bind H :=
  let a := fresh "a" in
  let g := fresh "g" in
  let E := fresh "E" in
  apply bind_ok in H; destruct H as (a & g & E & H).

Ltac inv_lift E :=
  let Eg := fresh "Eg" in
  apply lift_ok in E; destruct E as [E Eg]; subst.

Ltac inv_checked E :=
  let S := fresh "S" in
  apply checked_ok in E; destruct E as [E S]; subst.

(* ================================================================== *)
(** ** The batch normalisation layer *)
(* ================================================================== *)

Lemma batch_norm_inv (x phase : Tensor) (decay : float) (name : string)
  (g : Graph) (t : Tensor) (g' : Graph) :
  batch_norm x phase decay name g = Ok (t, g') ->
  exists mean_avg variance_avg beta gamma,
    t = BatchNormalization x
          (bn_select phase (MomentsMean x [0; 1; 2]) (ReadVar mean_avg))
          (bn_select phase (MomentsVariance x [0; 1; 2]) (ReadVar variance_avg))
          (ReadVar beta) (ReadVar gamma) eps_1e_5
    /\ var_name mean_avg = variable_scope g ++ [name; "mean_avg"]
    /\ var_name variance_avg = variable_scope g ++ [name; "std_avg"]
    /\ var_name beta = variable_scope g ++ [name; "beta"]
    /\ var_name gamma = variable_scope g ++ [name; "gamma"]
    /\ variable_scope g' = variable_scope g
    /\ scope_reuse g' = scope_reuse g
    /\ collections g' =
         coll_add tf_GraphKeys_UPDATE_OPS
           (ITensor (moving_average_update decay variance_avg (MomentsVariance x [0; 1; 2])))
           (coll_add tf_GraphKeys_UPDATE_OPS
              (ITensor (moving_average_update decay mean_avg (MomentsMean x [0; 1; 2])))
              (collections g))
    /\ (scope_reuse g = reuse_False ->
        exists s,
          reduce_shape (get_shape x) [0; 1; 2] = Some s
          /\ exists sh, fully_defined s = Some sh
          /\ mean_avg = mkVariable (variable_scope g ++ [name; "mean_avg"]) sh float32
                          zeros_initializer false
          /\ variance_avg = mkVariable (variable_scope g ++ [name; "std_avg"]) sh float32
                              ones_initializer false
          /\ beta = mkVariable (variable_scope g ++ [name; "beta"]) sh float32
                      zeros_initializer true
          /\ gamma = mkVariable (variable_scope g ++ [name; "gamma"]) sh float32
                       ones_initializer true
          /\ variables g' = variables g ++ [mean_avg; variance_avg; beta; gamma])
    /\ In mean_avg (variables g') /\ In variance_avg (variables g').
Proof.
  unfold batch_norm. intros H.
  apply scope_ok in H. destruct H as (gl & H & ->).
  inv_bind H. inv_lift E. destruct a as [mean_batch variance_batch].
  unfold tf_nn_moments in E.
  destruct (reduce_shape (get_shape x) [0; 1; 2]) as [s|] eqn:RS; [|discriminate].
  inversion E; subst; clear E.
  inv_bind H. rename a into mean_avg.
  pose proof (get_variable_stored _ _ _ _ _ _ _ _ E) as [St1 In1].
  apply get_variable_inv in E.
  destruct E as (N1 & Sc1 & Re1 & Co1 & V1).
  inv_bind H. rename a into variance_avg.
  pose proof (get_variable_stored _ _ _ _ _ _ _ _ E) as [St2 In2].
  apply get_variable_inv in E.
  destruct E as (N2 & Sc2 & Re2 & Co2 & V2).
  inv_bind H. rename a into beta.
  pose proof (get_variable_stored _ _ _ _ _ _ _ _ E) as [St3 In3].
  apply get_variable_inv in E.
  destruct E as (N3 & Sc3 & Re3 & Co3 & V3).
  inv_bind H. rename a into gamma.
  pose proof (get_variable_stored _ _ _ _ _ _ _ _ E) as [St4 In4].
  apply get_variable_inv in E.
  destruct E as (N4 & Sc4 & Re4 & Co4 & V4).
  inv_bind H. inv_lift E. unfold tf_multiply in E. inv_checked E.
  inv_bind H. inv_lift E. unfold tf_multiply in E. inv_checked E.
  inv_bind H. inv_lift E. unfold tf_add in E. inv_checked E.
  inv_bind H. inv_lift E. unfold assign in E. inv_checked E.
  inv_bind H. inv_lift E. unfold tf_multiply in E. inv_checked E.
  inv_bind H. inv_lift E. unfold tf_multiply in E. inv_checked E.
  inv_bind H. inv_lift E. unfold tf_add in E. inv_checked E.
  inv_bind H. inv_lift E. unfold assign in E. inv_checked E.
  inv_bind H. unfold tf_add_to_collection in E. inversion E; subst; clear E.
  inv_bind H. unfold tf_add_to_collection in E. inversion E; subst; clear E.
  inv_bind H. inv_lift E. unfold tf_equal in E. inv_checked E.
  inv_bind H. inv_lift E. unfold tf_cond in E. inversion E; subst; clear E.
  inv_lift H. unfold tf_nn_batch_normalization in H. inv_checked H.
  simpl in *.
  rewrite Sc1 in *. rewrite Sc2 in *. rewrite Sc3 in *.
  rewrite Re1 in *. rewrite Re2 in *. rewrite Re3 in *.
  repeat rewrite <- app_assoc in *. simpl in *.
  exists mean_avg, variance_avg, beta, gamma.
  split; [reflexivity|].
  split; [exact N1|]. split; [exact N2|]. split; [exact N3|]. split; [exact N4|].
  split; [reflexivity|]. split; [exact Re4|].
  split; [rewrite Co4, Co3, Co2, Co1; reflexivity|].
  split; [|split; [apply In4, In3, In2, St1|apply In4, In3, St2]].
  intros RF. exists s. split; [reflexivity|].
  rewrite RS in *. simpl in *.
  destruct V1 as [(_ & _ & V1)|(sh & F1 & E1 & W1 & _)]; [contradiction|].
  destruct V2 as [(_ & _ & V2)|(sh2 & F2 & E2 & W2 & _)]; [contradiction|].
  destruct V3 as [(_ & _ & V3)|(sh3 & F3 & E3 & W3 & _)]; [contradiction|].
  destruct V4 as [(_ & _ & V4)|(sh4 & F4 & E4 & W4 & _)]; [contradiction|].
  assert (sh2 = sh) by congruence. assert (sh3 = sh) by congruence.
  assert (sh4 = sh) by congruence. subst sh2 sh3 sh4.
  exists sh. split; [exact F1|].
  split; [exact E1|]. split; [exact E2|]. split; [exact E3|]. split; [exact E4|].
  rewrite W4, W3, W2, W1. repeat rewrite <- app_assoc. reflexivity.
Qed.

(** C1: a batch norm layer normalises [x] with the moments of the batch over
    the axes 0, 1, 2 exactly when the phase is "train", and with the stored
    moving averages for every other phase value. *)
Theorem batch_norm_phase_selects_statistics
  (x phase : Tensor) (decay : float) (name : string) (g : Graph) (t : Tensor) (g' : Graph) :
  batch_norm x phase decay name g = Ok (t, g') ->
  exists mean_avg variance_avg offset scale,
    let mean := bn_select phase (MomentsMean x [0; 1; 2]) (ReadVar mean_avg) in
    let variance := bn_select phase (MomentsVariance x [0; 1; 2]) (ReadVar variance_avg) in
    t = BatchNormalization x mean variance offset scale eps_1e_5
    /\ In mean_avg (variables g') /\ In variance_avg (variables g')
    /\ var_name mean_avg = variable_scope g ++ [name; "mean_avg"]
    /\ var_name variance_avg = variable_scope g ++ [name; "std_avg"]
    /\ forall value : string,
         (value = "train" ->
            run_cond value mean = MomentsMean x [0; 1; 2]
            /\ run_cond value variance = MomentsVariance x [0; 1; 2])
         /\ (value <> "train" ->
               run_cond value mean = ReadVar mean_avg
               /\ run_cond value variance = ReadVar variance_avg).
Proof.
  intros H. apply batch_norm_inv in H.
  destruct H as (mean_avg & variance_avg & beta & gamma & Ht & N1 & N2 & _ & _ & _ & _
                 & _ & _ & I1 & I2).
  exists mean_avg, variance_avg, (ReadVar beta), (ReadVar gamma).
  cbv zeta. split; [exact Ht|].
  split; [exact I1|]. split; [exact I2|]. split; [exact N1|]. split; [exact N2|].
  intros value. unfold bn_select, run_cond. split.
  - intros ->. simpl. split; reflexivity.
  - intros N. destruct (String.eqb value "train") eqn:E.
    + apply String.eqb_eq in E. contradiction.
    + split; reflexivity.
Qed.

(** C7: a batch norm layer appends exactly two operations to the
    UPDATE_OPS collection, which assign
    [decay * average + (1 - decay) * batch statistic] to the moving mean and
    to the moving variance; the normalised tensor itself assigns to no
    variable beyond what its inputs assign. *)
Theorem batch_norm_registers_two_update_ops
  (x phase : Tensor) (decay : float) (name : string) (g : Graph) (t : Tensor) (g' : Graph) :
  batch_norm x phase decay name g = Ok (t, g') ->
  exists mean_avg variance_avg,
    var_name mean_avg = variable_scope g ++ [name; "mean_avg"]
    /\ var_name variance_avg = variable_scope g ++ [name; "std_avg"]
    /\ get_collection tf_GraphKeys_UPDATE_OPS g' =
         get_collection tf_GraphKeys_UPDATE_OPS g
         ++ [ITensor (Assign mean_avg
                        (Add (Mul (Const decay) (ReadVar mean_avg))
                             (Mul (Const (1 - decay)%float) (MomentsMean x [0; 1; 2]))));
             ITensor (Assign variance_avg
                        (Add (Mul (Const decay) (ReadVar variance_avg))
                             (Mul (Const (1 - decay)%float)
                                  (MomentsVariance x [0; 1; 2]))))]
    /\ (forall v, In v (assigned_variables t) ->
                  In v (assigned_variables x) \/ In v (assigned_variables phase)).
Proof.
  intros H. apply batch_norm_inv in H.
  destruct H as (mean_avg & variance_avg & beta & gamma & Ht & N1 & N2 & _ & _ & _ & _
                 & Co & _).
  exists mean_avg, variance_avg.
  split; [exact N1|]. split; [exact N2|]. split.
  - unfold get_collection. rewrite Co.
    rewrite !coll_lookup_add_same. rewrite <- app_assoc. reflexivity.
  - intros v. rewrite Ht. unfold bn_select. simpl.
    rewrite !app_nil_r. rewrite !in_app_iff. tauto.
Qed.

Lemma batch_norm_phase_selects_statistics_witness :
  exists t g',
    batch_norm example_x example_phase decay_0_9 "bn_1" empty_graph = Ok (t, g')
    /\ exists mean_avg variance_avg offset scale,
         let mean := bn_select example_phase (MomentsMean example_x [0; 1; 2])
                       (ReadVar mean_avg) in
         let variance := bn_select example_phase (MomentsVariance example_x [0; 1; 2])
                           (ReadVar variance_avg) in
         t = BatchNormalization example_x mean variance offset scale eps_1e_5
         /\ In mean_avg (variables g') /\ In variance_avg (variables g')
         /\ var_name mean_avg = variable_scope empty_graph ++ ["bn_1"; "mean_avg"]
         /\ var_name variance_avg = variable_scope empty_graph ++ ["bn_1"; "std_avg"]
         /\ forall value : string,
              (value = "train" ->
                 run_cond value mean = MomentsMean example_x [0; 1; 2]
                 /\ run_cond value variance = MomentsVariance example_x [0; 1; 2])
              /\ (value <> "train" ->
                    run_cond value mean = ReadVar mean_avg
                    /\ run_cond value variance = ReadVar variance_avg).
Proof.
  eexists. eexists. split.
  - vm_compute. reflexivity.
  - apply (batch_norm_phase_selects_statistics example_x example_phase decay_0_9 "bn_1"
             empty_graph).
    vm_compute. reflexivity.
Defined.

Lemma batch_norm_registers_two_update_ops_witness :
  exists t g',
    batch_norm example_x example_phase decay_0_9 "bn_1" empty_graph = Ok (t, g')
    /\ exists mean_avg variance_avg,
         var_name mean_avg = variable_scope empty_graph ++ ["bn_1"; "mean_avg"]
         /\ var_name variance_avg = variable_scope empty_graph ++ ["bn_1"; "std_avg"]
         /\ get_collection tf_GraphKeys_UPDATE_OPS g' =
              get_collection tf_GraphKeys_UPDATE_OPS empty_graph
              ++ [ITensor (Assign mean_avg
                             (Add (Mul (Const decay_0_9) (ReadVar mean_avg))
                                  (Mul (Const (1 - decay_0_9)%float)
                                       (MomentsMean example_x [0; 1; 2]))));
                  ITensor (Assign variance_avg
                             (Add (Mul (Const decay_0_9) (ReadVar variance_avg))
                                  (Mul (Const (1 - decay_0_9)%float)
                                       (MomentsVariance example_x [0; 1; 2]))))]
         /\ (forall v, In v (assigned_variables t) ->
                       In v (assigned_variables example_x)
                       \/ In v (assigned_variables example_phase)).
Proof.
  eexists. eexists. split.
  - vm_compute. reflexivity.
  - apply (batch_norm_registers_two_update_ops example_x example_phase decay_0_9 "bn_1"
             empty_graph).
    vm_compute. reflexivity.
Defined.

Lemma fully_defined_map_some (s : Shape) (sh : list Z) :
  fully_defined s = Some sh -> s = map (@Some Z) sh.
Proof.
  revert sh. induction s as [|d s IH]; simpl; intros sh H.
  - inversion H. reflexivity.
  - destruct d as [z|]; [|discriminate].
    change (fold_right _ (Some []) s) with (fully_defined s) in H.
    destruct (fully_defined s) as [r|]; [|discriminate].
    inversion H. subst. simpl. rewrite (IH r); reflexivity.
Qed.

Lemma get_variable_shape (name : string) (shape : Shape) (dtype : DType)
  (init : Initializer) (tr : bool) (g : Graph) (v : tf_Variable) (g' : Graph) :
  tf_get_variable name shape dtype init tr g = Ok (v, g') ->
  fully_defined shape = Some (var_shape v).
Proof.
  unfold tf_get_variable.
  destruct (find _ _) as [v0|]; destruct (scope_reuse g); try discriminate;
    (destruct (fully_defined shape) as [s|]; [|discriminate]).
  1,2: destruct (shape_eqb s (var_shape v0)) eqn:E; simpl; [|discriminate];
       destruct (dtype_eqb dtype (var_dtype v0)); [|discriminate];
       intros H; inversion H; subst; unfold shape_eqb in E;
       destruct (list_eq_dec Z.eq_dec s (var_shape v)); [congruence|discriminate].
  all: intros H; inversion H; subst; reflexivity.
Qed.

Lemma contains_variable_spec (W : tf_Variable) (coll : list Item) :
  contains_variable W coll = true <-> In (var_name W) (collection_variable_names coll).
Proof.
  unfold contains_variable, collection_variable_names.
  rewrite existsb_exists, in_flat_map. split.
  - intros (it & I & H). exists it. split; [exact I|].
    destruct it as [v|t]; [|discriminate].
    apply has_name_true in H. left. exact H.
  - intros (it & I & H). exists it. split; [exact I|].
    destruct it as [v|t]; [|destruct H].
    destruct H as [H|[]]. apply has_name_true. exact H.
Qed.

Lemma collection_variable_names_app (a b : list Item) :
  collection_variable_names (a ++ b)
  = collection_variable_names a ++ collection_variable_names b.
Proof. unfold collection_variable_names. apply flat_map_app. Qed.

Lemma register_weight_run (W : tf_Variable) (g : Graph) (u : unit) (g' : Graph) :
  (if negb (contains_variable W (get_collection "regularizable_variables" g))
   then tf_add_to_collection "regularizable_variables" (IVar W)
   else ret tt) g = Ok (u, g') ->
  g' = register_weight W g.
Proof.
  unfold register_weight.
  destruct (contains_variable W (get_collection "regularizable_variables" g)); simpl;
    unfold ret, tf_add_to_collection; intros H; inversion H; reflexivity.
Qed.

Lemma register_weight_once (W : tf_Variable) (g : Graph) :
  regularized_once g ->
  regularized_once (register_weight W g)
  /\ In (var_name W)
        (collection_variable_names
           (get_collection "regularizable_variables" (register_weight W g))).
Proof.
  unfold regularized_once, register_weight. intros ND.
  destruct (contains_variable W (get_collection "regularizable_variables" g)) eqn:E.
  - split; [exact ND|]. apply contains_variable_spec. exact E.
  - unfold get_collection in *. simpl. rewrite coll_lookup_add_same.
    rewrite collection_variable_names_app. simpl. split.
    + apply NoDup_app; [exact ND|repeat constructor; intros []|].
      intros a Ia [<-|[]]. apply contains_variable_spec in Ia.
      unfold get_collection in E. congruence.
    + apply in_or_app. right. left. reflexivity.
Qed.

Tactic Notation "step_bind" hyp(H) "as" ident(a) ident(g) ident(E) :=
  apply bind_ok in H; destruct H as (a & g & E & H).

Tactic Notation "step_lift" hyp(H) "as" ident(a) ident(E) :=
  let g := fresh "g" in
  let Eg := fresh "Eg" in
  apply bind_ok in H; destruct H as (a & g & E & H);
  apply lift_ok in E; destruct E as [E Eg]; subst g.

Ltac inv_truediv E :=
  unfold truediv in E;
  match type of E with
  | (if ?c then _ else _) = _ => destruct c eqn:?; [discriminate|]
  end;
  inversion E; subst; clear E.

Lemma conv_inv (x : Tensor) (filter_size out_channels stride : Z) (padding : Padding)
  (name : string) (g : Graph) (t : Tensor) (g' : Graph) :
  conv x filter_size out_channels stride padding name g = Ok (t, g') ->
  exists W c gv,
    t = Conv2d x (ReadVar W) [1; stride; stride; 1] padding "output"
    /\ getitem (get_shape x) 3 = Ok (Some c)
    /\ var_name W = variable_scope g ++ [name; "W"]
    /\ var_shape W = [filter_size; filter_size; c; out_channels]
    /\ tf_get_variable "W" [Some filter_size; Some filter_size; Some c; Some out_channels]
         float32 (conv_initializer filter_size out_channels) true
         (set_scope (variable_scope g ++ [name]) g) = Ok (W, gv)
    /\ g' = set_scope (variable_scope g) (register_weight W gv).
Proof.
  unfold conv. intros H.
  apply scope_ok in H. destruct H as (gl & H & ->).
  step_lift H as q1 E1. inv_truediv E1.
  step_lift H as q2 E2. inv_truediv E2.
  step_lift H as q3 E3. inv_truediv E3.
  step_lift H as c Ec.
  step_bind H as W gv EW.
  pose proof (get_variable_shape _ _ _ _ _ _ _ _ EW) as Sh.
  simpl in Sh. destruct c as [c|]; [|discriminate]. simpl in Sh. inversion Sh as [Sh'].
  pose proof (get_variable_inv _ _ _ _ _ _ _ _ EW) as (N & _).
  step_bind H as regs gr Er. unfold tf_get_collection in Er. inversion Er; subst; clear Er.
  step_bind H as u gu Eu. apply register_weight_run in Eu. subst gu.
  apply lift_ok in H. destruct H as [H ->].
  unfold tf_nn_conv2d in H. inv_checked H.
  exists W, c, gr. simpl in N. rewrite <- app_assoc in N. simpl in N.
  repeat split; try assumption; try reflexivity. symmetry. exact Sh'.
Qed.

Lemma fc_inv (x : Tensor) (out_dim : Z) (name : string) (g : Graph) (t : Tensor)
  (g' : Graph) :
  fc x out_dim name g = Ok (t, g') ->
  exists W b c gv gb,
    t = Add (MatMul x (ReadVar W)) (ReadVar b)
    /\ getitem (get_shape x) 1 = Ok (Some c)
    /\ var_name W = variable_scope g ++ [name; "W"]
    /\ var_shape W = [c; out_dim]
    /\ var_name b = variable_scope g ++ [name; "b"]
    /\ var_shape b = [out_dim]
    /\ tf_get_variable "W" [Some c; Some out_dim] float32
         (random_normal_initializer (NpSqrt (PyDiv (PyFloat 1) (PyInt out_dim)))) true
         (set_scope (variable_scope g ++ [name]) g) = Ok (W, gv)
    /\ tf_get_variable "b" [Some out_dim] float32 (constant_initializer 0) true
         (register_weight W gv) = Ok (b, gb)
    /\ g' = set_scope (variable_scope g) gb.
Proof.
  unfold fc. intros H.
  apply scope_ok in H. destruct H as (gl & H & ->).
  step_lift H as q1 E1. inv_truediv E1.
  step_lift H as c Ec.
  step_bind H as W gv EW.
  pose proof (get_variable_shape _ _ _ _ _ _ _ _ EW) as Sh.
  simpl in Sh. destruct c as [c|]; [|discriminate]. simpl in Sh. inversion Sh as [Sh'].
  pose proof (get_variable_inv _ _ _ _ _ _ _ _ EW) as (N & Sc & _).
  step_bind H as regs gr Er. unfold tf_get_collection in Er. inversion Er; subst; clear Er.
  step_bind H as u gu Eu. apply register_weight_run in Eu. subst gu.
  step_bind H as b gb Eb.
  pose proof (get_variable_shape _ _ _ _ _ _ _ _ Eb) as Shb.
  simpl in Shb. inversion Shb as [Shb'].
  pose proof (get_variable_inv _ _ _ _ _ _ _ _ Eb) as (Nb & _).
  step_lift H as xW Em. unfold tf_matmul in Em. inv_checked Em.
  apply lift_ok in H. destruct H as [H ->].
  unfold tf_add in H. inv_checked H.
  exists W, b, c, gr, gb.
  simpl in N. rewrite <- app_assoc in N. simpl in N.
  assert (Scr : variable_scope (register_weight W gr) = variable_scope g ++ [name]).
  { unfold register_weight. destruct (contains_variable _ _); simpl; exact Sc. }
  rewrite Scr in Nb. rewrite <- app_assoc in Nb. simpl in Nb.
  repeat split; try assumption; try reflexivity; symmetry; assumption.
Qed.

Lemma get_variable_collections (name : string) (shape : Shape) (dtype : DType)
  (init : Initializer) (tr : bool) (g : Graph) (v : tf_Variable) (g' : Graph) :
  tf_get_variable name shape dtype init tr g = Ok (v, g') ->
  collections g' = collections g.
Proof. intros H. apply get_variable_inv in H. tauto. Qed.

Lemma conv_regularized_once (x : Tensor) (fs oc st : Z) (pad : Padding) (name : string)
  (g : Graph) (t : Tensor) (g' : Graph) :
  regularized_once g ->
  conv x fs oc st pad name g = Ok (t, g') ->
  regularized_once g'
  /\ In (variable_scope g ++ [name; "W"])
        (collection_variable_names (get_collection "regularizable_variables" g')).
Proof.
  intros ND H. apply conv_inv in H.
  destruct H as (W & c & gv & _ & _ & N & _ & EW & ->).
  apply get_variable_collections in EW. simpl in EW.
  assert (NDv : regularized_once gv).
  { unfold regularized_once, get_collection in *. rewrite EW. exact ND. }
  destruct (register_weight_once W gv NDv) as [A B].
  rewrite N in B. split; [exact A|exact B].
Qed.

Lemma fc_regularized_once (x : Tensor) (od : Z) (name : string)
  (g : Graph) (t : Tensor) (g' : Graph) :
  regularized_once g ->
  fc x od name g = Ok (t, g') ->
  regularized_once g'
  /\ In (variable_scope g ++ [name; "W"])
        (collection_variable_names (get_collection "regularizable_variables" g')).
Proof.
  intros ND H. apply fc_inv in H.
  destruct H as (W & b & c & gv & gb & _ & _ & N & _ & _ & _ & EW & Eb & ->).
  apply get_variable_collections in EW. simpl in EW.
  apply get_variable_collections in Eb.
  assert (NDv : regularized_once gv).
  { unfold regularized_once, get_collection in *. rewrite EW. exact ND. }
  destruct (register_weight_once W gv NDv) as [A B].
  rewrite N in B. unfold regularized_once, get_collection in *. simpl.
  rewrite Eb. split; [exact A|exact B].
Qed.

(** C8: the layer builders [conv] and [fc] keep the
    "regularizable_variables" collection free of duplicates and leave their
    weight in it, also when the variable is already there (a reusing
    scope hands the same variable to the builder again). *)
Theorem weights_regularized_once (layer : M Tensor) (g : Graph) (t : Tensor) (g' : Graph) :
  regularized_once g ->
  (exists x filter_size out_channels stride padding name,
      layer = conv x filter_size out_channels stride padding name)
  \/ (exists x out_dim name, layer = fc x out_dim name) ->
  layer g = Ok (t, g') ->
  regularized_once g'
  /\ exists name,
       In (variable_scope g ++ [name; "W"])
          (collection_variable_names (get_collection "regularizable_variables" g')).
Proof.
  intros ND [(x & fs & oc & st & pad & name & ->)|(x & od & name & ->)] H.
  - destruct (conv_regularized_once _ _ _ _ _ _ _ _ _ ND H) as [A B].
    split; [exact A|exists name; exact B].
  - destruct (fc_regularized_once _ _ _ _ _ _ ND H) as [A B].
    split; [exact A|exists name; exact B].
Qed.

Lemma weights_regularized_once_witness :
  regularized_once once_built
  /\ exists t g2,
       conv example_x 3 16 1 SAME "conv_0" once_built = Ok (t, g2)
       /\ (regularized_once g2
           /\ exists name,
                In (variable_scope once_built ++ [name; "W"])
                   (collection_variable_names
                      (get_collection "regularizable_variables" g2)))
       /\ collection_variable_names (get_collection "regularizable_variables" g2)
          = [["conv_0"; "W"]]
       /\ variables g2 = variables once_built.
Proof.
  assert (ND1 : regularized_once once_built).
  { unfold regularized_once. vm_compute. repeat constructor. intros []. }
  split; [exact ND1|].
  eexists. eexists.
  split; [vm_compute; reflexivity|].
  split; [|split; vm_compute; reflexivity].
  eapply (weights_regularized_once (conv example_x 3 16 1 SAME "conv_0") once_built).
  - exact ND1.
  - left. exists example_x, 3, 16, 1, SAME, "conv_0". reflexivity.
  - vm_compute. reflexivity.
Defined.

Lemma Ok_inj {A : Type} (a b : A) : Ok a = Ok b -> a = b.
Proof. intros H. congruence. Qed.

Lemma getitem4 {A : Type} (a b c d : A) :
  getitem [a; b; c; d] 0 = Ok a /\ getitem [a; b; c; d] 1 = Ok b
  /\ getitem [a; b; c; d] 2 = Ok c /\ getitem [a; b; c; d] 3 = Ok d.
Proof. repeat split; reflexivity. Qed.

Lemma getitem3 {A : Type} (a b c : A) :
  getitem [a; b; c] 0 = Ok a /\ getitem [a; b; c] 1 = Ok b
  /\ getitem [a; b; c] 2 = Ok c.
Proof. repeat split; reflexivity. Qed.

Ltac eval_getitem :=
  change (1 - 1) with 0 in *; change (2 - 1) with 1 in *; change (3 - 1) with 2 in *;
  repeat first
    [ rewrite (proj1 (getitem4 _ _ _ _)) in *
    | rewrite (proj1 (proj2 (getitem4 _ _ _ _))) in *
    | rewrite (proj1 (proj2 (proj2 (getitem4 _ _ _ _)))) in *
    | rewrite (proj2 (proj2 (proj2 (getitem4 _ _ _ _)))) in *
    | rewrite (proj1 (getitem3 _ _ _)) in *
    | rewrite (proj1 (proj2 (getitem3 _ _ _))) in *
    | rewrite (proj2 (proj2 (getitem3 _ _ _))) in * ].

(** C9: for every width [k >= 1] and every block [i] of 1, 2, 3, equal
    consecutive filter counts come with stride 1, and the shortcut of the
    first unit is the identity or a 1x1 convolution, never a max-pool. *)
Theorem first_unit_shortcut_never_max_pool
  (k i : Z) (x : Tensor) (g : Graph) (t : Tensor) (g' : Graph) :
  1 <= k -> 1 <= i <= 3 ->
  first_unit_shortcut [16; 16 * k; 32 * k; 64 * k] [1; 2; 2] i x g = Ok (t, g') ->
  (forall a b s,
      getitem [16; 16 * k; 32 * k; 64 * k] (i - 1) = Ok a ->
      getitem [16; 16 * k; 32 * k; 64 * k] i = Ok b ->
      getitem [1; 2; 2] (i - 1) = Ok s ->
      a = b -> s = 1)
  /\ (t = Identity x
      \/ exists W c out_channels stride,
           getitem [16; 16 * k; 32 * k; 64 * k] i = Ok out_channels
           /\ getitem [1; 2; 2] (i - 1) = Ok stride
           /\ var_shape W = [1; 1; c; out_channels]
           /\ t = Conv2d x (ReadVar W) [1; stride; stride; 1] SAME "output")
  /\ (forall y ksize strides padding, t <> MaxPool y ksize strides padding).
Proof.
  intros Hk Hi H.
  assert (Ci : i = 1 \/ i = 2 \/ i = 3) by lia.
  assert (A : forall a b s,
             getitem [16; 16 * k; 32 * k; 64 * k] (i - 1) = Ok a ->
             getitem [16; 16 * k; 32 * k; 64 * k] i = Ok b ->
             getitem [1; 2; 2] (i - 1) = Ok s ->
             a = b -> s = 1).
  { intros a b s Ha Hb Hs Hab.
    destruct Ci as [->|[->| ->]]; eval_getitem;
      apply Ok_inj in Ha; apply Ok_inj in Hb; apply Ok_inj in Hs; lia. }
  assert (B : t = Identity x
      \/ exists W c out_channels stride,
           getitem [16; 16 * k; 32 * k; 64 * k] i = Ok out_channels
           /\ getitem [1; 2; 2] (i - 1) = Ok stride
           /\ var_shape W = [1; 1; c; out_channels]
           /\ t = Conv2d x (ReadVar W) [1; stride; stride; 1] SAME "output").
  { unfold first_unit_shortcut in H.
    step_lift H as f_prev Ep. step_lift H as f_i Ei.
    destruct (f_prev =? f_i) eqn:Eq.
    - apply Z.eqb_eq in Eq.
      step_lift H as s Es.
      assert (s = 1) by (apply (A f_prev f_i s); assumption). subst s.
      simpl in H. inversion H. left. reflexivity.
    - step_lift H as oc Eoc. step_lift H as st Est.
      apply conv_inv in H. destruct H as (W & c & gv & Ht & _ & _ & Sh & _).
      right. exists W, c, oc, st. repeat split; assumption. }
  split; [exact A|]. split; [exact B|].
  intros y ks st p. destruct B as [->|(W & c & oc & s & _ & _ & _ & ->)]; discriminate.
Qed.

Lemma first_unit_shortcut_never_max_pool_witness :
  1 <= 4 /\ 1 <= 2 <= 3
  /\ exists t g',
       first_unit_shortcut [16; 16 * 4; 32 * 4; 64 * 4] [1; 2; 2] 2 example_x empty_graph
       = Ok (t, g')
       /\ (forall y ksize strides padding, t <> MaxPool y ksize strides padding)
       /\ t = Conv2d example_x
                (ReadVar (mkVariable ["shortcut"; "W"] [1; 1; 8; 128] float32
                            (conv_initializer 1 128) true))
                [1; 2; 2; 1] SAME "output".
Proof.
  split; [lia|]. split; [lia|].
  eexists. eexists. split; [vm_compute; reflexivity|]. split.
  - refine (proj2 (proj2 (first_unit_shortcut_never_max_pool 4 2 example_x empty_graph
                            _ _ ltac:(lia) ltac:(lia) ltac:(vm_compute; reflexivity)))).
  - vm_compute. reflexivity.
Defined.

(** C5: a constructed instance holds the data loader it built and three
    initialisation operations, each the [tf.group] of exactly the data
    loader's operation for the same phase. *)
Theorem init_ops_group_data_loading_ops
  (py : Interpreter) (cifar100_input_data_loading : Z -> cifar100_input.data_loading)
  (batch_size num_residual_units k : Z) (weight_decay bn_decay : float)
  (g : Graph) (self : set_up_class) (g' : Graph) :
  __init__ py cifar100_input_data_loading batch_size num_residual_units k
    weight_decay bn_decay g = Ok (self, g') ->
  data_loading self = cifar100_input_data_loading batch_size
  /\ train_init_op self = Group [cifar100_input.train_init_op (data_loading self)]
  /\ train_eval_init_op self
     = Group [cifar100_input.train_eval_init_op (data_loading self)]
  /\ test_init_op self = Group [cifar100_input.test_init_op (data_loading self)].
Proof.
  unfold __init__. intros H.
  step_bind H as r g1 E. destruct r as [l a].
  unfold ret in H. inversion H. subst. simpl. repeat split.
Qed.

Lemma init_ops_group_data_loading_ops_witness :
  exists self g',
    __init__ Python2 cifar100_loader 128 1 1 weight_decay_5e_4 decay_0_9 empty_graph
    = Ok (self, g')
    /\ data_loading self = cifar100_loader 128
    /\ train_init_op self = Group [cifar100_input.train_init_op (data_loading self)]
    /\ train_eval_init_op self
       = Group [cifar100_input.train_eval_init_op (data_loading self)]
    /\ test_init_op self = Group [cifar100_input.test_init_op (data_loading self)].
Proof.
  assert (B : ok_b (__init__ Python2 cifar100_loader 128 1 1 weight_decay_5e_4 decay_0_9
                      empty_graph) = true) by (vm_compute; reflexivity).
  destruct (__init__ Python2 cifar100_loader 128 1 1 weight_decay_5e_4 decay_0_9
              empty_graph) as [[self g']|e] eqn:E.
  - exists self, g'. split; [reflexivity|].
    exact (init_ops_group_data_loading_ops Python2 cifar100_loader 128 1 1
             weight_decay_5e_4 decay_0_9 empty_graph self g' E).
  - discriminate B.
Defined.

(** C3: on a Python 3 interpreter, which is what [setup.py] declares, no
    argument tuple constructs the class, valid or not: the constructor
    raises for every data loader, every argument and every graph, and for
    [batch_size = 128], [num_residual_units = 4], [k = 10] in an empty
    graph what it raises is the [NameError] of [xrange], which [set_up]
    reaches once the initial convolution is built. *)
Theorem construction_raises_on_python3
  (cifar100_input_data_loading : Z -> cifar100_input.data_loading)
  (batch_size num_residual_units k : Z) (weight_decay bn_decay : float) (g : Graph) :
  (exists e,
      __init__ Python3 cifar100_input_data_loading batch_size num_residual_units k
        weight_decay bn_decay g = Raise e)
  /\ __init__ Python3 cifar100_loader 128 4 10 weight_decay_5e_4 decay_0_9 empty_graph
     = Raise (NameError "xrange").
Proof.
  split; [|vm_compute; reflexivity].
  unfold __init__, set_up.
  destruct (cifar100_input.load (cifar100_input_data_loading batch_size))
    as [[X y] phase].
  unfold bind at 1. unfold bind at 1.
  destruct (conv X 3 16 1 SAME "conv_0" g) as [[x g1]|e].
  - simpl. eexists. reflexivity.
  - eexists. reflexivity.
Qed.

Lemma runs_bind {A B : Type} (m : M A) (f : A -> M B) (g g1 g2 : Graph) (a : A) (b : B) :
  runs m g a g1 -> runs (f a) g1 b g2 -> runs (bind m f) g b g2.
Proof. unfold runs, bind. intros -> H. exact H. Qed.

Lemma runs_lift {A : Type} (r : Result A) (a : A) (g : Graph) :
  r = Ok a -> runs (lift r) g a g.
Proof. unfold runs, lift. intros ->. reflexivity. Qed.

Lemma runs_ret {A : Type} (a : A) (g : Graph) : runs (ret a) g a g.
Proof. reflexivity. Qed.

Lemma runs_scope {A : Type} (name : string) (body : M A) (g g1 : Graph) (a : A) :
  runs body (set_scope (variable_scope g ++ [name]) g) a g1 ->
  runs (tf_variable_scope name body) g a (set_scope (variable_scope g) g1).
Proof. unfold runs, tf_variable_scope. intros ->. reflexivity. Qed.

Lemma runs_add_to_collection (key : string) (it : Item) (g : Graph) :
  runs (tf_add_to_collection key it) g tt
    {| variable_scope := variable_scope g; scope_reuse := scope_reuse g;
       variables := variables g; collections := coll_add key it (collections g) |}.
Proof. reflexivity. Qed.

Lemma runs_get_collection (key : string) (g : Graph) :
  runs (tf_get_collection key) g (get_collection key g) g.
Proof. reflexivity. Qed.

Lemma get_variable_fresh (name : string) (shape : Shape) (dtype : DType)
  (init : Initializer) (tr : bool) (g : Graph) (s : list Z) :
  scope_reuse g = reuse_False ->
  fully_defined shape = Some s ->
  ~ In (variable_scope g ++ [name]) (names g) ->
  runs (tf_get_variable name shape dtype init tr) g
    (mkVariable (variable_scope g ++ [name]) s dtype init tr)
    (add_variable (mkVariable (variable_scope g ++ [name]) s dtype init tr) g).
Proof.
  intros R F N. unfold runs, tf_get_variable, add_variable.
  apply find_has_name_none in N. rewrite N, F.
  destruct (scope_reuse g); [reflexivity|discriminate|discriminate].
Qed.

Lemma broadcast_dim_same (d : Dim) : broadcast_dim d d = Some d.
Proof.
  destruct d as [a|]; simpl; [|reflexivity].
  destruct (a =? 1); [reflexivity|]. rewrite Z.eqb_refl. reflexivity.
Qed.

Lemma broadcast_rev_same (s : list Dim) : broadcast_rev s s = Some s.
Proof.
  induction s as [|d s IH]; simpl; [reflexivity|].
  rewrite broadcast_dim_same, IH. reflexivity.
Qed.

Lemma broadcast_shape_same (s : Shape) : broadcast_shape s s = Some s.
Proof.
  unfold broadcast_shape. rewrite broadcast_rev_same. simpl.
  rewrite rev_involutive. reflexivity.
Qed.

Lemma broadcast_rev_nil_r (s : list Dim) : broadcast_rev s [] = Some s.
Proof. destruct s; reflexivity. Qed.

Lemma broadcast_shape_nil_r (s : Shape) : broadcast_shape s [] = Some s.
Proof.
  unfold broadcast_shape. simpl. rewrite broadcast_rev_nil_r. simpl.
  rewrite rev_involutive. reflexivity.
Qed.

Lemma broadcast_shape_nil_l (s : Shape) : broadcast_shape [] s = Some s.
Proof.
  unfold broadcast_shape. simpl. rewrite rev_involutive. reflexivity.
Qed.

(** A shape ending in [d] against the vector shape [[d]]. *)
Lemma broadcast_shape_vector (s : list (option Z)) (d : option Z) :
  broadcast_shape (s ++ [d]) [d] = Some (s ++ [d]).
Proof.
  unfold broadcast_shape. rewrite rev_app_distr. simpl.
  rewrite broadcast_dim_same, broadcast_rev_nil_r. simpl.
  rewrite rev_involutive. reflexivity.
Qed.

Lemma cond_shape_same (s : Shape) : cond_shape s s = s.
Proof.
  unfold cond_shape. induction s as [|d s IH]; simpl; [reflexivity|].
  rewrite IH. destruct d as [a|]; simpl; [rewrite Z.eqb_refl|]; reflexivity.
Qed.

Lemma batch_normalization_shape_channels (s : list (option Z)) (c : Z) :
  batch_normalization_shape (s ++ [Some c]) [Some c] [Some c] [Some c] [Some c]
  = Some (s ++ [Some c]).
Proof.
  unfold batch_normalization_shape.
  repeat (rewrite (broadcast_shape_same [Some c]); cbv beta iota).
  rewrite (broadcast_shape_vector s (Some c)). cbv beta iota.
  apply broadcast_shape_vector.
Qed.

Lemma batch_normalization_shape_nhwc (b h w : option Z) (c : Z) :
  batch_normalization_shape [b; h; w; Some c] [Some c] [Some c] [Some c] [Some c]
  = Some [b; h; w; Some c].
Proof. exact (batch_normalization_shape_channels [b; h; w] c). Qed.

Lemma assign_shape_vector (c : Z) : assign_shape [c] [Some c] = Some [Some c].
Proof. unfold assign_shape. simpl. rewrite Z.eqb_refl. reflexivity. Qed.

Lemma moments_shape (x : Tensor) (b h w : option Z) (c : Z) :
  get_shape x = [b; h; w; Some c] ->
  reduce_shape (get_shape x) [0; 1; 2] = Some [Some c].
Proof. intros ->. reflexivity. Qed.

Lemma bn_output_shape (scope : list string) (x phase : Tensor) (b h w : option Z) (c : Z) :
  get_shape x = [b; h; w; Some c] ->
  get_shape (bn_output scope c x phase) = [b; h; w; Some c].
Proof.
  intros Hx. unfold bn_output, bn_select. simpl.
  rewrite Hx. change (reduce_shape [b; h; w; Some c] [0; 1; 2]) with (Some [Some c]).
  simpl. rewrite (cond_shape_same [Some c]).
  rewrite (batch_normalization_shape_nhwc b h w c). reflexivity.
Qed.

Lemma names_add_variable (v : tf_Variable) (g : Graph) :
  names (add_variable v g) = names g ++ [var_name v].
Proof. unfold names, add_variable. simpl. apply map_app. Qed.

Lemma tf_multiply_const (d : float) (t : Tensor) :
  tf_multiply (Const d) t = Ok (Mul (Const d) t).
Proof.
  unfold tf_multiply. cbn [get_shape]. rewrite broadcast_shape_nil_l. reflexivity.
Qed.

Lemma get_shape_mul_const (d : float) (t : Tensor) :
  get_shape (Mul (Const d) t) = get_shape t.
Proof. cbn [get_shape]. rewrite broadcast_shape_nil_l. reflexivity. Qed.

Lemma tf_add_same_shape (a b : Tensor) :
  get_shape a = get_shape b -> tf_add a b = Ok (Add a b).
Proof. intros E. unfold tf_add. rewrite E, broadcast_shape_same. reflexivity. Qed.

Lemma get_shape_add_same (a b : Tensor) :
  get_shape a = get_shape b -> get_shape (Add a b) = get_shape b.
Proof. intros E. cbn [get_shape]. rewrite E, broadcast_shape_same. reflexivity. Qed.

Lemma assign_vector (v : tf_Variable) (value : Tensor) (c : Z) :
  var_shape v = [c] -> get_shape value = [Some c] ->
  assign v value = Ok (Assign v value).
Proof.
  intros Hv Hs. unfold assign. rewrite Hv, Hs, assign_shape_vector. reflexivity.
Qed.

Lemma tf_equal_scalar (x : Tensor) (s : string) :
  tf_equal x (ConstStr s) = Ok (Equal x (ConstStr s)).
Proof.
  unfold tf_equal. cbn [get_shape]. rewrite broadcast_shape_nil_r. reflexivity.
Qed.

Lemma batch_norm_runs (x phase : Tensor) (decay : float) (name : string) (g : Graph)
  (b h w : option Z) (c : Z) :
  scope_reuse g = reuse_False ->
  get_shape x = [b; h; w; Some c] ->
  (forall nm, ~ In (variable_scope g ++ [name; nm]) (names g)) ->
  exists g',
    runs (batch_norm x phase decay name) g
      (bn_output (variable_scope g ++ [name]) c x phase) g'.
Proof.
  intros R Hx Fr. eexists. unfold batch_norm.
  apply runs_scope.
  pose proof (moments_shape x b h w c Hx) as Hm.
  assert (Fr' : forall nm, ~ In ((variable_scope g ++ [name]) ++ [nm]) (names g)).
  { intros nm. rewrite <- app_assoc. apply Fr. }
  assert (Sm : get_shape (MomentsMean x [0; 1; 2]) = [Some c]).
  { simpl. rewrite Hm. reflexivity. }
  assert (Sv : get_shape (MomentsVariance x [0; 1; 2]) = [Some c]).
  { simpl. rewrite Hm. reflexivity. }
  set (p := variable_scope g ++ [name]) in *.
  eapply runs_bind.
  { apply runs_lift. unfold tf_nn_moments. rewrite Hm. reflexivity. }
  cbv beta iota.
  eapply runs_bind.
  { apply get_variable_fresh; [exact R| rewrite Sm; reflexivity |].
    simpl. apply Fr'. }
  eapply runs_bind.
  { apply get_variable_fresh; [exact R| rewrite Sv; reflexivity |].
    rewrite names_add_variable. simpl. rewrite in_app_iff. intros [I|[I|[]]].
    - exact (Fr' _ I).
    - apply app_inv_head in I. discriminate. }
  eapply runs_bind.
  { apply get_variable_fresh; [exact R| rewrite Sm; reflexivity |].
    rewrite !names_add_variable. simpl. rewrite !in_app_iff. simpl.
    intros [[I|[I|[]]]|[I|[]]]; [exact (Fr' _ I)| |];
      apply app_inv_head in I; discriminate. }
  eapply runs_bind.
  { apply get_variable_fresh; [exact R| rewrite Sv; reflexivity |].
    rewrite !names_add_variable. simpl. rewrite !in_app_iff. simpl.
    intros [[[I|[I|[]]]|[I|[]]]|[I|[]]]; [exact (Fr' _ I)| | |];
      apply app_inv_head in I; discriminate. }
  cbn [variable_scope add_variable set_scope].
  eapply runs_bind; [apply runs_lift; apply tf_multiply_const|].
  eapply runs_bind; [apply runs_lift; apply tf_multiply_const|].
  eapply runs_bind.
  { apply runs_lift. apply tf_add_same_shape.
    rewrite !get_shape_mul_const. rewrite Sm. reflexivity. }
  eapply runs_bind.
  { apply runs_lift. apply (assign_vector _ _ c); [reflexivity|].
    rewrite get_shape_add_same; rewrite !get_shape_mul_const; rewrite ?Sm; reflexivity. }
  eapply runs_bind; [apply runs_lift; apply tf_multiply_const|].
  eapply runs_bind; [apply runs_lift; apply tf_multiply_const|].
  eapply runs_bind.
  { apply runs_lift. apply tf_add_same_shape.
    rewrite !get_shape_mul_const. rewrite Sv. reflexivity. }
  eapply runs_bind.
  { apply runs_lift. apply (assign_vector _ _ c); [reflexivity|].
    rewrite get_shape_add_same; rewrite !get_shape_mul_const; rewrite ?Sv; reflexivity. }
  eapply runs_bind; [apply runs_add_to_collection|].
  eapply runs_bind; [apply runs_add_to_collection|].
  eapply runs_bind; [apply runs_lift; apply tf_equal_scalar|].
  eapply runs_bind; [apply runs_lift; reflexivity|].
  cbv beta iota. cbn [fst snd].
  apply runs_lift. unfold tf_nn_batch_normalization.
  pose proof (bn_output_shape p x phase b h w c Hx) as Hb.
  unfold bn_output, bn_select in *. simpl in Hb. simpl.
  destruct (batch_normalization_shape _ _ _ _ _) as [sh|] eqn:E.
  - reflexivity.
  - exfalso. simpl in Hb. discriminate.
Qed.

Lemma is_weight_snoc (p : list string) (nm : string) (s : list Z) (d : DType)
  (i : Initializer) (tr : bool) :
  is_weight (mkVariable (p ++ [nm]) s d i tr) = String.eqb nm "W".
Proof. unfold is_weight. simpl. rewrite last_last. reflexivity. Qed.

Lemma batch_norm_ok (x phase : Tensor) (decay : float) (name : string) (g : Graph)
  (b h w : option Z) (c : Z) :
  scope_reuse g = reuse_False ->
  get_shape x = [b; h; w; Some c] ->
  (forall nm, ~ In (variable_scope g ++ [name; nm]) (names g)) ->
  exists g',
    runs (batch_norm x phase decay name) g
      (bn_output (variable_scope g ++ [name]) c x phase) g'
    /\ grows g g' (bn_variables (variable_scope g ++ [name]) c)
         (bn_updates (variable_scope g ++ [name]) c x decay).
Proof.
  intros R Hx Fr.
  destruct (batch_norm_runs x phase decay name g b h w c R Hx Fr) as (g' & Hr).
  exists g'. split; [exact Hr|].
  pose proof (batch_norm_inv _ _ _ _ _ _ _ Hr) as
    (mean_avg & variance_avg & beta & gamma & _ & _ & _ & _ & _ & Sc & Re & Co & V & _).
  destruct (V R) as (s & Hs & sh & Hsh & E1 & E2 & E3 & E4 & W).
  rewrite (moments_shape x b h w c Hx) in Hs. inversion Hs. subst s.
  simpl in Hsh. inversion Hsh. subst sh.
  assert (A : forall nm : string,
             variable_scope g ++ [name; nm] = (variable_scope g ++ [name]) ++ [nm]).
  { intros nm. rewrite <- app_assoc. reflexivity. }
  rewrite !A in *. subst mean_avg variance_avg beta gamma.
  constructor.
  - exact Sc.
  - exact Re.
  - exact W.
  - unfold bn_variables. simpl. rewrite !is_weight_snoc. simpl. rewrite app_nil_r.
    unfold get_collection. rewrite Co.
    rewrite !coll_lookup_add_other by discriminate. reflexivity.
  - unfold get_collection. rewrite Co. rewrite !coll_lookup_add_same.
    rewrite <- app_assoc. reflexivity.
  - unfold get_collection. rewrite Co.
    rewrite !coll_lookup_add_other by discriminate. reflexivity.
Qed.

Lemma reg_inv_names (g : Graph) (n : list string) :
  reg_inv g ->
  In n (collection_variable_names (get_collection "regularizable_variables" g)) ->
  In n (names g).
Proof.
  unfold reg_inv, names. intros ->. unfold collection_variable_names.
  rewrite in_flat_map. intros (it & I & H).
  apply in_map_iff in I. destruct I as (v & <- & Iv).
  destruct H as [<-|[]]. apply filter_In in Iv. apply in_map. tauto.
Qed.

Lemma grows_reg_inv (g g' : Graph) (vs : list tf_Variable) (ups : list Tensor) :
  grows g g' vs ups -> reg_inv g -> reg_inv g'.
Proof.
  intros [_ _ V Rg _ _] I. unfold reg_inv in *.
  rewrite Rg, V, I, filter_app, map_app. reflexivity.
Qed.

Lemma grows_trans (g g1 g2 : Graph) (vs1 vs2 : list tf_Variable) (u1 u2 : list Tensor) :
  grows g g1 vs1 u1 -> grows g1 g2 vs2 u2 -> grows g g2 (vs1 ++ vs2) (u1 ++ u2).
Proof.
  intros [S1 R1 V1 G1 U1 L1] [S2 R2 V2 G2 U2 L2]. constructor.
  - congruence.
  - congruence.
  - rewrite V2, V1, app_assoc. reflexivity.
  - rewrite G2, G1, filter_app, map_app, app_assoc. reflexivity.
  - rewrite U2, U1, map_app, app_assoc. reflexivity.
  - congruence.
Qed.

Lemma grows_refl (g : Graph) : grows g g [] [].
Proof. constructor; simpl; rewrite ?app_nil_r; reflexivity. Qed.

(** Entering and leaving a variable scope does not count. *)
Lemma grows_scope (g g1 : Graph) (scope : list string) (vs : list tf_Variable)
  (ups : list Tensor) :
  grows (set_scope scope g) g1 vs ups -> grows g (set_scope (variable_scope g) g1) vs ups.
Proof.
  intros [S R V G U L]. constructor; simpl; try assumption. reflexivity.
Qed.

Lemma get_shape_conv2d (x f : Tensor) (st : list Z) (p : Padding) (n : string) :
  get_shape (Conv2d x f st p n)
  = shape_or_scalar (conv2d_shape (get_shape x) (get_shape f) st p).
Proof. reflexivity. Qed.

Lemma conv_output_shape (scope : list string) (x : Tensor) (b h w : option Z)
  (fs c oc st : Z) :
  get_shape x = [b; h; w; Some c] -> 0 < st ->
  conv2d_shape (get_shape x)
    (get_shape (ReadVar (conv_kernel scope fs c oc))) [1; st; st; 1] SAME
  = Some [b; same_dim h st; same_dim w st; Some oc].
Proof.
  intros Hx Hst. rewrite Hx. simpl. rewrite Z.eqb_refl.
  apply Z.ltb_lt in Hst. rewrite Hst. reflexivity.
Qed.

Lemma conv_ok (x : Tensor) (fs oc st : Z) (name : string) (g : Graph)
  (b h w : option Z) (c : Z) :
  scope_reuse g = reuse_False -> reg_inv g ->
  get_shape x = [b; h; w; Some c] ->
  fs <> 0 -> oc <> 0 -> 0 < st ->
  ~ In (variable_scope g ++ [name; "W"]) (names g) ->
  exists g',
    runs (conv x fs oc st SAME name) g
      (conv_output (variable_scope g ++ [name]) x fs c oc st) g'
    /\ get_shape (conv_output (variable_scope g ++ [name]) x fs c oc st)
       = [b; same_dim h st; same_dim w st; Some oc]
    /\ grows g g' [conv_kernel (variable_scope g ++ [name]) fs c oc] [].
Proof.
  intros R I Hx Hfs Hoc Hst Fr.
  pose proof (conv_output_shape (variable_scope g ++ [name]) x b h w fs c oc st Hx Hst)
    as Hsh.
  assert (Fr' : ~ In ((variable_scope g ++ [name]) ++ ["W"]) (names g)).
  { rewrite <- app_assoc. exact Fr. }
  set (p := variable_scope g ++ [name]) in *.
  set (W := conv_kernel p fs c oc).
  assert (NC : contains_variable W (get_collection "regularizable_variables" g) = false).
  { destruct (contains_variable W _) eqn:E; [|reflexivity].
    apply contains_variable_spec in E. apply (reg_inv_names g _ I) in E.
    contradiction. }
  eexists. split; [|split].
  - unfold conv. apply runs_scope. fold p.
    apply Z.eqb_neq in Hfs. apply Z.eqb_neq in Hoc.
    eapply runs_bind; [apply runs_lift; unfold truediv; rewrite Hfs; reflexivity|].
    eapply runs_bind; [apply runs_lift; unfold truediv; rewrite Hfs; reflexivity|].
    eapply runs_bind; [apply runs_lift; unfold truediv; rewrite Hoc; reflexivity|].
    eapply runs_bind; [apply runs_lift; rewrite Hx; reflexivity|].
    eapply runs_bind.
    { apply get_variable_fresh; [exact R|reflexivity|exact Fr']. }
    eapply runs_bind; [apply runs_get_collection|].
    cbn [variable_scope set_scope].
    change (get_collection "regularizable_variables" (add_variable _ (set_scope p g)))
      with (get_collection "regularizable_variables" g).
    change (mkVariable (p ++ ["W"]) [fs; fs; c; oc] float32 _ true) with W.
    rewrite NC. cbn [negb].
    eapply runs_bind; [apply runs_add_to_collection|].
    apply runs_lift. unfold tf_nn_conv2d. unfold W. rewrite Hsh.
    reflexivity.
  - unfold conv_output. rewrite get_shape_conv2d, Hsh. reflexivity.
  - assert (Hw : is_weight W = true).
    { unfold W, conv_kernel. rewrite is_weight_snoc. reflexivity. }
    constructor; try reflexivity.
    + cbn [filter]. rewrite Hw. cbn [map].
      unfold get_collection. cbn [collections set_scope add_variable].
      apply coll_lookup_add_same.
    + cbn [map]. rewrite app_nil_r. unfold get_collection.
      cbn [collections set_scope add_variable].
      apply coll_lookup_add_other. discriminate.
    + unfold get_collection. cbn [collections set_scope add_variable].
      apply coll_lookup_add_other. discriminate.
Qed.

Lemma to_int_not_nil (z : Z) :
  Z.to_int z <> Decimal.Pos Decimal.Nil /\ Z.to_int z <> Decimal.Neg Decimal.Nil.
Proof.
  destruct z as [|p|p]; simpl; split; try discriminate;
    intros H; inversion H as [E]; exact (DecimalPos.Unsigned.to_uint_nonnil p E).
Qed.

Lemma format_d_inj (a b : Z) : format_d a = format_d b -> a = b.
Proof.
  unfold format_d. intros H.
  apply DecimalZ.to_int_inj.
  destruct (to_int_not_nil a) as [A1 A2]. destruct (to_int_not_nil b) as [B1 B2].
  pose proof (NilZero.isi _ A1 A2) as Ea. pose proof (NilZero.isi _ B1 B2) as Eb.
  rewrite H in Ea. rewrite Ea in Eb. inversion Eb. reflexivity.
Qed.

Lemma string_app_inv_head (p a b : string) : (p ++ a = p ++ b)%string -> a = b.
Proof.
  induction p as [|ch p IH]; simpl; intros H; [exact H|].
  inversion H. apply IH. assumption.
Qed.

Lemma unit_name_inj (a b i j : Z) :
  1 <= a <= 3 -> 1 <= i <= 3 ->
  unit_name a b = unit_name i j -> a = i /\ b = j.
Proof.
  intros Ha Hi.
  assert (Ca : a = 1 \/ a = 2 \/ a = 3) by lia.
  assert (Ci : i = 1 \/ i = 2 \/ i = 3) by lia.
  unfold unit_name.
  destruct Ca as [->|[->| ->]]; destruct Ci as [->|[->| ->]];
    change (format_d 1) with "1"; change (format_d 2) with "2";
    change (format_d 3) with "3"; cbn [String.append]; intros H;
    try discriminate H;
    (split; [reflexivity|]); apply format_d_inj;
    inversion H; reflexivity.
Qed.

Lemma matmul_shape_ok (b : option Z) (c od : Z) :
  matmul_shape [b; Some c] [Some c; Some od] = Some [b; Some od].
Proof. unfold matmul_shape. simpl. rewrite Z.eqb_refl. reflexivity. Qed.

Lemma get_shape_add (a b : Tensor) :
  get_shape (Add a b) = shape_or_scalar (broadcast_shape (get_shape a) (get_shape b)).
Proof. reflexivity. Qed.

Lemma get_shape_matmul (a b : Tensor) :
  get_shape (MatMul a b) = shape_or_scalar (matmul_shape (get_shape a) (get_shape b)).
Proof. reflexivity. Qed.

Lemma broadcast_shape_matrix_vector (b d : option Z) :
  broadcast_shape [b; d] [d] = Some [b; d].
Proof. exact (broadcast_shape_vector [b] d). Qed.

Lemma fc_output_shape (scope : list string) (x : Tensor) (b : option Z) (c od : Z) :
  get_shape x = [b; Some c] ->
  get_shape (MatMul x (ReadVar (fc_weight scope c od))) = [b; Some od]
  /\ get_shape (fc_output scope x c od) = [b; Some od].
Proof.
  intros Hx.
  assert (Hm : get_shape (MatMul x (ReadVar (fc_weight scope c od))) = [b; Some od]).
  { cbn [get_shape fc_weight var_shape map]. rewrite Hx, matmul_shape_ok. reflexivity. }
  split; [exact Hm|].
  unfold fc_output. rewrite get_shape_add, Hm.
  change (get_shape (ReadVar (fc_bias scope od))) with [Some od].
  rewrite broadcast_shape_matrix_vector. reflexivity.
Qed.

Lemma fc_ok (x : Tensor) (od : Z) (name : string) (g : Graph) (b : option Z) (c : Z) :
  scope_reuse g = reuse_False -> reg_inv g ->
  get_shape x = [b; Some c] ->
  od <> 0 ->
  ~ In (variable_scope g ++ [name; "W"]) (names g) ->
  ~ In (variable_scope g ++ [name; "b"]) (names g) ->
  exists g',
    runs (fc x od name) g (fc_output (variable_scope g ++ [name]) x c od) g'
    /\ get_shape (fc_output (variable_scope g ++ [name]) x c od) = [b; Some od]
    /\ grows g g' [fc_weight (variable_scope g ++ [name]) c od;
                   fc_bias (variable_scope g ++ [name]) od] [].
Proof.
  intros R I Hx Hod FrW Frb.
  destruct (fc_output_shape (variable_scope g ++ [name]) x b c od Hx) as [Hm Hsh].
  assert (FrW' : ~ In ((variable_scope g ++ [name]) ++ ["W"]) (names g)).
  { rewrite <- app_assoc. exact FrW. }
  assert (Frb' : ~ In ((variable_scope g ++ [name]) ++ ["b"]) (names g)).
  { rewrite <- app_assoc. exact Frb. }
  set (p := variable_scope g ++ [name]) in *.
  set (W := fc_weight p c od).
  assert (NC : contains_variable W (get_collection "regularizable_variables" g) = false).
  { destruct (contains_variable W _) eqn:E; [|reflexivity].
    apply contains_variable_spec in E. apply (reg_inv_names g _ I) in E.
    contradiction. }
  eexists. split; [|split].
  - unfold fc. apply runs_scope. fold p.
    apply Z.eqb_neq in Hod.
    eapply runs_bind; [apply runs_lift; unfold truediv; rewrite Hod; reflexivity|].
    eapply runs_bind; [apply runs_lift; rewrite Hx; reflexivity|].
    eapply runs_bind.
    { apply get_variable_fresh; [exact R|reflexivity|exact FrW']. }
    eapply runs_bind; [apply runs_get_collection|].
    cbn [variable_scope set_scope].
    change (get_collection "regularizable_variables" (add_variable _ (set_scope p g)))
      with (get_collection "regularizable_variables" g).
    change (mkVariable (p ++ ["W"]) [c; od] float32 _ true) with W.
    rewrite NC. cbn [negb].
    eapply runs_bind; [apply runs_add_to_collection|].
    eapply runs_bind.
    { apply get_variable_fresh; [exact R|reflexivity|].
      cbn [variable_scope set_scope add_variable].
      unfold names. cbn [variables add_variable set_scope].
      rewrite map_app, in_app_iff. intros [H|[H|[]]].
      - exact (Frb' H).
      - unfold W in H. simpl in H. apply app_inv_head in H. discriminate. }
    cbn [variable_scope set_scope add_variable].
    eapply runs_bind.
    { apply runs_lift. unfold tf_matmul.
      destruct (matmul_shape (get_shape x) (get_shape (ReadVar W))) eqn:E; [reflexivity|].
      exfalso. unfold W in E. rewrite get_shape_matmul in Hm. rewrite E in Hm.
      discriminate. }
    apply runs_lift. unfold tf_add.
    change (mkVariable (p ++ ["b"]) [od] float32 (constant_initializer 0) true)
      with (fc_bias p od).
    destruct (broadcast_shape (get_shape (MatMul x (ReadVar W)))
                (get_shape (ReadVar (fc_bias p od)))) eqn:E; [reflexivity|].
    exfalso. unfold fc_output in Hsh. rewrite get_shape_add in Hsh. unfold W in E.
    rewrite E in Hsh. discriminate.
  - exact Hsh.
  - assert (Hw : is_weight (fc_weight p c od) = true).
    { unfold fc_weight. rewrite is_weight_snoc. reflexivity. }
    assert (Hb : is_weight (fc_bias p od) = false).
    { unfold fc_bias. rewrite is_weight_snoc. reflexivity. }
    constructor; try reflexivity.
    + cbn [variables set_scope add_variable]. rewrite <- app_assoc. reflexivity.
    + cbn [filter]. unfold W. rewrite Hw, Hb. cbn [map].
      unfold get_collection. cbn [collections set_scope add_variable].
      apply coll_lookup_add_same.
    + cbn [map]. rewrite app_nil_r. unfold get_collection.
      cbn [collections set_scope add_variable].
      apply coll_lookup_add_other. discriminate.
    + unfold get_collection. cbn [collections set_scope add_variable].
      apply coll_lookup_add_other. discriminate.
Qed.

Lemma segment_trans (P : string -> Prop) (g g1 g2 : Graph) (a b c a' b' c' : nat) :
  segment P g g1 a b c -> segment P g1 g2 a' b' c' ->
  segment P g g2 (a + a') (b + b') (c + c').
Proof.
  intros (vs & ups & G & F & L1 & L2 & L3) (vs' & ups' & G' & F' & L1' & L2' & L3').
  exists (vs ++ vs'), (ups ++ ups'). split; [exact (grows_trans _ _ _ _ _ _ _ G G')|].
  split; [apply Forall_app; split; assumption|].
  rewrite filter_app, !length_app. repeat split; congruence.
Qed.

Lemma segment_weaken (P Q : string -> Prop) (g g' : Graph) (a b c : nat) :
  (forall h, P h -> Q h) -> segment P g g' a b c -> segment Q g g' a b c.
Proof.
  intros PQ (vs & ups & G & F & L). exists vs, ups. split; [exact G|].
  split; [|exact L]. eapply Forall_impl; [|exact F]. intros v. apply PQ.
Qed.

Lemma segment_refl (P : string -> Prop) (g : Graph) : segment P g g 0 0 0.
Proof.
  exists [], []. split; [apply grows_refl|]. repeat split. constructor.
Qed.

Lemma segment_ready (P : string -> Prop) (g g' : Graph) (a b c : nat) :
  segment P g g' a b c -> ready g -> ready g'.
Proof.
  intros (vs & ups & G & _) (S & R & I). split; [|split].
  - rewrite (gr_scope _ _ _ _ G). exact S.
  - rewrite (gr_reuse _ _ _ _ G). exact R.
  - exact (grows_reg_inv _ _ _ _ G I).
Qed.

Lemma segment_heads (P Q : string -> Prop) (g g' : Graph) (a b c : nat) :
  segment P g g' a b c -> (forall h, P h -> Q h) ->
  Forall Q (heads g) -> Forall Q (heads g').
Proof.
  intros (vs & ups & G & F & _) PQ H. unfold heads in *.
  rewrite (gr_vars _ _ _ _ G), map_app. apply Forall_app. split; [exact H|].
  apply Forall_map. eapply Forall_impl; [|exact F]. intros v. apply PQ.
Qed.

Lemma fresh_head_not_in (u : string) (rest : list string) (g : Graph) :
  ~ In u (heads g) -> ~ In (u :: rest) (names g).
Proof.
  unfold heads, names. intros F H. apply F.
  apply in_map_iff in H. destruct H as (v & E & I).
  apply in_map_iff. exists v. split; [rewrite E; reflexivity|exact I].
Qed.

Lemma same_dim_1 (d : option Z) : same_dim d 1 = d.
Proof.
  destruct d as [n|]; simpl; [|reflexivity].
  f_equal. rewrite Z.div_1_r. lia.
Qed.

(** The layer lemmas with the current scope named. *)
Lemma batch_norm_at (sc : list string) (x phase : Tensor) (decay : float) (name : string)
  (g : Graph) (b h w : option Z) (c : Z) :
  variable_scope g = sc ->
  scope_reuse g = reuse_False ->
  get_shape x = [b; h; w; Some c] ->
  (forall nm, ~ In (sc ++ [name; nm]) (names g)) ->
  exists g',
    runs (batch_norm x phase decay name) g (bn_output (sc ++ [name]) c x phase) g'
    /\ grows g g' (bn_variables (sc ++ [name]) c) (bn_updates (sc ++ [name]) c x decay).
Proof. intros <-. apply batch_norm_ok. Qed.

Lemma conv_at (sc : list string) (x : Tensor) (fs oc st : Z) (name : string) (g : Graph)
  (b h w : option Z) (c : Z) :
  variable_scope g = sc ->
  scope_reuse g = reuse_False -> reg_inv g ->
  get_shape x = [b; h; w; Some c] ->
  fs <> 0 -> oc <> 0 -> 0 < st ->
  ~ In (sc ++ [name; "W"]) (names g) ->
  exists g',
    runs (conv x fs oc st SAME name) g (conv_output (sc ++ [name]) x fs c oc st) g'
    /\ get_shape (conv_output (sc ++ [name]) x fs c oc st)
       = [b; same_dim h st; same_dim w st; Some oc]
    /\ grows g g' [conv_kernel (sc ++ [name]) fs c oc] [].
Proof. intros <-. apply conv_ok. Qed.

Lemma bn_relu_output (sc : list string) (c : Z) (x phase : Tensor) (name : string) :
  bn_relu x (Relu (bn_output sc c x phase) name) name.
Proof. unfold bn_relu, bn_output. repeat eexists. Qed.

Lemma conv_layer_output (sc : list string) (x : Tensor) (fs c oc st : Z) :
  conv_layer fs oc st x (conv_output sc x fs c oc st).
Proof. unfold conv_layer, conv_output. exists (conv_kernel sc fs c oc), c. split; reflexivity. Qed.

Lemma fresh_in_unit (u : string) (rest : list string) (g gk : Graph)
  (vs : list tf_Variable) (ups : list Tensor) :
  ~ In u (heads g) ->
  grows (set_scope [u] g) gk vs ups ->
  ~ In (u :: rest) (map var_name vs) ->
  ~ In (u :: rest) (names gk).
Proof.
  intros F G N. unfold names. rewrite (gr_vars _ _ _ _ G).
  cbn [variables set_scope]. rewrite map_app, in_app_iff. intros [H|H].
  - exact (fresh_head_not_in u rest g F H).
  - exact (N H).
Qed.

Ltac names_differ :=
  cbn [map app bn_variables conv_kernel var_name];
  let H := fresh "H" in
  intros H; cbn [In] in H;
  repeat match goal with
         | H : False |- _ => destruct H
         | H : _ \/ _ |- _ => destruct H
         | H : _ :: _ = _ :: _ |- _ => discriminate H
         end.

Lemma reg_inv_set_scope (sc : list string) (g : Graph) :
  reg_inv g -> reg_inv (set_scope sc g).
Proof. intros H. exact H. Qed.

Lemma further_residual_unit_ok (filters : list Z) (phase : Tensor) (decay : float)
  (i j : Z) (x : Tensor) (g : Graph) (b h w : option Z) (f : Z) :
  ready g ->
  getitem filters i = Ok f -> f <> 0 ->
  get_shape x = [b; h; w; Some f] ->
  ~ In (unit_name i j) (heads g) ->
  exists out g',
    runs (further_residual_unit filters phase decay i j x) g out g'
    /\ get_shape out = [b; h; w; Some f]
    /\ further_unit f x out
    /\ segment (eq (unit_name i j)) g g' 10 2 4.
Proof.
  intros (Sc & Re & In0) Hf Hf0 Hx Fr.
  set (u := unit_name i j) in *.
  set (gs := set_scope [u] g).
  assert (Hgs : variable_scope gs = [u]) by reflexivity.
  (* bn_1 *)
  destruct (batch_norm_at [u] x phase decay "bn_1" gs b h w f Hgs Re Hx) as (g1 & R1 & G1).
  { intros nm. apply (fresh_head_not_in u _ g Fr). }
  pose proof (bn_output_shape ([u] ++ ["bn_1"]) x phase b h w f Hx) as S1.
  set (a1 := Relu (bn_output ([u] ++ ["bn_1"]) f x phase) "relu_1") in *.
  (* conv_1 *)
  destruct (conv_at [u] a1 3 f 1 "conv_1" g1 b h w f) as (g2 & R2 & S2 & G2).
  { rewrite (gr_scope _ _ _ _ G1). reflexivity. }
  { rewrite (gr_reuse _ _ _ _ G1). exact Re. }
  { exact (grows_reg_inv _ _ _ _ G1 In0). }
  { exact S1. }
  { discriminate. }
  { exact Hf0. }
  { lia. }
  { apply (fresh_in_unit u _ g g1 _ _ Fr G1). names_differ. }
  rewrite !same_dim_1 in S2.
  pose proof (grows_trans _ _ _ _ _ _ _ G1 G2) as G12.
  set (c1 := conv_output ([u] ++ ["conv_1"]) a1 3 f f 1) in *.
  (* bn_2 *)
  destruct (batch_norm_at [u] c1 phase decay "bn_2" g2 b h w f) as (g3 & R3 & G3).
  { rewrite (gr_scope _ _ _ _ G12). reflexivity. }
  { rewrite (gr_reuse _ _ _ _ G12). exact Re. }
  { exact S2. }
  { intros nm. apply (fresh_in_unit u _ g g2 _ _ Fr G12). names_differ. }
  pose proof (bn_output_shape ([u] ++ ["bn_2"]) c1 phase b h w f S2) as S3.
  pose proof (grows_trans _ _ _ _ _ _ _ G12 G3) as G123.
  set (a2 := Relu (bn_output ([u] ++ ["bn_2"]) f c1 phase) "relu_2") in *.
  (* conv_2 *)
  destruct (conv_at [u] a2 3 f 1 "conv_2" g3 b h w f) as (g4 & R4 & S4 & G4).
  { rewrite (gr_scope _ _ _ _ G123). reflexivity. }
  { rewrite (gr_reuse _ _ _ _ G123). exact Re. }
  { exact (grows_reg_inv _ _ _ _ G123 In0). }
  { exact S3. }
  { discriminate. }
  { exact Hf0. }
  { lia. }
  { apply (fresh_in_unit u _ g g3 _ _ Fr G123). names_differ. }
  rewrite !same_dim_1 in S4.
  pose proof (grows_trans _ _ _ _ _ _ _ G123 G4) as G1234.
  set (c2 := conv_output ([u] ++ ["conv_2"]) a2 3 f f 1) in *.
  exists (Add c2 x), (set_scope (variable_scope g) g4).
  split; [|split; [|split]].
  - unfold further_residual_unit. fold (unit_name i j). fold u.
    apply runs_scope. rewrite Sc. cbn [app]. fold gs.
    eapply runs_bind; [exact R1|].
    eapply runs_bind; [apply runs_lift; reflexivity|]. fold a1.
    eapply runs_bind; [apply runs_lift; exact Hf|].
    eapply runs_bind; [exact R2|]. fold c1.
    eapply runs_bind; [exact R3|].
    eapply runs_bind; [apply runs_lift; reflexivity|]. fold a2.
    eapply runs_bind; [apply runs_lift; exact Hf|].
    eapply runs_bind; [exact R4|]. fold c2.
    apply runs_lift. apply tf_add_same_shape. rewrite S4, Hx. reflexivity.
  - rewrite get_shape_add_same; [exact Hx|]. rewrite S4, Hx. reflexivity.
  - exists a1, c1, a2, c2. split; [apply bn_relu_output|].
    split; [apply conv_layer_output|]. split; [apply bn_relu_output|].
    split; [apply conv_layer_output|reflexivity].
  - eexists. eexists. split; [exact (grows_scope _ _ _ _ _ G1234)|].
    split; [|split; [reflexivity|split; [|reflexivity]]].
    + cbn [app bn_variables conv_kernel]. repeat constructor.
    + cbn [app bn_variables conv_kernel filter is_weight var_name last].
      reflexivity.
Qed.

Lemma first_unit_shortcut_ok (u : string) (filters strides : list Z) (i : Z) (a1 : Tensor)
  (g1 : Graph) (b h w : option Z) (c fp f s : Z) :
  variable_scope g1 = [u] -> scope_reuse g1 = reuse_False -> reg_inv g1 ->
  get_shape a1 = [b; h; w; Some c] ->
  getitem filters (i - 1) = Ok fp -> getitem filters i = Ok f ->
  getitem strides (i - 1) = Ok s ->
  f <> 0 -> 0 < s -> (fp = f -> s = 1 /\ c = f) ->
  ~ In [u; "shortcut"; "W"] (names g1) ->
  exists sc g2,
    runs (first_unit_shortcut filters strides i a1) g1 sc g2
    /\ grows g1 g2 (if fp =? f then [] else [conv_kernel [u; "shortcut"] 1 c f]) []
    /\ get_shape sc = [b; same_dim h s; same_dim w s; Some f]
    /\ (sc = Identity a1 \/ conv_layer 1 f s a1 sc).
Proof.
  intros Sc Re In0 Ha Hfp Hf Hs Hf0 Hs0 Heq Fr.
  unfold first_unit_shortcut.
  destruct (fp =? f) eqn:E.
  - apply Z.eqb_eq in E. destruct (Heq E) as [-> ->].
    exists (Identity a1), g1. split; [|split; [apply grows_refl|split]].
    + eapply runs_bind; [apply runs_lift; exact Hfp|].
      eapply runs_bind; [apply runs_lift; exact Hf|].
      apply Z.eqb_eq in E. rewrite E.
      eapply runs_bind; [apply runs_lift; exact Hs|].
      cbn [Z.eqb Pos.eqb]. apply runs_lift. reflexivity.
    + cbn [get_shape]. rewrite !same_dim_1. exact Ha.
    + left. reflexivity.
  - destruct (conv_at [u] a1 1 f s "shortcut" g1 b h w c Sc Re In0 Ha)
      as (g2 & R2 & S2 & G2); try assumption; [discriminate|].
    exists (conv_output ([u] ++ ["shortcut"]) a1 1 c f s), g2.
    split; [|split; [exact G2|split; [exact S2|]]].
    + eapply runs_bind; [apply runs_lift; exact Hfp|].
      eapply runs_bind; [apply runs_lift; exact Hf|].
      rewrite E.
      eapply runs_bind; [apply runs_lift; exact Hf|].
      eapply runs_bind; [apply runs_lift; exact Hs|].
      exact R2.
    + right. apply conv_layer_output.
Qed.

Lemma first_residual_unit_ok (filters strides : list Z) (phase : Tensor) (decay : float)
  (i : Z) (x : Tensor) (g : Graph) (b h w : option Z) (c fp f s : Z) :
  ready g ->
  getitem filters (i - 1) = Ok fp -> getitem filters i = Ok f ->
  getitem strides (i - 1) = Ok s ->
  f <> 0 -> 0 < s -> (fp = f -> s = 1 /\ c = f) ->
  get_shape x = [b; h; w; Some c] ->
  ~ In (unit_name i 0) (heads g) ->
  exists out g',
    runs (first_residual_unit filters strides phase decay i x) g out g'
    /\ get_shape out = [b; same_dim h s; same_dim w s; Some f]
    /\ first_unit f s x out
    /\ segment (eq (unit_name i 0)) g g'
         (if fp =? f then 10 else 11) (if fp =? f then 2 else 3) 4.
Proof.
  intros (Sc & Re & In0) Hfp Hf Hs Hf0 Hs0 Heq Hx Fr.
  set (u := unit_name i 0) in *.
  set (gs := set_scope [u] g).
  assert (Hgs : variable_scope gs = [u]) by reflexivity.
  (* bn_1 *)
  destruct (batch_norm_at [u] x phase decay "bn_1" gs b h w c Hgs Re Hx) as (g1 & R1 & G1).
  { intros nm. apply (fresh_head_not_in u _ g Fr). }
  pose proof (bn_output_shape ([u] ++ ["bn_1"]) x phase b h w c Hx) as S1.
  set (a1 := Relu (bn_output ([u] ++ ["bn_1"]) c x phase) "relu_1") in *.
  (* shortcut *)
  destruct (first_unit_shortcut_ok u filters strides i a1 g1 b h w c fp f s)
    as (sc & g2 & R2 & G2 & S2 & T2); try assumption.
  { rewrite (gr_scope _ _ _ _ G1). reflexivity. }
  { rewrite (gr_reuse _ _ _ _ G1). exact Re. }
  { exact (grows_reg_inv _ _ _ _ G1 In0). }
  { apply (fresh_in_unit u _ g g1 _ _ Fr G1). names_differ. }
  pose proof (grows_trans _ _ _ _ _ _ _ G1 G2) as G12.
  (* conv_1 *)
  destruct (conv_at [u] a1 3 f s "conv_1" g2 b h w c) as (g3 & R3 & S3 & G3);
    try assumption.
  { rewrite (gr_scope _ _ _ _ G12). reflexivity. }
  { rewrite (gr_reuse _ _ _ _ G12). exact Re. }
  { exact (grows_reg_inv _ _ _ _ G12 In0). }
  { discriminate. }
  { apply (fresh_in_unit u _ g g2 _ _ Fr G12).
    destruct (fp =? f); names_differ. }
  pose proof (grows_trans _ _ _ _ _ _ _ G12 G3) as G123.
  set (c1 := conv_output ([u] ++ ["conv_1"]) a1 3 c f s) in *.
  (* bn_2 *)
  destruct (batch_norm_at [u] c1 phase decay "bn_2" g3 b (same_dim h s) (same_dim w s) f)
    as (g4 & R4 & G4).
  { rewrite (gr_scope _ _ _ _ G123). reflexivity. }
  { rewrite (gr_reuse _ _ _ _ G123). exact Re. }
  { exact S3. }
  { intros nm. apply (fresh_in_unit u _ g g3 _ _ Fr G123).
    destruct (fp =? f); names_differ. }
  pose proof (bn_output_shape ([u] ++ ["bn_2"]) c1 phase _ _ _ f S3) as S4.
  pose proof (grows_trans _ _ _ _ _ _ _ G123 G4) as G1234.
  set (a2 := Relu (bn_output ([u] ++ ["bn_2"]) f c1 phase) "relu_2") in *.
  (* conv_2 *)
  destruct (conv_at [u] a2 3 f 1 "conv_2" g4 b (same_dim h s) (same_dim w s) f)
    as (g5 & R5 & S5 & G5); try assumption.
  { rewrite (gr_scope _ _ _ _ G1234). reflexivity. }
  { rewrite (gr_reuse _ _ _ _ G1234). exact Re. }
  { exact (grows_reg_inv _ _ _ _ G1234 In0). }
  { discriminate. }
  { lia. }
  { apply (fresh_in_unit u _ g g4 _ _ Fr G1234).
    destruct (fp =? f); names_differ. }
  rewrite !same_dim_1 in S5.
  pose proof (grows_trans _ _ _ _ _ _ _ G1234 G5) as G12345.
  set (c2 := conv_output ([u] ++ ["conv_2"]) a2 3 f f 1) in *.
  exists (Add c2 sc), (set_scope (variable_scope g) g5).
  split; [|split; [|split]].
  - unfold first_residual_unit.
    change ("unit_" ++ format_d i ++ "_0")%string with (unit_name i 0). fold u.
    apply runs_scope. rewrite Sc. cbn [app]. fold gs.
    eapply runs_bind; [exact R1|].
    eapply runs_bind; [apply runs_lift; reflexivity|]. fold a1.
    eapply runs_bind; [exact R2|].
    eapply runs_bind; [apply runs_lift; exact Hf|].
    eapply runs_bind; [apply runs_lift; exact Hs|].
    eapply runs_bind; [exact R3|]. fold c1.
    eapply runs_bind; [exact R4|].
    eapply runs_bind; [apply runs_lift; reflexivity|]. fold a2.
    eapply runs_bind; [apply runs_lift; exact Hf|].
    eapply runs_bind; [exact R5|]. fold c2.
    apply runs_lift. apply tf_add_same_shape. rewrite S5, S2. reflexivity.
  - rewrite get_shape_add_same; [exact S2|]. rewrite S5, S2. reflexivity.
  - exists a1, c1, a2, c2, sc. split; [apply bn_relu_output|].
    split; [apply conv_layer_output|]. split; [apply bn_relu_output|].
    split; [apply conv_layer_output|]. split; [exact T2|reflexivity].
  - eexists. eexists. split; [exact (grows_scope _ _ _ _ _ G12345)|].
    destruct (fp =? f).
    + split; [|split; [reflexivity|split; [|reflexivity]]].
      * cbn [app bn_variables conv_kernel]. repeat constructor.
      * cbn [app bn_variables conv_kernel filter is_weight var_name last].
        reflexivity.
    + split; [|split; [reflexivity|split; [|reflexivity]]].
      * cbn [app bn_variables conv_kernel]. repeat constructor.
      * cbn [app bn_variables conv_kernel filter is_weight var_name last].
        reflexivity.
Qed.

Lemma head_before_mono (i j i' j' : Z) (h : string) :
  i < i' \/ (i = i' /\ j <= j') -> head_before i j h -> head_before i' j' h.
Proof.
  intros Hle [E|(a & b & E & Ha & Hb & Hlt)]; [left; exact E|].
  right. exists a, b. repeat split; try assumption. lia.
Qed.

Lemma head_before_unit (i j : Z) : 1 <= i -> 0 <= j -> head_before i (j + 1) (unit_name i j).
Proof. intros Hi Hj. right. exists i, j. repeat split; try assumption. lia. Qed.

Lemma unit_name_not_conv_0 (a b : Z) : 1 <= a <= 3 -> unit_name a b <> "conv_0".
Proof.
  intros Ha. assert (C : a = 1 \/ a = 2 \/ a = 3) by lia.
  unfold unit_name. destruct C as [->|[->| ->]]; discriminate.
Qed.

Lemma position_fresh (i j : Z) (g : Graph) :
  1 <= i <= 3 -> Forall (head_before i j) (heads g) -> ~ In (unit_name i j) (heads g).
Proof.
  intros Hi F I. rewrite Forall_forall in F.
  destruct (F _ I) as [E|(a & b & E & Ha & Hb & Hlt)].
  - exact (unit_name_not_conv_0 i j Hi E).
  - apply unit_name_inj in E; [|exact Hi|lia]. lia.
Qed.

Lemma unit_segment_position (i j : Z) (g g' : Graph) (a b c : nat) :
  1 <= i -> 0 <= j ->
  segment (eq (unit_name i j)) g g' a b c -> at_position i j g ->
  segment (head_before i (j + 1)) g g' a b c /\ at_position i (j + 1) g'.
Proof.
  intros Hi Hj Sg [Rd F].
  assert (W : forall h, unit_name i j = h -> head_before i (j + 1) h).
  { intros h <-. apply head_before_unit; assumption. }
  split; [exact (segment_weaken _ _ _ _ _ _ _ W Sg)|].
  split; [exact (segment_ready _ _ _ _ _ _ Sg Rd)|].
  apply (segment_heads _ _ _ _ _ _ _ Sg W).
  eapply Forall_impl; [|exact F]. intros h. apply head_before_mono. lia.
Qed.

Lemma further_units_loop (filters : list Z) (phase : Tensor) (decay : float) (i f : Z) :
  getitem filters i = Ok f -> f <> 0 -> 1 <= i <= 3 ->
  forall (m a : nat) (x : Tensor) (g : Graph) (b h w : option Z),
    at_position i (1 + Z.of_nat a) g ->
    get_shape x = [b; h; w; Some f] ->
    exists out g',
      runs (for_each (map (fun t => 1 + 1 * Z.of_nat t) (seq a m))
              (fun j x => further_residual_unit filters phase decay i j x) x) g out g'
      /\ get_shape out = [b; h; w; Some f]
      /\ further_units m f x out
      /\ segment (head_before i (1 + Z.of_nat (a + m))) g g' (10 * m) (2 * m) (4 * m)
      /\ at_position i (1 + Z.of_nat (a + m)) g'.
Proof.
  intros Hf Hf0 Hi. induction m as [|m IH]; intros a x g b h w Pos Hx.
  - exists x, g. rewrite Nat.add_0_r. split; [apply runs_ret|].
    split; [exact Hx|]. split; [reflexivity|]. split; [apply segment_refl|exact Pos].
  - cbn [seq map for_each].
    replace (1 + 1 * Z.of_nat a) with (1 + Z.of_nat a) by lia.
    destruct Pos as [Rd F].
    destruct (further_residual_unit_ok filters phase decay i (1 + Z.of_nat a) x g b h w f
                Rd Hf Hf0 Hx (position_fresh _ _ _ Hi F))
      as (mid & g1 & R1 & S1 & T1 & Sg1).
    destruct (unit_segment_position i (1 + Z.of_nat a) g g1 _ _ _ (proj1 Hi) ltac:(lia)
                Sg1 (conj Rd F)) as [Sg1' Pos1].
    replace (1 + Z.of_nat a + 1) with (1 + Z.of_nat (S a)) in * by lia.
    destruct (IH (S a) mid g1 b h w Pos1 S1) as (out & g2 & R2 & S2 & T2 & Sg2 & Pos2).
    replace (S a + m)%nat with (a + S m)%nat in * by lia.
    exists out, g2. split; [|split; [exact S2|split; [|split; [|exact Pos2]]]].
    + eapply runs_bind; [exact R1|exact R2].
    + exists mid. split; assumption.
    + replace (10 * S m)%nat with (10 + 10 * m)%nat by lia.
      replace (2 * S m)%nat with (2 + 2 * m)%nat by lia.
      replace (4 * S m)%nat with (4 + 4 * m)%nat by lia.
      apply (segment_trans _ g g1 g2); [|exact Sg2].
      eapply segment_weaken; [|exact Sg1'].
      intros hh. apply head_before_mono. lia.
Qed.

Lemma range_from_1 (n : Z) :
  range 1 n 1 = Ok (map (fun t => 1 + 1 * Z.of_nat t) (seq 0 (Z.to_nat (n - 1)))).
Proof.
  unfold range. cbn [Z.eqb Z.ltb Z.compare].
  replace ((n - 1 + 1 - 1) / 1) with (n - 1) by (rewrite Z.div_1_r; lia).
  reflexivity.
Qed.

Lemma residual_block_ok (filters strides : list Z) (phase : Tensor) (decay : float)
  (n i : Z) (x : Tensor) (g : Graph) (b h w : option Z) (c fp f s : Z) :
  1 <= i <= 3 ->
  at_position i 0 g ->
  getitem filters (i - 1) = Ok fp -> getitem filters i = Ok f ->
  getitem strides (i - 1) = Ok s ->
  f <> 0 -> 0 < s -> (fp = f -> s = 1 /\ c = f) ->
  get_shape x = [b; h; w; Some c] ->
  exists out g',
    runs (residual_block Python2 filters strides phase decay n i x) g out g'
    /\ get_shape out = [b; same_dim h s; same_dim w s; Some f]
    /\ residual_block_of (Z.to_nat (n - 1)) f s x out
    /\ segment (head_before (i + 1) 0) g g'
         ((if fp =? f then 10 else 11) + 10 * Z.to_nat (n - 1))
         ((if fp =? f then 2 else 3) + 2 * Z.to_nat (n - 1))
         (4 + 4 * Z.to_nat (n - 1))
    /\ at_position (i + 1) 0 g'.
Proof.
  intros Hi [Rd F] Hfp Hf Hs Hf0 Hs0 Heq Hx.
  destruct (first_residual_unit_ok filters strides phase decay i x g b h w c fp f s
              Rd Hfp Hf Hs Hf0 Hs0 Heq Hx (position_fresh _ _ _ Hi F))
    as (mid & g1 & R1 & S1 & T1 & Sg1).
  destruct (unit_segment_position i 0 g g1 _ _ _ (proj1 Hi) ltac:(lia) Sg1 (conj Rd F))
    as [Sg1' Pos1].
  change (0 + 1) with (1 + Z.of_nat 0) in Pos1.
  destruct (further_units_loop filters phase decay i f Hf Hf0 Hi (Z.to_nat (n - 1)) 0%nat
              mid g1 _ _ _ Pos1 S1) as (out & g2 & R2 & S2 & T2 & Sg2 & Pos2).
  assert (Up : forall hh, head_before i (1 + Z.of_nat (0 + Z.to_nat (n - 1))) hh ->
                          head_before (i + 1) 0 hh).
  { intros hh. apply head_before_mono. lia. }
  exists out, g2. split; [|split; [exact S2|split; [|split]]].
  - unfold residual_block.
    eapply runs_bind; [exact R1|].
    eapply runs_bind; [apply runs_lift; apply range_from_1|].
    exact R2.
  - exists mid. split; assumption.
  - apply (segment_trans _ g g1 g2).
    + eapply segment_weaken; [|exact Sg1']. intros hh. apply head_before_mono. lia.
    + eapply segment_weaken; [|exact Sg2]. exact Up.
  - destruct Pos2 as [Rd2 F2]. split; [exact Rd2|].
    eapply Forall_impl; [|exact F2]. exact Up.
Qed.

Lemma weight_decay_loop (weight_decay : float) (items : list Item) (g : Graph) :
  exists g',
    runs (for_each items (add_weight_decay weight_decay) tt) g tt g'
    /\ variable_scope g' = variable_scope g /\ scope_reuse g' = scope_reuse g
    /\ variables g' = variables g
    /\ get_collection tf_GraphKeys_REGULARIZATION_LOSSES g'
       = get_collection tf_GraphKeys_REGULARIZATION_LOSSES g
         ++ map (fun it => ITensor (Mul (Const weight_decay) (L2Loss (convert_to_tensor it))))
              items
    /\ (forall key, key <> tf_GraphKeys_REGULARIZATION_LOSSES ->
                    get_collection key g' = get_collection key g).
Proof.
  revert g. induction items as [|it items IH]; intros g.
  - exists g. split; [apply runs_ret|]. cbn [map]. rewrite app_nil_r.
    repeat split; reflexivity.
  - set (g1 := {| variable_scope := variable_scope g; scope_reuse := scope_reuse g;
                  variables := variables g;
                  collections :=
                    coll_add tf_GraphKeys_REGULARIZATION_LOSSES
                      (ITensor (Mul (Const weight_decay) (L2Loss (convert_to_tensor it))))
                      (collections g) |}).
    destruct (IH g1) as (g' & R & Sc & Re & V & L & O).
    exists g'. split; [|split; [exact Sc|split; [exact Re|split; [exact V|split]]]].
    + cbn [for_each]. eapply runs_bind; [|exact R].
      unfold add_weight_decay.
      eapply runs_bind; [apply runs_lift; reflexivity|].
      eapply runs_bind; [apply runs_lift; apply tf_multiply_const|].
      apply runs_add_to_collection.
    + rewrite L. unfold g1, get_collection. cbn [collections map].
      rewrite coll_lookup_add_same, <- app_assoc. reflexivity.
    + intros key N. rewrite (O key N). unfold g1, get_collection. cbn [collections].
      apply coll_lookup_add_other. congruence.
Qed.

Lemma reshape_flatten (b : option Z) (c : Z) :
  0 < c -> reshape_shape [b; Some c] [-1; c] = Some [b; Some c].
Proof.
  intros Hc. unfold reshape_shape. cbn [filter].
  assert (E : (c =? -1) = false) by (apply Z.eqb_neq; lia).
  rewrite E. change (-1 =? -1) with true.
  cbn [negb List.length fold_right forallb].
  assert (P : (0 <=? c) = true) by (apply Z.leb_le; lia).
  rewrite P. cbn [andb negb].
  assert (Q : (c * 1 =? 0) = false) by (apply Z.eqb_neq; lia).
  destruct b as [nb|]; cbn [num_elements option_map map].
  - rewrite E, Q. change (-1 =? -1) with true.
    rewrite !Z.mul_1_r.
    rewrite Z.mod_mul by lia. change (0 =? 0) with true.
    rewrite Z.div_mul by lia. reflexivity.
  - rewrite E. change (-1 =? -1) with true. reflexivity.
Qed.

Lemma not_head_before_4 (h : string) :
  h = "unit_last" \/ h = "fully-connected" -> ~ head_before 4 0 h.
Proof.
  intros Hh [E|(a & b & E & Ha & Hb & Hlt)].
  - destruct Hh; subst; discriminate.
  - assert (C : a = 1 \/ a = 2 \/ a = 3) by lia.
    unfold unit_name in E.
    destruct Hh; subst; destruct C as [->|[->| ->]]; discriminate.
Qed.

Lemma head_fresh_after_blocks (h : string) (g : Graph) :
  h = "unit_last" \/ h = "fully-connected" ->
  Forall (head_before 4 0) (heads g) -> ~ In h (heads g).
Proof.
  intros Hh F I. rewrite Forall_forall in F. exact (not_head_before_4 h Hh (F _ I)).
Qed.

Lemma pooled_features_shape (feat phase : Tensor) (b h w : option Z) (c : Z) :
  get_shape feat = [b; h; w; Some c] ->
  get_shape (Relu (bn_output ["unit_last"; "batch_norm"] c feat phase) "relu")
  = [b; h; w; Some c]
  /\ get_shape (pooled_features feat phase c) = [b; Some c].
Proof.
  intros Hx.
  pose proof (bn_output_shape ["unit_last"; "batch_norm"] feat phase b h w c Hx) as S.
  split; [exact S|].
  unfold pooled_features.
  change (get_shape (ReduceMean ?t (Some [1; 2])))
    with (shape_or_scalar (reduce_shape (get_shape t) [1; 2])).
  change (get_shape (Relu ?t "relu")) with (get_shape t). rewrite S. reflexivity.
Qed.

Lemma classifier_logits_shape (feat phase : Tensor) (b h w : option Z) (c : Z) :
  get_shape feat = [b; h; w; Some c] -> 0 < c ->
  get_shape (Reshape (pooled_features feat phase c) [-1; c]) = [b; Some c]
  /\ get_shape (classifier_logits feat phase c) = [b; Some 100].
Proof.
  intros Hx Hc.
  destruct (pooled_features_shape feat phase b h w c Hx) as [_ Sp].
  assert (Sr : get_shape (Reshape (pooled_features feat phase c) [-1; c]) = [b; Some c]).
  { change (get_shape (Reshape ?t ?s)) with (shape_or_scalar (reshape_shape (get_shape t) s)).
    rewrite Sp, (reshape_flatten b c Hc). reflexivity. }
  split; [exact Sr|].
  exact (proj2 (fc_output_shape _ _ b c 100 Sr)).
Qed.

Lemma fc_at (sc : list string) (x : Tensor) (od : Z) (name : string) (g : Graph)
  (b : option Z) (c : Z) :
  variable_scope g = sc ->
  scope_reuse g = reuse_False -> reg_inv g ->
  get_shape x = [b; Some c] ->
  od <> 0 ->
  ~ In (sc ++ [name; "W"]) (names g) ->
  ~ In (sc ++ [name; "b"]) (names g) ->
  exists g',
    runs (fc x od name) g (fc_output (sc ++ [name]) x c od) g'
    /\ get_shape (fc_output (sc ++ [name]) x c od) = [b; Some od]
    /\ grows g g' [fc_weight (sc ++ [name]) c od; fc_bias (sc ++ [name]) od] [].
Proof. intros <-. apply fc_ok. Qed.

Lemma segment_of_grows (P : string -> Prop) (g g' : Graph) (vs : list tf_Variable)
  (ups : list Tensor) :
  grows g g' vs ups -> Forall (fun v => P (hd "" (var_name v))) vs ->
  segment P g g' (List.length vs) (List.length (filter is_weight vs)) (List.length ups).
Proof.
  intros G F. exists vs, ups. split; [exact G|]. split; [exact F|].
  split; [reflexivity|]. split; reflexivity.
Qed.

Lemma wrn_blocks_ok (phase : Tensor) (decay : float) (n k : Z) (x0 : Tensor) (g0 : Graph)
  (b h w : option Z) :
  1 <= k ->
  at_position 1 0 g0 ->
  get_shape x0 = [b; h; w; Some 16] ->
  exists x1 x2 feat g3,
    runs (for_each [1; 2; 3]
            (residual_block Python2 [16; 16 * k; 32 * k; 64 * k] [1; 2; 2] phase decay n)
            x0) g0 feat g3
    /\ residual_block_of (Z.to_nat (n - 1)) (16 * k) 1 x0 x1
    /\ residual_block_of (Z.to_nat (n - 1)) (32 * k) 2 x1 x2
    /\ residual_block_of (Z.to_nat (n - 1)) (64 * k) 2 x2 feat
    /\ get_shape feat
       = [b; same_dim (same_dim h 2) 2; same_dim (same_dim w 2) 2; Some (64 * k)]
    /\ segment (head_before 4 0) g0 g3
         ((if 16 =? 16 * k then 10 else 11) + 22 + 30 * Z.to_nat (n - 1))
         ((if 16 =? 16 * k then 2 else 3) + 6 + 6 * Z.to_nat (n - 1))
         (12 + 12 * Z.to_nat (n - 1))
    /\ at_position 4 0 g3.
Proof.
  intros Hk Pos0 S0.
  set (filters := [16; 16 * k; 32 * k; 64 * k]).
  set (m := Z.to_nat (n - 1)).
  destruct (residual_block_ok filters [1; 2; 2] phase decay n 1 x0 g0 b h w 16 16 (16 * k) 1)
    as (x1 & g1 & R1 & S1 & T1 & Sg1 & Pos1); try assumption; try lia.
  { exact (proj1 (getitem4 _ _ _ _)). }
  { exact (proj1 (proj2 (getitem4 _ _ _ _))). }
  { exact (proj1 (getitem3 _ _ _)). }
  rewrite !same_dim_1 in S1. change (1 + 1) with 2 in *.
  destruct (residual_block_ok filters [1; 2; 2] phase decay n 2 x1 g1 b h w
              (16 * k) (16 * k) (32 * k) 2)
    as (x2 & g2 & R2 & S2 & T2 & Sg2 & Pos2); try assumption; try lia.
  { exact (proj1 (proj2 (getitem4 _ _ _ _))). }
  { exact (proj1 (proj2 (proj2 (getitem4 _ _ _ _)))). }
  { exact (proj1 (proj2 (getitem3 _ _ _))). }
  change (2 + 1) with 3 in *.
  destruct (residual_block_ok filters [1; 2; 2] phase decay n 3 x2 g2 b
              (same_dim h 2) (same_dim w 2) (32 * k) (32 * k) (64 * k) 2)
    as (x3 & g3 & R3 & S3 & T3 & Sg3 & Pos3); try assumption; try lia.
  { exact (proj1 (proj2 (proj2 (getitem4 _ _ _ _)))). }
  { exact (proj2 (proj2 (proj2 (getitem4 _ _ _ _)))). }
  { exact (proj2 (proj2 (getitem3 _ _ _))). }
  change (3 + 1) with 4 in *.
  assert (E2 : (16 * k =? 32 * k) = false) by (apply Z.eqb_neq; lia).
  assert (E3 : (32 * k =? 64 * k) = false) by (apply Z.eqb_neq; lia).
  rewrite E2 in Sg2. rewrite E3 in Sg3.
  exists x1, x2, x3, g3.
  split; [|split; [exact T1|split; [exact T2|split; [exact T3|split; [exact S3|split]]]]].
  - cbn [for_each].
    eapply runs_bind; [exact R1|].
    eapply runs_bind; [exact R2|].
    eapply runs_bind; [exact R3|]. apply runs_ret.
  - assert (M2 : forall hh, head_before 2 0 hh -> head_before 4 0 hh).
    { intros hh. apply head_before_mono. lia. }
    assert (M3 : forall hh, head_before 3 0 hh -> head_before 4 0 hh).
    { intros hh. apply head_before_mono. lia. }
    pose proof (segment_trans _ _ _ _ _ _ _ _ _ _
                  (segment_trans _ _ _ _ _ _ _ _ _ _
                     (segment_weaken _ _ _ _ _ _ _ M2 Sg1)
                     (segment_weaken _ _ _ _ _ _ _ M3 Sg2)) Sg3) as Sg.
    fold m in Sg |- *.
    destruct (16 =? 16 * k);
      match type of Sg with
      | segment _ _ _ ?a ?b ?c =>
          match goal with
          | |- segment _ _ _ ?a' ?b' ?c' =>
              replace a' with a by lia; replace b' with b by lia;
              replace c' with c by lia
          end
      end; exact Sg.
  - exact Pos3.
Qed.

Lemma map_weight_decay_term (weight_decay : float) (vs : list tf_Variable) :
  map (fun it => ITensor (Mul (Const weight_decay) (L2Loss (convert_to_tensor it))))
    (map IVar vs)
  = map (weight_decay_term weight_decay) vs.
Proof. rewrite map_map. reflexivity. Qed.

Lemma set_up_ok (dl : cifar100_input.data_loading) (n k : Z) (wd bd : float)
  (X y phase : Tensor) (b h w : option Z) (c : Z) (g : Graph) :
  cifar100_input.load dl = (X, y, phase) ->
  get_shape X = [b; h; w; Some c] ->
  get_shape y = [b; Some 100] ->
  1 <= k ->
  ready g -> variables g = [] ->
  exists x1 x2 feat g' vsb upsb,
    runs (set_up Python2 dl n k wd bd) g
      (losses_of y (classifier_logits feat phase (64 * k)),
       accuracy_of y (classifier_logits feat phase (64 * k))) g'
    /\ residual_block_of (Z.to_nat (n - 1)) (16 * k) 1
         (conv_output ["conv_0"] X 3 c 16 1) x1
    /\ residual_block_of (Z.to_nat (n - 1)) (32 * k) 2 x1 x2
    /\ residual_block_of (Z.to_nat (n - 1)) (64 * k) 2 x2 feat
    /\ get_shape feat
       = [b; same_dim (same_dim h 2) 2; same_dim (same_dim w 2) 2; Some (64 * k)]
    /\ ready g'
    /\ variables g'
       = [conv_kernel ["conv_0"] 3 c 16] ++ vsb
         ++ bn_variables ["unit_last"; "batch_norm"] (64 * k)
         ++ [fc_weight ["fully-connected"; "fc"] (64 * k) 100;
             fc_bias ["fully-connected"; "fc"] 100]
    /\ Forall (fun v => head_before 4 0 (hd "" (var_name v))) vsb
    /\ List.length vsb
       = ((if (16 =? 16 * k)%Z then 10 else 11) + 22 + 30 * Z.to_nat (n - 1))%nat
    /\ List.length (filter is_weight vsb)
       = ((if (16 =? 16 * k)%Z then 2 else 3) + 6 + 6 * Z.to_nat (n - 1))%nat
    /\ get_collection tf_GraphKeys_UPDATE_OPS g'
       = get_collection tf_GraphKeys_UPDATE_OPS g
         ++ map ITensor
              (upsb ++ bn_updates ["unit_last"; "batch_norm"] (64 * k) feat bd)
    /\ List.length upsb = (12 + 12 * Z.to_nat (n - 1))%nat
    /\ get_collection tf_GraphKeys_REGULARIZATION_LOSSES g'
       = get_collection tf_GraphKeys_REGULARIZATION_LOSSES g
         ++ map (weight_decay_term wd) (filter is_weight (variables g')).
Proof.
  intros Hl HX Hy Hk Rd Hv.
  pose proof Rd as (Sc & Re & In0).
  (* conv_0 *)
  destruct (conv_at [] X 3 16 1 "conv_0" g b h w c Sc Re In0 HX)
    as (g0 & R0 & S0 & G0); try discriminate; try lia.
  { unfold names. rewrite Hv. intros []. }
  rewrite !same_dim_1 in S0. cbn [app] in R0, S0, G0.
  set (x0 := conv_output ["conv_0"] X 3 c 16 1) in *.
  assert (Rd0 : ready g0).
  { split; [|split].
    - rewrite (gr_scope _ _ _ _ G0). exact Sc.
    - rewrite (gr_reuse _ _ _ _ G0). exact Re.
    - exact (grows_reg_inv _ _ _ _ G0 In0). }
  assert (Pos0 : at_position 1 0 g0).
  { split; [exact Rd0|]. unfold heads. rewrite (gr_vars _ _ _ _ G0), Hv.
    cbn [app map]. constructor; [|constructor]. left. reflexivity. }
  (* blocks *)
  destruct (wrn_blocks_ok phase bd n k x0 g0 b h w Hk Pos0 S0)
    as (x1 & x2 & feat & g3 & R3 & T1 & T2 & T3 & S3 & Sg3 & Pos3).
  destruct Sg3 as (vsb & upsb & G3 & F3 & L3v & L3w & L3u).
  destruct Pos3 as [(Sc3 & Re3 & In3) F3h].
  assert (Hc3 : 0 < 64 * k) by lia.
  set (c3 := 64 * k) in *.
  (* unit_last *)
  set (gs := set_scope ["unit_last"] g3).
  destruct (batch_norm_at ["unit_last"] feat phase bd "batch_norm" gs _ _ _ c3
              eq_refl Re3 S3) as (g4 & R4 & G4).
  { intros nm. apply (fresh_head_not_in "unit_last" _ g3).
    apply head_fresh_after_blocks; [left; reflexivity|exact F3h]. }
  cbn [app] in R4, G4.
  destruct (pooled_features_shape feat phase _ _ _ c3 S3) as [Sa Sp].
  destruct (classifier_logits_shape feat phase _ _ _ c3 S3 Hc3) as [Sr Slog].
  pose proof (grows_scope _ _ _ _ _ G4) as G4'.
  set (g4' := set_scope (variable_scope g3) g4) in *.
  pose proof (grows_trans _ _ _ _ _ _ _ G3 G4') as G34.
  (* fully-connected *)
  set (gf := set_scope ["fully-connected"] g4').
  set (flat := Reshape (pooled_features feat phase c3) [-1; c3]) in *.
  destruct (fc_at ["fully-connected"] flat 100 "fc" gf b c3) as (g5 & R5 & S5 & G5);
    try reflexivity; try discriminate.
  { change (scope_reuse gf) with (scope_reuse g4').
    rewrite (gr_reuse _ _ _ _ G4'). exact Re3. }
  { exact (grows_reg_inv _ _ _ _ G4' In3). }
  { exact Sr. }
  { unfold names. change (variables gf) with (variables g4').
    rewrite (gr_vars _ _ _ _ G4'), map_app, in_app_iff. intros [H|H].
    - revert H. apply (fresh_head_not_in "fully-connected" _ g3).
      apply head_fresh_after_blocks; [right; reflexivity|exact F3h].
    - revert H. names_differ. }
  { unfold names. change (variables gf) with (variables g4').
    rewrite (gr_vars _ _ _ _ G4'), map_app, in_app_iff. intros [H|H].
    - revert H. apply (fresh_head_not_in "fully-connected" _ g3).
      apply head_fresh_after_blocks; [right; reflexivity|exact F3h].
    - revert H. names_differ. }
  cbn [app] in R5, S5, G5.
  pose proof (grows_scope _ _ _ _ _ G5) as G5'.
  set (g5' := set_scope (variable_scope g4') g5) in *.
  pose proof (grows_trans _ _ _ _ _ _ _ G34 G5') as G345.
  pose proof (grows_trans _ _ _ _ _ _ _ G0 G345) as Gall.
  set (logits := classifier_logits feat phase c3) in *.
  (* weight decay *)
  destruct (weight_decay_loop wd (get_collection "regularizable_variables" g5') g5')
    as (g6 & R6 & Sc6 & Re6 & V6 & L6 & O6).
  assert (In5 : reg_inv g5') by exact (grows_reg_inv _ _ _ _ Gall In0).
  assert (Sarg : get_shape (ArgMax logits 1) = [b]).
  { change (get_shape (ArgMax logits 1))
      with (shape_or_scalar (reduce_shape (get_shape logits) [1])).
    rewrite Slog. reflexivity. }
  assert (Sargy : get_shape (ArgMax y 1) = [b]).
  { change (get_shape (ArgMax y 1))
      with (shape_or_scalar (reduce_shape (get_shape y) [1])).
    rewrite Hy. reflexivity. }
  exists x1, x2, feat, g6, vsb, upsb.
  split; [|split; [exact T1|split; [exact T2|split; [exact T3|split; [exact S3|]]]]].
  - unfold set_up. rewrite Hl.
    eapply runs_bind; [exact R0|]. fold x0.
    eapply runs_bind; [apply runs_lift; reflexivity|].
    eapply runs_bind; [exact R3|].
    eapply runs_bind.
    { apply runs_scope. rewrite Sc3. cbn [app]. fold gs.
      eapply runs_bind; [exact R4|].
      eapply runs_bind; [apply runs_lift; reflexivity|].
      apply runs_lift. unfold tf_reduce_mean. rewrite Sa. reflexivity. }
    fold g4'. fold (pooled_features feat phase c3).
    eapply runs_bind.
    { apply runs_scope. change (variable_scope g4') with (variable_scope g3).
      rewrite Sc3. cbn [app]. fold gf.
      eapply runs_bind; [apply runs_lift; rewrite Sp; reflexivity|].
      eapply runs_bind.
      { apply runs_lift. unfold tf_reshape. cbn [forallb andb map].
        rewrite Sp, (reshape_flatten b c3 Hc3). reflexivity. }
      fold flat. exact R5. }
    fold g5'. change (fc_output ["fully-connected"; "fc"] flat c3 100) with logits.
    eapply runs_bind.
    { apply runs_lift. unfold tf_nn_softmax_cross_entropy_with_logits_v2.
      rewrite Hy, Slog. unfold softmax_cross_entropy_shape.
      rewrite broadcast_shape_same. reflexivity. }
    eapply runs_bind; [apply runs_get_collection|].
    eapply runs_bind; [exact R6|].
    eapply runs_bind.
    { apply runs_lift. unfold tf_argmax. rewrite Slog. reflexivity. }
    eapply runs_bind.
    { apply runs_lift. unfold tf_argmax. rewrite Hy. reflexivity. }
    eapply runs_bind.
    { apply runs_lift. unfold tf_equal. rewrite Sarg, Sargy, broadcast_shape_same.
      reflexivity. }
    eapply runs_bind; [apply runs_lift; reflexivity|].
    eapply runs_bind; [apply runs_lift; reflexivity|].
    apply runs_ret.
  - assert (Vall : variables g6
                   = [conv_kernel ["conv_0"] 3 c 16] ++ vsb
                     ++ bn_variables ["unit_last"; "batch_norm"] c3
                     ++ [fc_weight ["fully-connected"; "fc"] c3 100;
                         fc_bias ["fully-connected"; "fc"] 100]).
    { rewrite V6, (gr_vars _ _ _ _ Gall), Hv. cbn [app].
      rewrite <- !app_assoc. reflexivity. }
    split; [|split; [exact Vall|split; [exact F3|split; [exact L3v|split; [exact L3w|]]]]].
    + split; [|split].
      * rewrite Sc6. change (variable_scope g5') with (variable_scope g3). exact Sc3.
      * rewrite Re6. rewrite (gr_reuse _ _ _ _ Gall). exact Re.
      * unfold reg_inv. rewrite O6 by discriminate. rewrite V6. exact In5.
    + split; [|split; [exact L3u|]].
      * rewrite O6 by discriminate. rewrite (gr_updates _ _ _ _ Gall).
        cbn [app]. rewrite !app_nil_r. reflexivity.
      * rewrite L6. rewrite (gr_losses _ _ _ _ Gall). f_equal.
        rewrite In5, map_weight_decay_term, V6. reflexivity.
Qed.

Lemma ready_empty_graph : ready empty_graph.
Proof. unfold ready, reg_inv. repeat split. Qed.

Lemma losses_shape (y logits : Tensor) (b : option Z) :
  get_shape y = [b; Some 100] -> get_shape logits = [b; Some 100] ->
  get_shape (losses_of y logits) = [b].
Proof.
  intros Hy Hl. unfold losses_of.
  change (get_shape (SoftmaxCrossEntropyWithLogitsV2 y logits))
    with (shape_or_scalar (softmax_cross_entropy_shape (get_shape y) (get_shape logits))).
  rewrite Hy, Hl. unfold softmax_cross_entropy_shape.
  rewrite broadcast_shape_same. reflexivity.
Qed.

Lemma weight_decay_term_inj (wd : float) (v v' : tf_Variable) :
  weight_decay_term wd v = weight_decay_term wd v' -> v = v'.
Proof. unfold weight_decay_term. intros H. inversion H. reflexivity. Qed.

Lemma for_each_ext {A S : Type} (items : list A) (body body' : A -> S -> M S) :
  (forall a s g, body a s g = body' a s g) ->
  forall s g, for_each items body s g = for_each items body' s g.
Proof.
  intros E. induction items as [|a items IH]; intros s g; [reflexivity|].
  cbn [for_each]. unfold bind. rewrite E.
  destruct (body' a s g) as [[s' g']|e]; [apply IH|reflexivity].
Qed.

Lemma bind_ext {A B : Type} (m : M A) (f f' : A -> M B) (g : Graph) :
  (forall a g1, f a g1 = f' a g1) -> bind m f g = bind m f' g.
Proof.
  intros E. unfold bind. destruct (m g) as [[a g1]|e]; [apply E|reflexivity].
Qed.

Lemma xrange_at_most_one (py : Interpreter) (n : Z) :
  n <= 1 -> xrange py 1 n 1 = xrange py 1 1 1.
Proof.
  intros Hn. destruct py; [|reflexivity]. unfold xrange.
  rewrite (range_from_1 n), (range_from_1 1).
  replace (Z.to_nat (n - 1)) with 0%nat by lia. reflexivity.
Qed.

(** X7: on a Python 3 interpreter [set_up] never returns: once the initial
    convolution is built it raises [NameError] for [xrange]; if the initial
    convolution raises, that exception comes out. *)
Theorem set_up_raises_name_error_on_python3
  (dl : cifar100_input.data_loading) (n k : Z) (wd bd : float) (g : Graph) :
  set_up Python3 dl n k wd bd g
  = match conv (fst (fst (cifar100_input.load dl))) 3 16 1 SAME "conv_0" g with
    | Ok _ => Raise (NameError "xrange")
    | Raise e => Raise e
    end.
Proof.
  unfold set_up. destruct (cifar100_input.load dl) as [[X y] phase]. cbn [fst].
  unfold bind at 1.
  destruct (conv X 3 16 1 SAME "conv_0" g) as [[x g1]|e]; reflexivity.
Qed.

Lemma raises_bind_l {A B : Type} (m : M A) (f : A -> M B) (g : Graph) (e : Exception) :
  raises m g e -> raises (bind m f) g e.
Proof. unfold raises, bind. intros ->. reflexivity. Qed.

Lemma raises_bind_r {A B : Type} (m : M A) (f : A -> M B) (g g1 : Graph) (a : A)
  (e : Exception) :
  runs m g a g1 -> raises (f a) g1 e -> raises (bind m f) g e.
Proof. unfold runs, raises, bind. intros -> H. exact H. Qed.

Lemma raises_scope {A : Type} (name : string) (body : M A) (g : Graph) (e : Exception) :
  raises body (set_scope (variable_scope g ++ [name]) g) e ->
  raises (tf_variable_scope name body) g e.
Proof. unfold raises, tf_variable_scope. intros ->. reflexivity. Qed.

Lemma raises_lift {A : Type} (r : Result A) (g : Graph) (e : Exception) :
  r = Raise e -> raises (lift r) g e.
Proof. unfold raises, lift. intros ->. reflexivity. Qed.

Lemma get_variable_exists (name : string) (shape : Shape) (dtype : DType)
  (init : Initializer) (tr : bool) (g : Graph) :
  scope_reuse g = reuse_False ->
  In (variable_scope g ++ [name]) (names g) ->
  raises (tf_get_variable name shape dtype init tr) g
    (ValueError "Variable already exists, disallowed").
Proof.
  intros R I. unfold raises, tf_get_variable.
  destruct (find (has_name (variable_scope g ++ [name])) (variables g)) as [v|] eqn:F.
  - rewrite R. reflexivity.
  - apply find_has_name_none in F. contradiction.
Qed.

Lemma conv_divisors_nonzero (x : Tensor) (fs oc st : Z) (pad : Padding) (name : string)
  (g : Graph) (t : Tensor) (g' : Graph) :
  conv x fs oc st pad name g = Ok (t, g') -> (fs =? 0) = false /\ (oc =? 0) = false.
Proof.
  unfold conv. intros H.
  apply scope_ok in H. destruct H as (gl & H & _).
  step_lift H as q1 E1. unfold truediv in E1.
  destruct (fs =? 0); [discriminate|].
  step_lift H as q2 E2. step_lift H as q3 E3. unfold truediv in E3.
  destruct (oc =? 0); [discriminate|]. split; reflexivity.
Qed.

(** X9: a convolution layer cannot be built twice under the same name in a
    non-reusing variable scope: after a successful [conv], the same call on
    the resulting graph raises [ValueError] (the kernel already exists). *)
Theorem conv_twice_raises_value_error
  (x : Tensor) (fs oc st : Z) (pad : Padding) (name : string)
  (g : Graph) (t : Tensor) (g' : Graph) :
  scope_reuse g = reuse_False ->
  conv x fs oc st pad name g = Ok (t, g') ->
  conv x fs oc st pad name g' = Raise (ValueError "Variable already exists, disallowed").
Proof.
  intros Re H.
  destruct (conv_divisors_nonzero _ _ _ _ _ _ _ _ _ H) as [Hfs Hoc].
  apply conv_inv in H. destruct H as (W & c & gv & _ & Hc & N & _ & EW & ->).
  pose proof (get_variable_stored _ _ _ _ _ _ _ _ EW) as [IW _].
  pose proof (get_variable_inv _ _ _ _ _ _ _ _ EW) as (_ & _ & Rv & _).
  assert (Vr : variables (register_weight W gv) = variables gv).
  { unfold register_weight. destruct (contains_variable _ _); reflexivity. }
  assert (Rr : scope_reuse (register_weight W gv) = scope_reuse gv).
  { unfold register_weight. destruct (contains_variable _ _); reflexivity. }
  change (raises (conv x fs oc st pad name)
            (set_scope (variable_scope g) (register_weight W gv))
            (ValueError "Variable already exists, disallowed")).
  unfold conv. apply raises_scope. cbn [variable_scope set_scope].
  eapply raises_bind_r; [apply runs_lift; unfold truediv; rewrite Hfs; reflexivity|].
  eapply raises_bind_r; [apply runs_lift; unfold truediv; rewrite Hfs; reflexivity|].
  eapply raises_bind_r; [apply runs_lift; unfold truediv; rewrite Hoc; reflexivity|].
  eapply raises_bind_r; [apply runs_lift; exact Hc|].
  apply raises_bind_l. apply get_variable_exists.
  - cbn [scope_reuse set_scope]. rewrite Rr, Rv. exact Re.
  - cbn [variable_scope set_scope]. unfold names. cbn [variables set_scope].
    rewrite Vr, <- app_assoc. cbn [app]. rewrite <- N. apply in_map. exact IW.
Qed.

Lemma conv_twice_raises_value_error_witness :
  scope_reuse empty_graph = reuse_False
  /\ exists t g',
       conv example_x 3 16 1 SAME "conv_0" empty_graph = Ok (t, g')
       /\ conv example_x 3 16 1 SAME "conv_0" g'
          = Raise (ValueError "Variable already exists, disallowed").
Proof.
  split; [reflexivity|]. eexists. eexists. split.
  - vm_compute. reflexivity.
  - eapply (conv_twice_raises_value_error example_x 3 16 1 SAME "conv_0" empty_graph).
    + reflexivity.
    + vm_compute. reflexivity.
Defined.

Lemma getitem_out_of_range {A : Type} (l : list A) (i : Z) :
  Z.of_nat (List.length l) <= i ->
  getitem l i = Raise (IndexError "list index out of range").
Proof.
  intros H. unfold getitem.
  assert (E : (i <? 0) = false) by (apply Z.ltb_ge; lia).
  assert (E2 : (Z.of_nat (List.length l) <=? i) = true) by (apply Z.leb_le; lia).
  cbv zeta. rewrite E. cbv iota. rewrite E, E2. reflexivity.
Qed.

Lemma extends_refl (g : Graph) : extends g g.
Proof.
  constructor; try reflexivity.
  - exists []. rewrite app_nil_r. split; [reflexivity|constructor].
  - intros key. exists []. rewrite app_nil_r. reflexivity.
  - intros _ H. exact H.
Qed.

Lemma extends_trans (g g1 g2 : Graph) : extends g g1 -> extends g1 g2 -> extends g g2.
Proof.
  intros [S1 R1 (vs1 & V1 & F1) C1 U1] [S2 R2 (vs2 & V2 & F2) C2 U2]. constructor.
  - congruence.
  - congruence.
  - exists (vs1 ++ vs2). split.
    + rewrite V2, V1, app_assoc. reflexivity.
    + apply Forall_app. split; [exact F1|]. rewrite S1 in F2. exact F2.
  - intros key. destruct (C1 key) as (i1 & E1). destruct (C2 key) as (i2 & E2).
    exists (i1 ++ i2). rewrite E2, E1, app_assoc. reflexivity.
  - intros R N. apply U2; [congruence|]. apply U1; assumption.
Qed.

Lemma extends_scope (g g1 : Graph) (name : string) :
  extends (set_scope (variable_scope g ++ [name]) g) g1 ->
  extends g (set_scope (variable_scope g) g1).
Proof.
  intros [S R (vs & V & F) C U]. constructor; simpl; try assumption; try reflexivity.
  exists vs. split; [exact V|].
  eapply Forall_impl; [|exact F]. cbn [variable_scope set_scope].
  intros v (rest & E). exists (name :: rest). rewrite E, <- app_assoc. reflexivity.
Qed.

Lemma extending_ret {A : Type} (a : A) : extending (ret a).
Proof. intros g a' g' H. inversion H. apply extends_refl. Qed.

Lemma extending_lift {A : Type} (r : Result A) : extending (lift r).
Proof. intros g a g' H. apply lift_ok in H. destruct H as [_ ->]. apply extends_refl. Qed.

Lemma extending_bind {A B : Type} (m : M A) (f : A -> M B) :
  extending m -> (forall a, extending (f a)) -> extending (bind m f).
Proof.
  intros Hm Hf g b g2 H. apply bind_ok in H. destruct H as (a & g1 & E1 & E2).
  exact (extends_trans _ _ _ (Hm _ _ _ E1) (Hf a _ _ _ E2)).
Qed.

Lemma extending_scope {A : Type} (name : string) (body : M A) :
  extending body -> extending (tf_variable_scope name body).
Proof.
  intros Hb g a g' H. apply scope_ok in H. destruct H as (g1 & E & ->).
  apply (extends_scope g g1 name). exact (Hb _ _ _ E).
Qed.

Lemma extending_for_each {A S : Type} (items : list A) (body : A -> S -> M S) :
  (forall a s, extending (body a s)) -> forall s, extending (for_each items body s).
Proof.
  intros Hb. induction items as [|a items IH]; intros s; cbn [for_each].
  - apply extending_ret.
  - apply extending_bind; [apply Hb|exact IH].
Qed.

Lemma extending_get_collection (key : string) : extending (tf_get_collection key).
Proof. intros g a g' H. inversion H. apply extends_refl. Qed.

Lemma extending_add_to_collection (key : string) (it : Item) :
  extending (tf_add_to_collection key it).
Proof.
  intros g a g' H. apply add_to_collection_ok in H.
  destruct H as (S & R & V & C & O). constructor; try assumption.
  - exists []. rewrite app_nil_r. split; [exact V|constructor].
  - intros key'. destruct (string_dec key key') as [<-|N].
    + exists [it]. exact C.
    + exists []. rewrite app_nil_r. exact (O key' N).
  - intros _ H. unfold names. rewrite V. exact H.
Qed.

Lemma extending_get_variable (name : string) (shape : Shape) (dtype : DType)
  (init : Initializer) (tr : bool) :
  extending (tf_get_variable name shape dtype init tr).
Proof.
  intros g v g' H. apply get_variable_inv in H.
  destruct H as (N & S & R & C & [(-> & _)|(s & _ & _ & V & Fr)]).
  - apply extends_refl.
  - constructor; try assumption.
    + exists [v]. split; [exact V|]. constructor; [|constructor].
      exists [name]. exact N.
    + intros key. exists []. rewrite app_nil_r. unfold get_collection. rewrite C.
      reflexivity.
    + intros _ ND. unfold names in *. rewrite V, map_app. cbn [map].
      apply NoDup_app; [exact ND|repeat constructor; intros []|].
      intros a Ia [<-|[]]. rewrite N in Ia. exact (Fr Ia).
Qed.

Ltac extending_step :=
  lazymatch goal with
  | |- extending (ret _) => apply extending_ret
  | |- extending (lift _) => apply extending_lift
  | |- extending (tf_get_variable _ _ _ _ _) => apply extending_get_variable
  | |- extending (tf_add_to_collection _ _) => apply extending_add_to_collection
  | |- extending (tf_get_collection _) => apply extending_get_collection
  | |- extending (tf_variable_scope _ _) => apply extending_scope
  | |- extending (for_each _ _ _) => apply extending_for_each; intros
  | |- extending (bind _ _) => apply extending_bind; [|intros]
  | |- extending (match ?x with _ => _ end) => destruct x
  end.

Lemma extending_batch_norm (x phase : Tensor) (decay : float) (name : string) :
  extending (batch_norm x phase decay name).
Proof. unfold batch_norm. repeat extending_step. Qed.

Lemma extending_conv (x : Tensor) (fs oc st : Z) (pad : Padding) (name : string) :
  extending (conv x fs oc st pad name).
Proof. unfold conv. cbv zeta. repeat extending_step. Qed.

Lemma extending_fc (x : Tensor) (od : Z) (name : string) : extending (fc x od name).
Proof. unfold fc. cbv zeta. repeat extending_step. Qed.

Lemma extending_first_unit_shortcut (filters strides : list Z) (i : Z) (x : Tensor) :
  extending (first_unit_shortcut filters strides i x).
Proof.
  unfold first_unit_shortcut.
  repeat first [apply extending_conv | extending_step].
Qed.

Lemma extending_first_residual_unit (filters strides : list Z) (phase : Tensor)
  (bd : float) (i : Z) (x : Tensor) :
  extending (first_residual_unit filters strides phase bd i x).
Proof.
  unfold first_residual_unit.
  repeat first [apply extending_conv | apply extending_batch_norm
               | apply extending_first_unit_shortcut | extending_step].
Qed.

Lemma extending_further_residual_unit (filters : list Z) (phase : Tensor)
  (bd : float) (i j : Z) (x : Tensor) :
  extending (further_residual_unit filters phase bd i j x).
Proof.
  unfold further_residual_unit. cbv zeta.
  repeat first [apply extending_conv | apply extending_batch_norm | extending_step].
Qed.

Lemma extending_residual_block (py : Interpreter) (filters strides : list Z)
  (phase : Tensor) (bd : float) (n i : Z) (x : Tensor) :
  extending (residual_block py filters strides phase bd n i x).
Proof.
  unfold residual_block.
  repeat first [apply extending_first_residual_unit
               | apply extending_further_residual_unit | extending_step].
Qed.

Lemma extending_set_up (py : Interpreter) (dl : cifar100_input.data_loading)
  (n k : Z) (wd bd : float) :
  extending (set_up py dl n k wd bd).
Proof.
  unfold set_up. cbv zeta. destruct (cifar100_input.load dl) as [[X y] phase].
  unfold add_weight_decay.
  repeat first [apply extending_conv | apply extending_batch_norm | apply extending_fc
               | apply extending_residual_block | extending_step].
Qed.

(** X12: whatever the interpreter, the arguments and the graph it starts
    from, a call of [set_up] that returns has only extended the graph: the
    variable scope and its reuse flag are restored, variables and collection
    entries were appended and none removed or changed, the new variables are
    named under the caller's scope, and in a non-reusing scope variable
    names stay unique. *)
Theorem set_up_only_extends_graph (py : Interpreter) (dl : cifar100_input.data_loading)
  (n k : Z) (wd bd : float) (g : Graph) (r : Tensor * Tensor) (g' : Graph) :
  set_up py dl n k wd bd g = Ok (r, g') -> extends g g'.
Proof. apply extending_set_up. Qed.

Lemma set_up_only_extends_graph_witness :
  exists r g',
    set_up Python2 (cifar100_loader 128) 1 1 weight_decay_5e_4 decay_0_9 empty_graph
    = Ok (r, g')
    /\ extends empty_graph g'.
Proof.
  assert (B : ok_b (set_up Python2 (cifar100_loader 128) 1 1 weight_decay_5e_4 decay_0_9
                      empty_graph) = true) by (vm_compute; reflexivity).
  destruct (set_up Python2 (cifar100_loader 128) 1 1 weight_decay_5e_4 decay_0_9
              empty_graph) as [[r g']|e] eqn:E.
  - exists r, g'. split; [reflexivity|].
    exact (set_up_only_extends_graph Python2 (cifar100_loader 128) 1 1
             weight_decay_5e_4 decay_0_9 empty_graph r g' E).
  - discriminate B.
Defined.

(** X13: the three layer builders [batch_norm], [conv] and [fc] only extend
    the graph, in every variable scope and reuse mode: they restore the
    scope they were called in, append variables (named under
    [scope/name/]) and collection entries, and change nothing that was
    there. *)
Theorem layers_only_extend_graph (g : Graph) (t : Tensor) (g' : Graph) (layer : M Tensor) :
  (exists x phase decay name, layer = batch_norm x phase decay name)
  \/ (exists x filter_size out_channels stride padding name,
         layer = conv x filter_size out_channels stride padding name)
  \/ (exists x out_dim name, layer = fc x out_dim name) ->
  layer g = Ok (t, g') ->
  extends g g'.
Proof.
  intros [(x & phase & decay & name & ->)
         |[(x & fs & oc & st & pad & name & ->)|(x & od & name & ->)]] H.
  - exact (extending_batch_norm _ _ _ _ _ _ _ H).
  - exact (extending_conv _ _ _ _ _ _ _ _ _ H).
  - exact (extending_fc _ _ _ _ _ _ H).
Qed.

Lemma layers_only_extend_graph_witness :
  exists t g',
    batch_norm example_x example_phase decay_0_9 "bn_1" once_built = Ok (t, g')
    /\ extends once_built g'.
Proof.
  assert (B : ok_b (batch_norm example_x example_phase decay_0_9 "bn_1" once_built) = true)
    by (vm_compute; reflexivity).
  destruct (batch_norm example_x example_phase decay_0_9 "bn_1" once_built)
    as [[t g']|e] eqn:E.
  - exists t, g'. split; [reflexivity|].
    apply (layers_only_extend_graph once_built t g'
             (batch_norm example_x example_phase decay_0_9 "bn_1")).
    + left. exists example_x, example_phase, decay_0_9, "bn_1"%string. reflexivity.
    + exact E.
  - discriminate B.
Defined.

Section Keeps.

Variable key : string.
Variable Q : list Item -> Prop.

Lemma keeps_ret {A : Type} (a : A) : keeps key Q (ret a).
Proof. intros g a' g' HQ H. inversion H. subst. exact HQ. Qed.

Lemma keeps_lift {A : Type} (r : Result A) : keeps key Q (lift r).
Proof. intros g a g' HQ H. apply lift_ok in H. destruct H as [_ ->]. exact HQ. Qed.

Lemma keeps_bind {A B : Type} (m : M A) (f : A -> M B) :
  keeps key Q m -> (forall a, keeps key Q (f a)) -> keeps key Q (bind m f).
Proof.
  intros Hm Hf g b g2 HQ H. apply bind_ok in H. destruct H as (a & g1 & E1 & E2).
  exact (Hf a _ _ _ (Hm _ _ _ HQ E1) E2).
Qed.

Lemma keeps_scope {A : Type} (name : string) (body : M A) :
  keeps key Q body -> keeps key Q (tf_variable_scope name body).
Proof.
  intros Hb g a g' HQ H. apply scope_ok in H. destruct H as (g1 & E & ->).
  exact (Hb (set_scope (variable_scope g ++ [name]) g) a g1 HQ E).
Qed.

Lemma keeps_for_each {A S : Type} (items : list A) (body : A -> S -> M S) :
  (forall a s, keeps key Q (body a s)) -> forall s, keeps key Q (for_each items body s).
Proof.
  intros Hb. induction items as [|a items IH]; intros s; cbn [for_each].
  - apply keeps_ret.
  - apply keeps_bind; [apply Hb|exact IH].
Qed.

Lemma keeps_get_collection (key' : string) : keeps key Q (tf_get_collection key').
Proof. intros g a g' HQ H. inversion H. subst. exact HQ. Qed.

Lemma keeps_get_variable (name : string) (shape : Shape) (dtype : DType)
  (init : Initializer) (tr : bool) :
  keeps key Q (tf_get_variable name shape dtype init tr).
Proof.
  intros g v g' HQ H. apply get_variable_collections in H.
  unfold get_collection in *. rewrite H. exact HQ.
Qed.

Lemma keeps_add_to_collection (key' : string) (it : Item) :
  key' <> key -> keeps key Q (tf_add_to_collection key' it).
Proof.
  intros N g a g' HQ H. apply add_to_collection_ok in H.
  destruct H as (_ & _ & _ & _ & O). rewrite (O key N). exact HQ.
Qed.

Ltac keeps_step :=
  lazymatch goal with
  | |- keeps _ _ (ret _) => apply keeps_ret
  | |- keeps _ _ (lift _) => apply keeps_lift
  | |- keeps _ _ (tf_get_variable _ _ _ _ _) => apply keeps_get_variable
  | |- keeps _ _ (tf_get_collection _) => apply keeps_get_collection
  | |- keeps _ _ (tf_add_to_collection _ _) =>
      apply keeps_add_to_collection; assumption
  | |- keeps _ _ (tf_variable_scope _ _) => apply keeps_scope
  | |- keeps _ _ (for_each _ _ _) => apply keeps_for_each; intros
  | |- keeps _ _ (bind _ _) => apply keeps_bind; [|intros]
  | |- keeps _ _ (match ?x with _ => _ end) => destruct x
  end.

Lemma keeps_batch_norm (x phase : Tensor) (decay : float) (name : string) :
  tf_GraphKeys_UPDATE_OPS <> key -> keeps key Q (batch_norm x phase decay name).
Proof. intros N. unfold batch_norm. repeat keeps_step. Qed.

Lemma keeps_conv_other (x : Tensor) (fs oc st : Z) (pad : Padding) (name : string) :
  "regularizable_variables"%string <> key -> keeps key Q (conv x fs oc st pad name).
Proof. intros N. unfold conv. cbv zeta. repeat keeps_step. Qed.

Lemma keeps_fc_other (x : Tensor) (od : Z) (name : string) :
  "regularizable_variables"%string <> key -> keeps key Q (fc x od name).
Proof. intros N. unfold fc. cbv zeta. repeat keeps_step. Qed.

Hypothesis not_update_ops : tf_GraphKeys_UPDATE_OPS <> key.
Hypothesis keeps_conv :
  forall x fs oc st pad name, keeps key Q (conv x fs oc st pad name).
Hypothesis keeps_fc : forall x od name, keeps key Q (fc x od name).

Ltac keeps_layers :=
  repeat first [ apply keeps_conv | apply keeps_fc
               | apply keeps_batch_norm; assumption | keeps_step ].

Lemma keeps_residual_block (py : Interpreter) (filters strides : list Z)
  (phase : Tensor) (bd : float) (n i : Z) (x : Tensor) :
  keeps key Q (residual_block py filters strides phase bd n i x).
Proof.
  unfold residual_block, first_residual_unit, further_residual_unit, first_unit_shortcut.
  cbv zeta. keeps_layers.
Qed.

Lemma keeps_add_weight_decay (wd : float) (W : Item) (u : unit) :
  tf_GraphKeys_REGULARIZATION_LOSSES <> key -> keeps key Q (add_weight_decay wd W u).
Proof. intros N. unfold add_weight_decay. repeat keeps_step. Qed.

Lemma keeps_set_up (py : Interpreter) (dl : cifar100_input.data_loading)
  (n k : Z) (wd bd : float) :
  tf_GraphKeys_REGULARIZATION_LOSSES <> key -> keeps key Q (set_up py dl n k wd bd).
Proof.
  intros N. unfold set_up. cbv zeta. destruct (cifar100_input.load dl) as [[X y] phase].
  repeat first [ apply keeps_residual_block | apply keeps_add_weight_decay; assumption
               | apply keeps_conv | apply keeps_fc
               | apply keeps_batch_norm; assumption | keeps_step ].
Qed.

End Keeps.

Lemma keeps_conv_once (x : Tensor) (fs oc st : Z) (pad : Padding) (name : string) :
  keeps "regularizable_variables"
    (fun c => NoDup (collection_variable_names c)) (conv x fs oc st pad name).
Proof.
  intros g t g' HQ H. exact (proj1 (conv_regularized_once _ _ _ _ _ _ _ _ _ HQ H)).
Qed.

Lemma keeps_fc_once (x : Tensor) (od : Z) (name : string) :
  keeps "regularizable_variables"
    (fun c => NoDup (collection_variable_names c)) (fc x od name).
Proof.
  intros g t g' HQ H. exact (proj1 (fc_regularized_once _ _ _ _ _ _ HQ H)).
Qed.

(** X14: [set_up] as a whole keeps the "regularizable_variables" collection
    free of duplicates, in every reuse mode and from every graph: however
    often a reusing scope hands a layer the same weight, the weight is in
    the collection once. *)
Theorem set_up_registers_each_weight_once (py : Interpreter)
  (dl : cifar100_input.data_loading) (n k : Z) (wd bd : float)
  (g : Graph) (r : Tensor * Tensor) (g' : Graph) :
  regularized_once g ->
  set_up py dl n k wd bd g = Ok (r, g') ->
  regularized_once g'.
Proof.
  intros ND H.
  apply (keeps_set_up "regularizable_variables"
           (fun c => NoDup (collection_variable_names c))
           ltac:(discriminate) keeps_conv_once keeps_fc_once py dl n k wd bd
           ltac:(discriminate) g r g' ND H).
Qed.

Lemma set_up_registers_each_weight_once_witness :
  regularized_once auto_reuse_graph
  /\ exists r g',
       set_up Python2 (cifar100_loader 128) 1 1 weight_decay_5e_4 decay_0_9
         auto_reuse_graph = Ok (r, g')
       /\ regularized_once g'.
Proof.
  assert (ND : regularized_once auto_reuse_graph) by constructor.
  split; [exact ND|].
  assert (B : ok_b (set_up Python2 (cifar100_loader 128) 1 1 weight_decay_5e_4 decay_0_9
                      auto_reuse_graph) = true) by (vm_compute; reflexivity).
  destruct (set_up Python2 (cifar100_loader 128) 1 1 weight_decay_5e_4 decay_0_9
              auto_reuse_graph) as [[r g']|e] eqn:E.
  - exists r, g'. split; [reflexivity|].
    exact (set_up_registers_each_weight_once Python2 (cifar100_loader 128) 1 1
             weight_decay_5e_4 decay_0_9 auto_reuse_graph r g' ND E).
  - discriminate B.
Defined.

Lemma set_up_inv (py : Interpreter) (dl : cifar100_input.data_loading)
  (n k : Z) (wd bd : float) (g : Graph) (r : Tensor * Tensor) (g' : Graph) :
  set_up py dl n k wd bd g = Ok (r, g') ->
  exists g3,
    get_collection tf_GraphKeys_REGULARIZATION_LOSSES g3
    = get_collection tf_GraphKeys_REGULARIZATION_LOSSES g
    /\ for_each (get_collection "regularizable_variables" g3) (add_weight_decay wd) tt g3
       = Ok (tt, g').
Proof.
  intros H. unfold set_up in H. cbv zeta in H.
  destruct (cifar100_input.load dl) as [[X y] phase].
  assert (K : forall A (m : M A) g0 a g1,
             keeps tf_GraphKeys_REGULARIZATION_LOSSES
               (fun c => c = get_collection tf_GraphKeys_REGULARIZATION_LOSSES g) m ->
             get_collection tf_GraphKeys_REGULARIZATION_LOSSES g0
             = get_collection tf_GraphKeys_REGULARIZATION_LOSSES g ->
             m g0 = Ok (a, g1) ->
             get_collection tf_GraphKeys_REGULARIZATION_LOSSES g1
             = get_collection tf_GraphKeys_REGULARIZATION_LOSSES g).
  { intros A m g0 a g1 Km E0 Hm. exact (Km g0 a g1 E0 Hm). }
  assert (Kc : forall x fs oc st pad name,
             keeps tf_GraphKeys_REGULARIZATION_LOSSES
               (fun c => c = get_collection tf_GraphKeys_REGULARIZATION_LOSSES g)
               (conv x fs oc st pad name)).
  { intros. apply keeps_conv_other. discriminate. }
  assert (Kf : forall x od name,
             keeps tf_GraphKeys_REGULARIZATION_LOSSES
               (fun c => c = get_collection tf_GraphKeys_REGULARIZATION_LOSSES g)
               (fc x od name)).
  { intros. apply keeps_fc_other. discriminate. }
  assert (Kb : forall x ph d name,
             keeps tf_GraphKeys_REGULARIZATION_LOSSES
               (fun c => c = get_collection tf_GraphKeys_REGULARIZATION_LOSSES g)
               (batch_norm x ph d name)).
  { intros. apply keeps_batch_norm. discriminate. }
  step_bind H as x0 g0 E0.
  pose proof (K _ _ g _ _ (Kc _ _ _ _ _ _) eq_refl E0) as F0.
  step_lift H as blocks Eb.
  step_bind H as x1 g1 E1.
  assert (F1 : get_collection tf_GraphKeys_REGULARIZATION_LOSSES g1
               = get_collection tf_GraphKeys_REGULARIZATION_LOSSES g).
  { refine (K _ _ g0 _ _ _ F0 E1).
    apply keeps_for_each. intros. apply keeps_residual_block;
      [discriminate|exact Kc]. }
  step_bind H as x2 g2 E2.
  assert (F2 : get_collection tf_GraphKeys_REGULARIZATION_LOSSES g2
               = get_collection tf_GraphKeys_REGULARIZATION_LOSSES g).
  { refine (K _ _ g1 _ _ _ F1 E2).
    apply keeps_scope. apply keeps_bind; [apply Kb|intros].
    apply keeps_bind; [apply keeps_lift|intros]. apply keeps_lift. }
  step_bind H as lo g3 E3.
  assert (F3 : get_collection tf_GraphKeys_REGULARIZATION_LOSSES g3
               = get_collection tf_GraphKeys_REGULARIZATION_LOSSES g).
  { refine (K _ _ g2 _ _ _ F2 E3).
    apply keeps_scope. apply keeps_bind; [apply keeps_lift|intros].
    apply keeps_bind; [apply keeps_lift|intros]. apply Kf. }
  step_lift H as ls El.
  step_bind H as regs g4 Er. unfold tf_get_collection in Er. inversion Er; subst regs g4.
  clear Er.
  step_bind H as u g5 E5. destruct u.
  step_lift H as yp Ep. step_lift H as yc Ec. step_lift H as cp Ecp.
  step_lift H as c Ecc. step_lift H as acc Ea.
  unfold ret in H. inversion H. subst g5.
  exists g3. split; [exact F3|exact E5].
Qed.

(** X15: the weight decay loop of [set_up] runs over the whole
    "regularizable_variables" collection of the graph: whatever the graph
    and the reuse mode it is called in, a call that returns has appended
    one term [weight_decay * l2_loss(W)] for every entry the collection
    holds at the end, those registered before the call included, and
    nothing else, to the regularization losses. *)
Theorem set_up_decays_every_registered_variable (py : Interpreter)
  (dl : cifar100_input.data_loading) (n k : Z) (wd bd : float)
  (g : Graph) (r : Tensor * Tensor) (g' : Graph) :
  set_up py dl n k wd bd g = Ok (r, g') ->
  get_collection tf_GraphKeys_REGULARIZATION_LOSSES g'
  = get_collection tf_GraphKeys_REGULARIZATION_LOSSES g
    ++ map (decay_term wd) (get_collection "regularizable_variables" g').
Proof.
  intros H. apply set_up_inv in H. destruct H as (g3 & E3 & L).
  destruct (weight_decay_loop wd (get_collection "regularizable_variables" g3) g3)
    as (g5 & R & _ & _ & _ & EL & EO).
  unfold runs in R. rewrite L in R. inversion R. subst g5.
  rewrite EL, E3. rewrite (EO "regularizable_variables"%string) by discriminate.
  reflexivity.
Qed.

Lemma set_up_decays_every_registered_variable_witness :
  exists r g',
    set_up Python2 (cifar100_loader 128) 1 1 weight_decay_5e_4 decay_0_9
      auto_reuse_graph = Ok (r, g')
    /\ get_collection tf_GraphKeys_REGULARIZATION_LOSSES g'
       = get_collection tf_GraphKeys_REGULARIZATION_LOSSES auto_reuse_graph
         ++ map (decay_term weight_decay_5e_4)
              (get_collection "regularizable_variables" g').
Proof.
  assert (B : ok_b (set_up Python2 (cifar100_loader 128) 1 1 weight_decay_5e_4 decay_0_9
                      auto_reuse_graph) = true) by (vm_compute; reflexivity).
  destruct (set_up Python2 (cifar100_loader 128) 1 1 weight_decay_5e_4 decay_0_9
              auto_reuse_graph) as [[r g']|e] eqn:E.
  - exists r, g'. split; [reflexivity|].
    exact (set_up_decays_every_registered_variable Python2 (cifar100_loader 128) 1 1
             weight_decay_5e_4 decay_0_9 auto_reuse_graph r g' E).
  - discriminate B.
Defined.

Lemma get_variable_partial_shape (name : string) (shape : Shape) (dtype : DType)
  (init : Initializer) (tr : bool) (g : Graph) :
  scope_reuse g = reuse_False ->
  fully_defined shape = None ->
  exists msg, raises (tf_get_variable name shape dtype init tr) g (ValueError msg).
Proof.
  intros R F. unfold raises, tf_get_variable. cbv zeta. rewrite R, F.
  destruct (find _ _); eexists; reflexivity.
Qed.

Lemma find_app_some {A : Type} (p : A -> bool) (l l' : list A) (v : A) :
  find p l = Some v -> find p (l ++ l') = Some v.
Proof.
  induction l as [|a l IH]; simpl; [discriminate|].
  destruct (p a); [intros H; exact H|exact IH].
Qed.

Lemma app_nil_inv {A : Type} (l x : list A) : l = l ++ x -> x = [].
Proof.
  intros H. symmetry. apply (app_inv_head l). rewrite app_nil_r. exact H.
Qed.

Lemma later_refl (g : Graph) : later g g.
Proof. constructor; auto. Qed.

Lemma later_extends (g1 g2 h : Graph) : extends g1 g2 -> later g2 h -> later g1 h.
Proof.
  intros [S R (vs & V & _) C _] [S' R' F' G']. constructor.
  - congruence.
  - congruence.
  - intros n v H. apply F'. rewrite V. apply find_app_some. exact H.
  - intros W H. apply G'. destruct (C "regularizable_variables"%string) as (items & E).
    rewrite E. unfold contains_variable in *. rewrite existsb_app, H. reflexivity.
Qed.

Lemma later_repeats (g g0 g1 h h' : Graph) : later g h -> repeats g0 g1 h h' -> later g h'.
Proof.
  intros [S R F G] [S' R' V' G' _]. constructor.
  - congruence.
  - congruence.
  - rewrite V'. exact F.
  - rewrite G'. exact G.
Qed.

Lemma repeats_same (g g' h : Graph) :
  (forall key, key <> "regularizable_variables"%string ->
               get_collection key g' = get_collection key g) ->
  repeats g g' h h.
Proof.
  intros C. constructor; try reflexivity.
  intros key items N E. rewrite (C key N) in E. apply app_nil_inv in E. subst items.
  rewrite app_nil_r. reflexivity.
Qed.

Lemma repeats_trans (g g1 g2 h h1 h2 : Graph) :
  extends g g1 -> extends g1 g2 ->
  repeats g g1 h h1 -> repeats g1 g2 h1 h2 -> repeats g g2 h h2.
Proof.
  intros X1 X2 [S1 R1 V1 G1 C1] [S2 R2 V2 G2 C2]. constructor.
  - congruence.
  - congruence.
  - congruence.
  - congruence.
  - intros key items N E.
    destruct (ex_colls _ _ X1 key) as (i1 & E1).
    destruct (ex_colls _ _ X2 key) as (i2 & E2).
    assert (items = i1 ++ i2).
    { apply (app_inv_head (get_collection key g)). rewrite <- E, E2, E1, app_assoc.
      reflexivity. }
    subst items. rewrite (C2 key i2 N E2), (C1 key i1 N E1), app_assoc. reflexivity.
Qed.

Lemma repeatable_ret {A : Type} (a : A) : repeatable (ret a).
Proof.
  intros g a' g' _ H h _. inversion H. subst. exists h. split; [reflexivity|].
  apply repeats_same. reflexivity.
Qed.

Lemma repeatable_lift {A : Type} (r : Result A) : repeatable (lift r).
Proof.
  intros g a g' _ H h _. apply lift_ok in H. destruct H as [-> ->].
  exists h. split; [reflexivity|]. apply repeats_same. reflexivity.
Qed.

Lemma repeatable_bind {A B : Type} (m : M A) (f : A -> M B) :
  extending m -> (forall a, extending (f a)) ->
  repeatable m -> (forall a, repeatable (f a)) -> repeatable (bind m f).
Proof.
  intros Xm Xf Rm Rf g b g2 NR H h L.
  apply bind_ok in H. destruct H as (a & g1 & E1 & E2).
  pose proof (Xm _ _ _ E1) as X1. pose proof (Xf a _ _ _ E2) as X2.
  destruct (Rm g a g1 NR E1 h (later_extends _ _ _ X2 L)) as (h1 & F1 & P1).
  assert (NR1 : scope_reuse g1 <> reuse_False).
  { rewrite (ex_reuse _ _ X1). exact NR. }
  destruct (Rf a g1 b g2 NR1 E2 h1 (later_repeats _ _ _ _ _ L P1)) as (h2 & F2 & P2).
  exists h2. split.
  - rewrite (bind_run _ _ _ _ _ F1). exact F2.
  - exact (repeats_trans _ _ _ _ _ _ X1 X2 P1 P2).
Qed.

Lemma repeatable_scope {A : Type} (name : string) (body : M A) :
  extending body -> repeatable body -> repeatable (tf_variable_scope name body).
Proof.
  intros Xb Rb g a g' NR H h L.
  apply scope_ok in H. destruct H as (g1 & E & ->).
  pose proof (Xb _ _ _ E) as X.
  destruct L as [LS LR LF LG]. cbn in LS, LR, LF, LG.
  assert (L1 : later g1 (set_scope (variable_scope h ++ [name]) h)).
  { constructor; cbn.
    - rewrite (ex_scope _ _ X). cbn. rewrite LS. reflexivity.
    - exact LR.
    - exact LF.
    - exact LG. }
  destruct (Rb (set_scope (variable_scope g ++ [name]) g) a g1 NR E _ L1)
    as (h1 & F & [PS PR PV PG PC]).
  exists (set_scope (variable_scope h) h1). split.
  - unfold tf_variable_scope. rewrite F. reflexivity.
  - constructor; cbn; try assumption. reflexivity.
Qed.

Lemma repeatable_for_each {A S : Type} (items : list A) (body : A -> S -> M S) :
  (forall a s, extending (body a s)) -> (forall a s, repeatable (body a s)) ->
  forall s, repeatable (for_each items body s).
Proof.
  intros Xb Rb. induction items as [|a items IH]; intros s; cbn [for_each].
  - apply repeatable_ret.
  - apply repeatable_bind.
    + apply Xb.
    + intros s'. apply extending_for_each. exact Xb.
    + apply Rb.
    + exact IH.
Qed.

Lemma find_snoc_none {A : Type} (p : A -> bool) (l : list A) (v : A) :
  find p l = None -> p v = true -> find p (l ++ [v]) = Some v.
Proof.
  intros F P. induction l as [|a l IH]; simpl in *.
  - rewrite P. reflexivity.
  - destruct (p a); [discriminate|]. exact (IH F).
Qed.

Lemma has_name_refl (v : tf_Variable) : has_name (var_name v) v = true.
Proof. unfold has_name. destruct (name_eq_dec _ _); [reflexivity|contradiction]. Qed.

Lemma shape_eqb_refl (s : list Z) : shape_eqb s s = true.
Proof. unfold shape_eqb. destruct (list_eq_dec _ _ _); [reflexivity|contradiction]. Qed.

Lemma dtype_eqb_refl (d : DType) : dtype_eqb d d = true.
Proof. destruct d; reflexivity. Qed.

Lemma get_variable_found (name : string) (shape : Shape) (dtype : DType)
  (init : Initializer) (tr : bool) (g : Graph) (v : tf_Variable) (g' : Graph) :
  tf_get_variable name shape dtype init tr g = Ok (v, g') ->
  find (has_name (variable_scope g ++ [name])) (variables g') = Some v
  /\ exists s, fully_defined shape = Some s
               /\ shape_eqb s (var_shape v) && dtype_eqb dtype (var_dtype v) = true.
Proof.
  unfold tf_get_variable. cbv zeta.
  destruct (find (has_name (variable_scope g ++ [name])) (variables g)) as [v0|] eqn:F;
    destruct (scope_reuse g); try discriminate;
    destruct (fully_defined shape) as [s|]; try discriminate.
  - destruct (shape_eqb s (var_shape v0) && dtype_eqb dtype (var_dtype v0)) eqn:C;
      [|discriminate].
    intros H. inversion H. subst. split; [exact F|]. exists s. split; [reflexivity|exact C].
  - destruct (shape_eqb s (var_shape v0) && dtype_eqb dtype (var_dtype v0)) eqn:C;
      [|discriminate].
    intros H. inversion H. subst. split; [exact F|]. exists s. split; [reflexivity|exact C].
  - intros H. inversion H. subst. cbn [variables]. split.
    + apply find_snoc_none; [exact F|]. apply (has_name_refl (mkVariable _ _ _ _ _)).
    + exists s. split; [reflexivity|]. cbn. rewrite shape_eqb_refl, dtype_eqb_refl.
      reflexivity.
  - intros H. inversion H. subst. cbn [variables]. split.
    + apply find_snoc_none; [exact F|]. apply (has_name_refl (mkVariable _ _ _ _ _)).
    + exists s. split; [reflexivity|]. cbn. rewrite shape_eqb_refl, dtype_eqb_refl.
      reflexivity.
Qed.

Lemma get_variable_again (name : string) (shape : Shape) (dtype : DType)
  (init : Initializer) (tr : bool) (h : Graph) (v : tf_Variable) (s : list Z) :
  scope_reuse h <> reuse_False ->
  find (has_name (variable_scope h ++ [name])) (variables h) = Some v ->
  fully_defined shape = Some s ->
  shape_eqb s (var_shape v) && dtype_eqb dtype (var_dtype v) = true ->
  tf_get_variable name shape dtype init tr h = Ok (v, h).
Proof.
  intros NR F FD C. unfold tf_get_variable. cbv zeta. rewrite F, FD, C.
  destruct (scope_reuse h); [contradiction| |]; reflexivity.
Qed.

Lemma repeatable_get_variable (name : string) (shape : Shape) (dtype : DType)
  (init : Initializer) (tr : bool) :
  repeatable (tf_get_variable name shape dtype init tr).
Proof.
  intros g v g' NR H h L.
  pose proof (get_variable_found _ _ _ _ _ _ _ _ H) as (F & s & FD & C).
  pose proof (get_variable_inv _ _ _ _ _ _ _ _ H) as (_ & Sc & Re & Co & _).
  exists h. split.
  - apply (get_variable_again name shape dtype init tr h v s).
    + rewrite (lt_reuse _ _ L), Re. exact NR.
    + rewrite (lt_scope _ _ L), Sc. apply (lt_find _ _ L). exact F.
    + exact FD.
    + exact C.
  - apply repeats_same. intros key _. unfold get_collection. rewrite Co. reflexivity.
Qed.

Lemma repeatable_add_to_collection (key : string) (it : Item) :
  key <> "regularizable_variables"%string ->
  repeatable (tf_add_to_collection key it).
Proof.
  intros N g u g' _ H h _. destruct u.
  apply add_to_collection_ok in H. destruct H as (_ & _ & _ & C & O).
  eexists. split; [reflexivity|].
  constructor; cbn; try reflexivity.
  - unfold get_collection. cbn. apply coll_lookup_add_other. exact N.
  - intros key' items N' E. unfold get_collection at 1. cbn.
    destruct (string_dec key key') as [<-|D].
    + rewrite C in E. apply app_inv_head in E. subst items.
      apply coll_lookup_add_same.
    + rewrite (O key' D) in E. apply app_nil_inv in E. subst items.
      rewrite app_nil_r. apply coll_lookup_add_other. exact D.
Qed.

Lemma register_then_run {A : Type} (W : tf_Variable) (k : unit -> M A) (g : Graph) :
  bind (tf_get_collection "regularizable_variables")
    (fun regs =>
       bind (if negb (contains_variable W regs)
             then tf_add_to_collection "regularizable_variables" (IVar W)
             else ret tt) k) g
  = k tt (register_weight W g).
Proof.
  unfold bind, tf_get_collection, register_weight.
  destruct (contains_variable W (get_collection "regularizable_variables" g));
    reflexivity.
Qed.

Lemma register_weight_contains (W : tf_Variable) (g : Graph) :
  contains_variable W (get_collection "regularizable_variables" (register_weight W g))
  = true.
Proof.
  unfold register_weight.
  destruct (contains_variable W (get_collection "regularizable_variables" g)) eqn:E;
    [exact E|].
  unfold get_collection. cbn. rewrite coll_lookup_add_same.
  unfold contains_variable. rewrite existsb_app. cbn.
  rewrite has_name_refl. apply orb_true_iff. right. reflexivity.
Qed.

Lemma register_weight_extends (W : tf_Variable) (g : Graph) :
  extends g (register_weight W g).
Proof.
  unfold register_weight.
  destruct (contains_variable W (get_collection "regularizable_variables" g));
    [apply extends_refl|].
  apply (extending_add_to_collection "regularizable_variables" (IVar W) g tt).
  reflexivity.
Qed.

Lemma register_weight_other (W : tf_Variable) (g : Graph) (key : string) :
  key <> "regularizable_variables"%string ->
  get_collection key (register_weight W g) = get_collection key g.
Proof.
  intros N. unfold register_weight.
  destruct (contains_variable W (get_collection "regularizable_variables" g));
    [reflexivity|].
  unfold get_collection. cbn. apply coll_lookup_add_other. congruence.
Qed.

Lemma repeatable_register_then {A : Type} (W : tf_Variable) (k : unit -> M A) :
  (forall u, extending (k u)) -> (forall u, repeatable (k u)) ->
  repeatable
    (bind (tf_get_collection "regularizable_variables")
       (fun regs =>
          bind (if negb (contains_variable W regs)
                then tf_add_to_collection "regularizable_variables" (IVar W)
                else ret tt) k)).
Proof.
  intros Xk Rk g a g' NR H h L.
  rewrite register_then_run in H.
  pose proof (Xk tt _ _ _ H) as X.
  pose proof (later_extends _ _ _ X L) as L1.
  pose proof (lt_regs _ _ L1 W (register_weight_contains W g)) as Ch.
  assert (NR1 : scope_reuse (register_weight W g) <> reuse_False).
  { rewrite (ex_reuse _ _ (register_weight_extends W g)). exact NR. }
  destruct (Rk tt _ a g' NR1 H h L) as (h' & F & [PS PR PV PG PC]).
  exists h'. split.
  - rewrite register_then_run. unfold register_weight. rewrite Ch. exact F.
  - constructor; try assumption.
    intros key items N E. apply (PC key items N).
    rewrite (register_weight_other W g key N). exact E.
Qed.

Ltac extending_layers :=
  repeat
    lazymatch goal with
    | |- extending (conv _ _ _ _ _ _) => apply extending_conv
    | |- extending (batch_norm _ _ _ _) => apply extending_batch_norm
    | |- extending (fc _ _ _) => apply extending_fc
    | |- extending (first_unit_shortcut _ _ _ _) => apply extending_first_unit_shortcut
    | |- extending (first_residual_unit _ _ _ _ _ _) =>
        apply extending_first_residual_unit
    | |- extending (further_residual_unit _ _ _ _ _ _) =>
        apply extending_further_residual_unit
    | |- extending (residual_block _ _ _ _ _ _ _ _) => apply extending_residual_block
    | |- extending (ret _) => apply extending_ret
    | |- extending (lift _) => apply extending_lift
    | |- extending (tf_get_variable _ _ _ _ _) => apply extending_get_variable
    | |- extending (tf_add_to_collection _ _) => apply extending_add_to_collection
    | |- extending (tf_get_collection _) => apply extending_get_collection
    | |- extending (tf_variable_scope _ _) => apply extending_scope
    | |- extending (for_each _ _ _) => apply extending_for_each; intros
    | |- extending (bind _ _) => apply extending_bind; [|intros]
    | |- extending (match ?x with _ => _ end) => destruct x
    end.

Ltac repeatable_step tac :=
  lazymatch goal with
  | |- repeatable (ret _) => apply repeatable_ret
  | |- repeatable (lift _) => apply repeatable_lift
  | |- repeatable (tf_get_variable _ _ _ _ _) => apply repeatable_get_variable
  | |- repeatable (tf_add_to_collection _ _) =>
      apply repeatable_add_to_collection; discriminate
  | |- repeatable (tf_variable_scope _ _) =>
      apply repeatable_scope; [extending_layers|]
  | |- repeatable (for_each _ _ _) =>
      apply repeatable_for_each; [intros; extending_layers|intros]
  | |- repeatable (bind (tf_get_collection _) _) =>
      apply repeatable_register_then; [intros; extending_layers|intros]
  | |- repeatable (bind _ _) =>
      apply repeatable_bind; [extending_layers|intros; extending_layers| |intros]
  | |- repeatable (match ?x with _ => _ end) => destruct x
  | |- _ => tac
  end.

Lemma repeatable_batch_norm (x phase : Tensor) (decay : float) (name : string) :
  repeatable (batch_norm x phase decay name).
Proof. unfold batch_norm. repeat repeatable_step fail. Qed.

Lemma repeatable_conv (x : Tensor) (fs oc st : Z) (pad : Padding) (name : string) :
  repeatable (conv x fs oc st pad name).
Proof. unfold conv. cbv zeta. repeat repeatable_step fail. Qed.

Lemma repeatable_fc (x : Tensor) (od : Z) (name : string) : repeatable (fc x od name).
Proof. unfold fc. cbv zeta. repeat repeatable_step fail. Qed.

Ltac repeatable_layers :=
  repeat repeatable_step
    ltac:(first [ apply repeatable_conv | apply repeatable_batch_norm
                | apply repeatable_fc ]).

Lemma repeatable_first_unit_shortcut (filters strides : list Z) (i : Z) (x : Tensor) :
  repeatable (first_unit_shortcut filters strides i x).
Proof. unfold first_unit_shortcut. repeatable_layers. Qed.

Lemma repeatable_first_residual_unit (filters strides : list Z) (phase : Tensor)
  (bd : float) (i : Z) (x : Tensor) :
  repeatable (first_residual_unit filters strides phase bd i x).
Proof.
  unfold first_residual_unit.
  repeat repeatable_step
    ltac:(first [ apply repeatable_conv | apply repeatable_batch_norm
                | apply repeatable_first_unit_shortcut ]).
Qed.

Lemma repeatable_further_residual_unit (filters : list Z) (phase : Tensor)
  (bd : float) (i j : Z) (x : Tensor) :
  repeatable (further_residual_unit filters phase bd i j x).
Proof. unfold further_residual_unit. cbv zeta. repeatable_layers. Qed.

Lemma repeatable_residual_block (py : Interpreter) (filters strides : list Z)
  (phase : Tensor) (bd : float) (n i : Z) (x : Tensor) :
  repeatable (residual_block py filters strides phase bd n i x).
Proof.
  unfold residual_block.
  repeat repeatable_step
    ltac:(first [ apply repeatable_first_residual_unit
                | apply repeatable_further_residual_unit ]).
Qed.

Lemma extending_add_weight_decay (wd : float) (W : Item) (u : unit) :
  extending (add_weight_decay wd W u).
Proof. unfold add_weight_decay. extending_layers. Qed.

(** X22: building the network a second time in a reusing variable scope
    ([AUTO_REUSE] or [reuse=True]): if [set_up] returned, a second call on
    the graph it left returns the same losses and accuracy expressions over
    the same variables, creates no variable and registers no further
    weight, but it appends
    every batch norm update operation of the first call to the update
    operations once more, and one more weight decay term for every
    registered weight to the regularization losses. *)
Theorem set_up_again_in_reusing_scope (py : Interpreter)
  (dl : cifar100_input.data_loading) (n k : Z) (wd bd : float)
  (g : Graph) (r : Tensor * Tensor) (g' : Graph) :
  scope_reuse g <> reuse_False ->
  set_up py dl n k wd bd g = Ok (r, g') ->
  exists g'' ups,
    set_up py dl n k wd bd g' = Ok (r, g'')
    /\ variables g'' = variables g'
    /\ get_collection "regularizable_variables" g''
       = get_collection "regularizable_variables" g'
    /\ get_collection tf_GraphKeys_UPDATE_OPS g'
       = get_collection tf_GraphKeys_UPDATE_OPS g ++ ups
    /\ get_collection tf_GraphKeys_UPDATE_OPS g''
       = get_collection tf_GraphKeys_UPDATE_OPS g' ++ ups
    /\ get_collection tf_GraphKeys_REGULARIZATION_LOSSES g''
       = get_collection tf_GraphKeys_REGULARIZATION_LOSSES g'
         ++ map (decay_term wd) (get_collection "regularizable_variables" g').
Proof.
  intros NR H.
  pose proof (set_up_inv _ _ _ _ _ _ _ _ _ H) as (g3' & RL3 & L3').
  unfold set_up in *. cbv zeta in *.
  destruct (cifar100_input.load dl) as [[X y] phase].
  step_bind H as x0 g0 E0.
  step_lift H as blocks Eb.
  step_bind H as x1 g1 E1.
  step_bind H as x2 g2 E2.
  step_bind H as lo g3 E3.
  step_lift H as ls El.
  step_bind H as regs g4 Er. unfold tf_get_collection in Er. inversion Er; subst regs g4.
  clear Er.
  step_bind H as u g5 E5. destruct u.
  step_lift H as yp Ep. step_lift H as yc Ec. step_lift H as cp Ecp.
  step_lift H as c Ecc. step_lift H as acc Ea.
  unfold ret in H. inversion H. subst r g5. clear H.
  (* the first run only extends the graph *)
  pose proof (extending_conv _ _ _ _ _ _ _ _ _ E0) as X0.
  assert (X1 : extends g0 g1).
  { refine (extending_for_each _ _ _ _ _ _ _ E1). intros. apply extending_residual_block. }
  assert (X2 : extends g1 g2).
  { match type of E2 with
    | ?m g1 = _ => assert (XX : extending m) by extending_layers
    end.
    exact (XX _ _ _ E2). }
  assert (X3 : extends g2 g3).
  { match type of E3 with
    | ?m g2 = _ => assert (XX : extending m) by extending_layers
    end.
    exact (XX _ _ _ E3). }
  assert (X5 : extends g3 g').
  { refine (extending_for_each _ _ _ _ _ _ _ E5). intros.
    apply extending_add_weight_decay. }
  assert (NR0 : scope_reuse g0 <> reuse_False) by (rewrite (ex_reuse _ _ X0); exact NR).
  assert (NR1 : scope_reuse g1 <> reuse_False) by (rewrite (ex_reuse _ _ X1); exact NR0).
  assert (NR2 : scope_reuse g2 <> reuse_False) by (rewrite (ex_reuse _ _ X2); exact NR1).
  pose proof (later_extends _ _ _ X5 (later_refl g')) as L3.
  pose proof (later_extends _ _ _ X3 L3) as L2.
  pose proof (later_extends _ _ _ X2 L2) as L1.
  pose proof (later_extends _ _ _ X1 L1) as L0.
  (* the second run *)
  destruct (repeatable_conv _ _ _ _ _ _ g x0 g0 NR E0 g' L0) as (h0 & F0 & P0).
  assert (R1 : repeatable
                 (for_each blocks
                    (residual_block py [16; 16 * k; 32 * k; 64 * k] [1; 2; 2] phase bd n)
                    x0)).
  { apply repeatable_for_each; intros;
      [apply extending_residual_block|apply repeatable_residual_block]. }
  destruct (R1 g0 x1 g1 NR0 E1 h0 (later_repeats _ _ _ _ _ L1 P0)) as (h1 & F1 & P1).
  pose proof (later_repeats _ _ _ _ _ (later_repeats _ _ _ _ _ L2 P0) P1) as L2'.
  match type of E2 with
  | ?m g1 = _ => assert (R2 : repeatable m) by repeatable_layers
  end.
  destruct (R2 g1 x2 g2 NR1 E2 h1 L2') as (h2 & F2 & P2).
  pose proof (later_repeats _ _ _ _ _
                (later_repeats _ _ _ _ _ (later_repeats _ _ _ _ _ L3 P0) P1) P2) as L3''.
  match type of E3 with
  | ?m g2 = _ => assert (R3 : repeatable m) by repeatable_layers
  end.
  destruct (R3 g2 lo g3 NR2 E3 h2 L3'') as (h3 & F3 & P3).
  pose proof (repeats_trans _ _ _ _ _ _ X0 X1 P0 P1) as Q1.
  pose proof (repeats_trans _ _ _ _ _ _ (extends_trans _ _ _ X0 X1) X2 Q1 P2) as Q2.
  pose proof (repeats_trans _ _ _ _ _ _
                (extends_trans _ _ _ (extends_trans _ _ _ X0 X1) X2) X3 Q2 P3) as Q3.
  clear P0 P1 P2 P3 Q1 Q2 R1 R2 R3.
  (* the weight decay loop of the first and of the second run *)
  destruct (weight_decay_loop wd (get_collection "regularizable_variables" g3) g3)
    as (g5 & W5 & _ & _ & V5 & EL5 & O5).
  unfold runs in W5. rewrite E5 in W5. inversion W5. subst g5. clear W5.
  pose proof (O5 "regularizable_variables"%string ltac:(discriminate)) as G5.
  assert (RL : get_collection tf_GraphKeys_REGULARIZATION_LOSSES g3
               = get_collection tf_GraphKeys_REGULARIZATION_LOSSES g).
  { destruct (weight_decay_loop wd (get_collection "regularizable_variables" g3') g3')
      as (g5 & W5 & _ & _ & _ & EL' & O').
    unfold runs in W5. rewrite L3' in W5. inversion W5. subst g5. clear W5.
    rewrite <- (O' "regularizable_variables"%string ltac:(discriminate)) in EL'.
    rewrite <- G5 in EL5. rewrite EL5 in EL'. apply app_inv_tail in EL'.
    rewrite EL'. exact RL3. }
  assert (Gh : get_collection "regularizable_variables" h3
               = get_collection "regularizable_variables" g').
  { exact (rp_regs _ _ _ _ Q3). }
  destruct (weight_decay_loop wd (get_collection "regularizable_variables" h3) h3)
    as (h5 & W5 & _ & _ & Vh & Lh & Oh).
  destruct (ex_colls _ _
              (extends_trans _ _ _
                 (extends_trans _ _ _ (extends_trans _ _ _ X0 X1) X2) X3)
              tf_GraphKeys_UPDATE_OPS) as (ups & U3).
  exists h5, ups. split.
  - refine (runs_bind _ _ _ _ _ _ _ F0 _).
    refine (runs_bind _ _ _ _ _ _ _ (runs_lift _ _ _ Eb) _).
    refine (runs_bind _ _ _ _ _ _ _ F1 _).
    refine (runs_bind _ _ _ _ _ _ _ F2 _).
    refine (runs_bind _ _ _ _ _ _ _ F3 _).
    refine (runs_bind _ _ _ _ _ _ _ (runs_lift _ _ _ El) _).
    refine (runs_bind _ _ _ _ _ _ _ (runs_get_collection _ _) _).
    refine (runs_bind _ _ _ _ _ _ _ W5 _).
    refine (runs_bind _ _ _ _ _ _ _ (runs_lift _ _ _ Ep) _).
    refine (runs_bind _ _ _ _ _ _ _ (runs_lift _ _ _ Ec) _).
    refine (runs_bind _ _ _ _ _ _ _ (runs_lift _ _ _ Ecp) _).
    refine (runs_bind _ _ _ _ _ _ _ (runs_lift _ _ _ Ecc) _).
    refine (runs_bind _ _ _ _ _ _ _ (runs_lift _ _ _ Ea) _).
    apply runs_ret.
  - split; [rewrite Vh; exact (rp_vars _ _ _ _ Q3)|].
    split; [rewrite (Oh "regularizable_variables"%string ltac:(discriminate)); exact Gh|].
    split; [rewrite (O5 tf_GraphKeys_UPDATE_OPS ltac:(discriminate)); exact U3|].
    split.
    + rewrite (Oh tf_GraphKeys_UPDATE_OPS ltac:(discriminate)).
      apply (rp_colls _ _ _ _ Q3); [discriminate|exact U3].
    + rewrite Lh, Gh. f_equal.
      pose proof (rp_colls _ _ _ _ Q3 tf_GraphKeys_REGULARIZATION_LOSSES []
                    ltac:(discriminate)) as Z.
      rewrite !app_nil_r in Z. apply Z. exact RL.
Qed.

Lemma set_up_again_in_reusing_scope_witness :
  scope_reuse auto_reuse_graph <> reuse_False
  /\ exists r g',
       set_up Python2 (cifar100_loader 128) 1 1 weight_decay_5e_4 decay_0_9
         auto_reuse_graph = Ok (r, g')
       /\ exists g'' ups,
            set_up Python2 (cifar100_loader 128) 1 1 weight_decay_5e_4 decay_0_9 g'
            = Ok (r, g'')
            /\ variables g'' = variables g'
            /\ get_collection "regularizable_variables" g''
               = get_collection "regularizable_variables" g'
            /\ get_collection tf_GraphKeys_UPDATE_OPS g'
               = get_collection tf_GraphKeys_UPDATE_OPS auto_reuse_graph ++ ups
            /\ get_collection tf_GraphKeys_UPDATE_OPS g''
               = get_collection tf_GraphKeys_UPDATE_OPS g' ++ ups
            /\ get_collection tf_GraphKeys_REGULARIZATION_LOSSES g''
               = get_collection tf_GraphKeys_REGULARIZATION_LOSSES g'
                 ++ map (decay_term weight_decay_5e_4)
                      (get_collection "regularizable_variables" g').
Proof.
  assert (NR : scope_reuse auto_reuse_graph <> reuse_False) by discriminate.
  split; [exact NR|].
  assert (B : ok_b (set_up Python2 (cifar100_loader 128) 1 1 weight_decay_5e_4 decay_0_9
                      auto_reuse_graph) = true) by (vm_compute; reflexivity).
  destruct (set_up Python2 (cifar100_loader 128) 1 1 weight_decay_5e_4 decay_0_9
              auto_reuse_graph) as [[r g']|e] eqn:E.
  - exists r, g'. split; [reflexivity|].
    exact (set_up_again_in_reusing_scope Python2 (cifar100_loader 128) 1 1
             weight_decay_5e_4 decay_0_9 auto_reuse_graph r g' NR E).
  - discriminate B.
Defined.

Lemma repeatable_run_layer (c : layer_call) : repeatable (run_layer c).
Proof.
  destruct c; cbn [run_layer];
    [apply repeatable_batch_norm|apply repeatable_conv|apply repeatable_fc].
Qed.

Lemma run_layer_collections (c : layer_call) (g : Graph) (t : Tensor) (g' : Graph) :
  run_layer c g = Ok (t, g') ->
  (exists ups, get_collection tf_GraphKeys_UPDATE_OPS g'
               = get_collection tf_GraphKeys_UPDATE_OPS g ++ ups
               /\ List.length ups = layer_update_ops c)
  /\ (forall key, key <> tf_GraphKeys_UPDATE_OPS ->
                  key <> "regularizable_variables"%string ->
                  get_collection key g' = get_collection key g).
Proof.
  destruct c as [x phase decay name|x fs oc st pad name|x od name]; cbn [run_layer];
    intros H.
  - pose proof (batch_norm_inv _ _ _ _ _ _ _ H)
      as (ma & va & be & ga & _ & _ & _ & _ & _ & _ & _ & Co & _).
    unfold get_collection. rewrite Co. split.
    + eexists. split.
      * rewrite !coll_lookup_add_same, <- app_assoc. reflexivity.
      * reflexivity.
    + intros key N _. rewrite !coll_lookup_add_other by congruence. reflexivity.
  - split.
    + exists []. split; [|reflexivity]. rewrite app_nil_r.
      refine (keeps_conv_other tf_GraphKeys_UPDATE_OPS
                (fun c => c = get_collection tf_GraphKeys_UPDATE_OPS g)
                x fs oc st pad name ltac:(discriminate) g t g' eq_refl H).
    + intros key _ N.
      refine (keeps_conv_other key (fun c => c = get_collection key g)
                x fs oc st pad name ltac:(congruence) g t g' eq_refl H).
  - split.
    + exists []. split; [|reflexivity]. rewrite app_nil_r.
      refine (keeps_fc_other tf_GraphKeys_UPDATE_OPS
                (fun c => c = get_collection tf_GraphKeys_UPDATE_OPS g)
                x od name ltac:(discriminate) g t g' eq_refl H).
    + intros key _ N.
      refine (keeps_fc_other key (fun c => c = get_collection key g)
                x od name ltac:(congruence) g t g' eq_refl H).
Qed.

(** X23: calling a layer builder a second time in a reusing variable scope
    returns the same expression over the variables of the first call: no
    variable is created, no weight is registered again and no
    regularization loss is added; a batch norm layer registers its two
    update operations again. *)
Theorem layer_again_in_reusing_scope (c : layer_call) (g : Graph) (t : Tensor)
  (g' : Graph) :
  scope_reuse g <> reuse_False ->
  run_layer c g = Ok (t, g') ->
  exists g'' ups,
    run_layer c g' = Ok (t, g'')
    /\ variables g'' = variables g'
    /\ get_collection tf_GraphKeys_UPDATE_OPS g'
       = get_collection tf_GraphKeys_UPDATE_OPS g ++ ups
    /\ get_collection tf_GraphKeys_UPDATE_OPS g''
       = get_collection tf_GraphKeys_UPDATE_OPS g' ++ ups
    /\ List.length ups = layer_update_ops c
    /\ get_collection "regularizable_variables" g''
       = get_collection "regularizable_variables" g'
    /\ get_collection tf_GraphKeys_REGULARIZATION_LOSSES g''
       = get_collection tf_GraphKeys_REGULARIZATION_LOSSES g'.
Proof.
  intros NR H.
  destruct (repeatable_run_layer c g t g' NR H g' (later_refl g')) as (g'' & F & P).
  destruct (run_layer_collections c g t g' H) as ((ups & U & Len) & O).
  exists g'', ups. split; [exact F|]. split; [exact (rp_vars _ _ _ _ P)|].
  split; [exact U|]. split.
  - apply (rp_colls _ _ _ _ P); [discriminate|exact U].
  - split; [exact Len|]. split; [exact (rp_regs _ _ _ _ P)|].
    pose proof (rp_colls _ _ _ _ P tf_GraphKeys_REGULARIZATION_LOSSES []
                  ltac:(discriminate)) as Z.
    rewrite !app_nil_r in Z. apply Z.
    apply O; discriminate.
Qed.

Lemma layer_again_in_reusing_scope_witness :
  scope_reuse auto_reuse_graph <> reuse_False
  /\ exists t g',
       run_layer (call_batch_norm example_x example_phase decay_0_9 "bn_1")
         auto_reuse_graph = Ok (t, g')
       /\ exists g'' ups,
            run_layer (call_batch_norm example_x example_phase decay_0_9 "bn_1") g'
            = Ok (t, g'')
            /\ variables g'' = variables g'
            /\ get_collection tf_GraphKeys_UPDATE_OPS g'
               = get_collection tf_GraphKeys_UPDATE_OPS auto_reuse_graph ++ ups
            /\ get_collection tf_GraphKeys_UPDATE_OPS g''
               = get_collection tf_GraphKeys_UPDATE_OPS g' ++ ups
            /\ List.length ups = 2%nat
            /\ get_collection "regularizable_variables" g''
               = get_collection "regularizable_variables" g'
            /\ get_collection tf_GraphKeys_REGULARIZATION_LOSSES g''
               = get_collection tf_GraphKeys_REGULARIZATION_LOSSES g'.
Proof.
  assert (NR : scope_reuse auto_reuse_graph <> reuse_False) by discriminate.
  split; [exact NR|].
  assert (B : ok_b (run_layer (call_batch_norm example_x example_phase decay_0_9 "bn_1")
                      auto_reuse_graph) = true) by (vm_compute; reflexivity).
  destruct (run_layer (call_batch_norm example_x example_phase decay_0_9 "bn_1")
              auto_reuse_graph) as [[t g']|e] eqn:E.
  - exists t, g'. split; [reflexivity|].
    exact (layer_again_in_reusing_scope
             (call_batch_norm example_x example_phase decay_0_9 "bn_1")
             auto_reuse_graph t g' NR E).
  - discriminate B.
Defined.

(** X24: the weight decay factor reaches nothing but the regularization
    losses: a call of [set_up] with another [weight_decay] returns exactly
    when the first does, with the same losses and accuracy (the returned
    losses carry no regularization term), the same variables and the same
    entries in every other collection, and as many regularization terms. *)
Theorem weight_decay_only_reaches_regularization_losses (py : Interpreter)
  (dl : cifar100_input.data_loading) (n k : Z) (wd wd' bd : float)
  (g : Graph) (r : Tensor * Tensor) (g' : Graph) :
  set_up py dl n k wd bd g = Ok (r, g') ->
  exists g'',
    set_up py dl n k wd' bd g = Ok (r, g'')
    /\ variables g'' = variables g'
    /\ (forall key, key <> tf_GraphKeys_REGULARIZATION_LOSSES ->
                    get_collection key g'' = get_collection key g')
    /\ List.length (get_collection tf_GraphKeys_REGULARIZATION_LOSSES g'')
       = List.length (get_collection tf_GraphKeys_REGULARIZATION_LOSSES g').
Proof.
  intros H. unfold set_up in *. cbv zeta in *.
  destruct (cifar100_input.load dl) as [[X y] phase].
  step_bind H as x0 g0 E0.
  step_lift H as blocks Eb.
  step_bind H as x1 g1 E1.
  step_bind H as x2 g2 E2.
  step_bind H as lo g3 E3.
  step_lift H as ls El.
  step_bind H as regs g4 Er. unfold tf_get_collection in Er. inversion Er; subst regs g4.
  clear Er.
  step_bind H as u g5 E5. destruct u.
  step_lift H as yp Ep. step_lift H as yc Ec. step_lift H as cp Ecp.
  step_lift H as c Ecc. step_lift H as acc Ea.
  unfold ret in H. inversion H. subst r g5. clear H.
  destruct (weight_decay_loop wd (get_collection "regularizable_variables" g3) g3)
    as (g5 & W5 & _ & _ & V5 & L5 & O5).
  unfold runs in W5. rewrite E5 in W5. inversion W5. subst g5. clear W5.
  destruct (weight_decay_loop wd' (get_collection "regularizable_variables" g3) g3)
    as (h5 & W5 & _ & _ & Vh & Lh & Oh).
  exists h5. split.
  - refine (runs_bind _ _ _ _ _ _ _ E0 _).
    refine (runs_bind _ _ _ _ _ _ _ (runs_lift _ _ _ Eb) _).
    refine (runs_bind _ _ _ _ _ _ _ E1 _).
    refine (runs_bind _ _ _ _ _ _ _ E2 _).
    refine (runs_bind _ _ _ _ _ _ _ E3 _).
    refine (runs_bind _ _ _ _ _ _ _ (runs_lift _ _ _ El) _).
    refine (runs_bind _ _ _ _ _ _ _ (runs_get_collection _ _) _).
    refine (runs_bind _ _ _ _ _ _ _ W5 _).
    refine (runs_bind _ _ _ _ _ _ _ (runs_lift _ _ _ Ep) _).
    refine (runs_bind _ _ _ _ _ _ _ (runs_lift _ _ _ Ec) _).
    refine (runs_bind _ _ _ _ _ _ _ (runs_lift _ _ _ Ecp) _).
    refine (runs_bind _ _ _ _ _ _ _ (runs_lift _ _ _ Ecc) _).
    refine (runs_bind _ _ _ _ _ _ _ (runs_lift _ _ _ Ea) _).
    apply runs_ret.
  - split; [rewrite Vh, V5; reflexivity|]. split.
    + intros key N. rewrite (Oh key N), (O5 key N). reflexivity.
    + rewrite Lh, L5, !length_app, !length_map. reflexivity.
Qed.

Lemma weight_decay_only_reaches_regularization_losses_witness :
  exists r g',
    set_up Python2 (cifar100_loader 128) 1 1 weight_decay_5e_4 decay_0_9 empty_graph
    = Ok (r, g')
    /\ exists g'',
         set_up Python2 (cifar100_loader 128) 1 1 0%float decay_0_9 empty_graph
         = Ok (r, g'')
         /\ variables g'' = variables g'
         /\ (forall key, key <> tf_GraphKeys_REGULARIZATION_LOSSES ->
                         get_collection key g'' = get_collection key g')
         /\ List.length (get_collection tf_GraphKeys_REGULARIZATION_LOSSES g'')
            = List.length (get_collection tf_GraphKeys_REGULARIZATION_LOSSES g').
Proof.
  assert (B : ok_b (set_up Python2 (cifar100_loader 128) 1 1 weight_decay_5e_4 decay_0_9
                      empty_graph) = true) by (vm_compute; reflexivity).
  destruct (set_up Python2 (cifar100_loader 128) 1 1 weight_decay_5e_4 decay_0_9
              empty_graph) as [[r g']|e] eqn:E.
  - exists r, g'. split; [reflexivity|].
    exact (weight_decay_only_reaches_regularization_losses Python2 (cifar100_loader 128)
             1 1 weight_decay_5e_4 0%float decay_0_9 empty_graph r g' E).
  - discriminate B.
Defined.

Lemma kernel_in_extends (g g' : Graph) (W : tf_Variable) :
  extends g g' -> kernel_in g W -> kernel_in g' W.
Proof.
  intros [_ _ (vs & V & _) C _] [F I]. split.
  - rewrite V. apply find_app_some. exact F.
  - destruct (C "regularizable_variables"%string) as (items & E). rewrite E.
    rewrite collection_variable_names_app. apply in_or_app. left. exact I.
Qed.

Lemma conv_layer_where_impl (R R' : tf_Variable -> Prop) (fs oc st : Z) (x t : Tensor) :
  (forall W, R W -> R' W) -> conv_layer_where R fs oc st x t ->
  conv_layer_where R' fs oc st x t.
Proof. intros I (W & c & E & S & H). exists W, c. auto. Qed.

Lemma further_unit_where_impl (R R' : tf_Variable -> Prop) (f : Z) (x out : Tensor) :
  (forall W, R W -> R' W) -> further_unit_where R f x out -> further_unit_where R' f x out.
Proof.
  intros I (a1 & c1 & a2 & c2 & B1 & C1 & B2 & C2 & E).
  exists a1, c1, a2, c2.
  split; [exact B1|]. split; [exact (conv_layer_where_impl _ _ _ _ _ _ _ I C1)|].
  split; [exact B2|]. split; [exact (conv_layer_where_impl _ _ _ _ _ _ _ I C2)|exact E].
Qed.

Lemma first_unit_where_impl (R R' : tf_Variable -> Prop) (f s : Z) (x out : Tensor) :
  (forall W, R W -> R' W) -> first_unit_where R f s x out -> first_unit_where R' f s x out.
Proof.
  intros I (a1 & c1 & a2 & c2 & sc & B1 & C1 & B2 & C2 & S & E).
  exists a1, c1, a2, c2, sc.
  split; [exact B1|]. split; [exact (conv_layer_where_impl _ _ _ _ _ _ _ I C1)|].
  split; [exact B2|]. split; [exact (conv_layer_where_impl _ _ _ _ _ _ _ I C2)|].
  split; [|exact E].
  destruct S as [S|S]; [left; exact S|right; exact (conv_layer_where_impl _ _ _ _ _ _ _ I S)].
Qed.

Lemma further_units_where_impl (R R' : tf_Variable -> Prop) (m : nat) (f : Z) :
  (forall W, R W -> R' W) ->
  forall x out, further_units_where R m f x out -> further_units_where R' m f x out.
Proof.
  intros I. induction m as [|m IH]; intros x out H; cbn in *.
  - exact H.
  - destruct H as (mid & U & Us). exists mid.
    split; [exact (further_unit_where_impl _ _ _ _ _ I U)|exact (IH _ _ Us)].
Qed.

Lemma residual_block_where_impl (R R' : tf_Variable -> Prop) (units : nat) (f s : Z)
  (x out : Tensor) :
  (forall W, R W -> R' W) ->
  residual_block_where R units f s x out -> residual_block_where R' units f s x out.
Proof.
  intros I (m & mid & E & U & Us). exists m, mid. split; [exact E|].
  split; [exact (first_unit_where_impl _ _ _ _ _ _ I U)
         |exact (further_units_where_impl _ _ _ _ I _ _ Us)].
Qed.

Lemma conv2d_same_shape (x : Tensor) (W : tf_Variable) (b h w : option Z)
  (fs c oc st : Z) (pad : Padding) (nm : string) :
  var_shape W = [fs; fs; c; oc] ->
  get_shape x = [b; h; w; Some c] -> 0 < st ->
  get_shape (Conv2d x (ReadVar W) [1; st; st; 1] SAME nm)
  = [b; same_dim h st; same_dim w st; Some oc].
Proof.
  intros HW Hx Hst. rewrite get_shape_conv2d. cbn [get_shape]. rewrite HW, Hx.
  unfold conv2d_shape. cbn [map dims_compatible]. rewrite Z.eqb_refl.
  assert (E : (0 <? st) = true) by (apply Z.ltb_lt; exact Hst). rewrite E.
  reflexivity.
Qed.

(** What a [conv] call that returns has done, in every scope and reuse
    mode. *)
Lemma conv_returns (x : Tensor) (fs oc st : Z) (name : string) (g : Graph)
  (t : Tensor) (g' : Graph) :
  conv x fs oc st SAME name g = Ok (t, g') ->
  exists W c b h w,
    get_shape x = [b; h; w; Some c]
    /\ t = Conv2d x (ReadVar W) [1; st; st; 1] SAME "output"
    /\ var_name W = variable_scope g ++ [name; "W"]
    /\ var_shape W = [fs; fs; c; oc]
    /\ kernel_in g' W
    /\ get_shape t = [b; same_dim h st; same_dim w st; Some oc]
    /\ fs <> 0 /\ oc <> 0 /\ 0 < st.
Proof.
  intros H. pose proof H as H0. unfold conv in H.
  apply scope_ok in H. destruct H as (gl & H & ->).
  step_lift H as q1 E1. inv_truediv E1.
  step_lift H as q2 E2. inv_truediv E2.
  step_lift H as q3 E3. inv_truediv E3.
  step_lift H as c Ec.
  step_bind H as W gv EW.
  pose proof (get_variable_shape _ _ _ _ _ _ _ _ EW) as Sh.
  simpl in Sh. destruct c as [c|]; [|discriminate]. simpl in Sh. inversion Sh as [Sh'].
  pose proof (get_variable_inv _ _ _ _ _ _ _ _ EW) as (N & _).
  pose proof (get_variable_found _ _ _ _ _ _ _ _ EW) as (Fd & _).
  step_bind H as regs gr Er. unfold tf_get_collection in Er. inversion Er; subst; clear Er.
  step_bind H as u gu Eu. apply register_weight_run in Eu. subst gu.
  apply lift_ok in H. destruct H as [H ->].
  unfold tf_nn_conv2d in H. apply checked_ok in H. destruct H as [-> (s & Hs)].
  cbn [variable_scope set_scope] in N, Fd. rewrite <- app_assoc in N. cbn [app] in N.
  cbn [get_shape] in Hs. rewrite <- Sh' in Hs.
  unfold conv2d_shape in Hs.
  destruct (get_shape x) as [|b [|h [|w [|cx [|]]]]] eqn:Hx; try discriminate.
  cbn [map] in Hs.
  destruct (dims_compatible cx (Some c) && (0 <? st) && (0 <? st)) eqn:Cmp;
    [|discriminate].
  apply andb_prop in Cmp. destruct Cmp as [Cmp St2]. apply andb_prop in Cmp.
  destruct Cmp as [_ St1]. apply Z.ltb_lt in St1.
  pose proof (getitem4 b h w cx) as (_ & _ & _ & G3). rewrite G3 in Ec.
  inversion Ec. subst cx.
  exists W, c, b, h, w.
  split; [reflexivity|]. split; [reflexivity|]. split; [exact N|].
  split; [symmetry; exact Sh'|]. split.
  - split.
    + cbn [variables set_scope].
      assert (V : variables (register_weight W gr) = variables gr).
      { unfold register_weight. destruct (contains_variable _ _); reflexivity. }
      rewrite V, N. rewrite <- app_assoc in Fd. exact Fd.
    + apply contains_variable_spec.
      change (get_collection "regularizable_variables"
                (set_scope (variable_scope g) (register_weight W gr)))
        with (get_collection "regularizable_variables" (register_weight W gr)).
      apply register_weight_contains.
  - split; [apply (conv2d_same_shape x W b h w fs c oc st SAME);
            [symmetry; exact Sh'|exact Hx|exact St1]|].
    split; [apply Z.eqb_neq; assumption|]. split; [apply Z.eqb_neq; assumption|exact St1].
Qed.

Lemma bn_variable_shape (nm : string) (x : Tensor) (axes : list Z) (mk : Tensor)
  (init : Initializer) (tr : bool) (g : Graph) (v : tf_Variable) (g' : Graph)
  (c : Z) :
  get_shape mk = [Some c] ->
  tf_get_variable nm (get_shape mk) float32 init tr g = Ok (v, g') ->
  var_shape v = [c].
Proof.
  intros Hs H. apply get_variable_shape in H. rewrite Hs in H. cbn in H.
  inversion H. reflexivity.
Qed.

(** What a [batch_norm] call on a rank-4 input that returns has built, in
    every scope and reuse mode. *)
Lemma batch_norm_returns (x phase : Tensor) (decay : float) (name : string)
  (g : Graph) (t : Tensor) (g' : Graph) (b h w : option Z) (c : Z) :
  batch_norm x phase decay name g = Ok (t, g') ->
  get_shape x = [b; h; w; Some c] ->
  (exists m v o s, t = BatchNormalization x m v o s eps_1e_5)
  /\ get_shape t = [b; h; w; Some c].
Proof.
  intros H Hx.
  assert (Hm : get_shape (MomentsMean x [0; 1; 2]) = [Some c]).
  { cbn [get_shape]. rewrite Hx. reflexivity. }
  assert (Hv : get_shape (MomentsVariance x [0; 1; 2]) = [Some c]).
  { cbn [get_shape]. rewrite Hx. reflexivity. }
  unfold batch_norm in H.
  apply scope_ok in H. destruct H as (gl & H & ->).
  step_lift H as mv Em. unfold tf_nn_moments in Em.
  destruct (reduce_shape (get_shape x) [0; 1; 2]); [|discriminate].
  inversion Em; subst mv; clear Em. cbv beta iota in H.
  step_bind H as mean_avg g1 E1. apply (bn_variable_shape _ x [0; 1; 2] _ _ _ _ _ _ c Hm) in E1.
  step_bind H as variance_avg g2 E2.
  apply (bn_variable_shape _ x [0; 1; 2] _ _ _ _ _ _ c Hv) in E2.
  step_bind H as beta g3 E3. apply (bn_variable_shape _ x [0; 1; 2] _ _ _ _ _ _ c Hm) in E3.
  step_bind H as gamma g4 E4. apply (bn_variable_shape _ x [0; 1; 2] _ _ _ _ _ _ c Hv) in E4.
  step_lift H as m1 F1. step_lift H as m2 F2. step_lift H as m3 F3.
  step_lift H as um F4. step_lift H as v1 F5. step_lift H as v2 F6.
  step_lift H as v3 F7. step_lift H as uv F8.
  step_bind H as u1 g5 A1. step_bind H as u2 g6 A2.
  step_lift H as pred Ep.
  step_lift H as mvs Ec. unfold tf_cond in Ec. inversion Ec; subst mvs; clear Ec.
  cbv beta iota in H. cbn [fst snd] in H.
  apply lift_ok in H. destruct H as [H _].
  unfold tf_nn_batch_normalization in H. apply checked_ok in H. destruct H as [-> _].
  split; [repeat eexists|].
  cbn [get_shape]. rewrite Hx. cbn [get_shape] in Hm, Hv. rewrite Hx in Hm, Hv.
  rewrite Hm, E1, E2, E3, E4. cbn [map]. rewrite !cond_shape_same.
  rewrite batch_normalization_shape_nhwc. reflexivity.
Qed.

Lemma kernel_in_set_scope (sc : list string) (g : Graph) (W : tf_Variable) :
  kernel_in g W -> kernel_in (set_scope sc g) W.
Proof. intros H. exact H. Qed.

Lemma conv_layer_returns (x : Tensor) (fs oc st : Z) (name : string) (g : Graph)
  (t : Tensor) (g' : Graph) (b h w : option Z) (c : Z) :
  conv x fs oc st SAME name g = Ok (t, g') ->
  get_shape x = [b; h; w; Some c] ->
  conv_layer_where (kernel_in g') fs oc st x t
  /\ get_shape t = [b; same_dim h st; same_dim w st; Some oc]
  /\ oc <> 0 /\ extends g g'.
Proof.
  intros H Hx. pose proof (extending_conv _ _ _ _ _ _ _ _ _ H) as X.
  apply conv_returns in H.
  destruct H as (W & c' & b' & h' & w' & Hx' & -> & _ & HW & K & S & _ & Hoc & _).
  rewrite Hx in Hx'. inversion Hx'. subst b' h' w' c'.
  split; [exists W, c; auto|]. split; [exact S|]. split; [exact Hoc|exact X].
Qed.

Lemma bn_relu_returns (x phase : Tensor) (decay : float) (name rname : string)
  (g : Graph) (t : Tensor) (g' : Graph) (b h w : option Z) (c : Z) :
  batch_norm x phase decay name g = Ok (t, g') ->
  get_shape x = [b; h; w; Some c] ->
  bn_relu x (Relu t rname) rname
  /\ get_shape (Relu t rname) = [b; h; w; Some c]
  /\ extends g g'.
Proof.
  intros H Hx. pose proof (extending_batch_norm _ _ _ _ _ _ _ H) as X.
  destruct (batch_norm_returns _ _ _ _ _ _ _ b h w c H Hx) as ((m & v & o & s & ->) & S).
  split; [exists m, v, o, s; reflexivity|]. split; [exact S|exact X].
Qed.

Lemma first_unit_shortcut_returns (filters strides : list Z) (i : Z) (x : Tensor)
  (g : Graph) (sc : Tensor) (g' : Graph) (b h w : option Z) (c fp f s : Z) :
  first_unit_shortcut filters strides i x g = Ok (sc, g') ->
  getitem filters (i - 1) = Ok fp -> getitem filters i = Ok f ->
  getitem strides (i - 1) = Ok s ->
  (fp = f -> s = 1 /\ c = f) ->
  get_shape x = [b; h; w; Some c] ->
  (sc = Identity x \/ conv_layer_where (kernel_in g') 1 f s x sc)
  /\ get_shape sc = [b; same_dim h s; same_dim w s; Some f]
  /\ extends g g'.
Proof.
  intros H Hfp Hf Hs Heq Hx.
  pose proof (extending_first_unit_shortcut _ _ _ _ _ _ _ H) as X.
  unfold first_unit_shortcut in H.
  step_lift H as fp' E1. rewrite Hfp in E1. apply Ok_inj in E1. subst fp'.
  step_lift H as f' E2. rewrite Hf in E2. apply Ok_inj in E2. subst f'.
  destruct (fp =? f) eqn:Ef.
  - apply Z.eqb_eq in Ef. destruct (Heq Ef) as [-> ->].
    step_lift H as s' E3. rewrite Hs in E3. apply Ok_inj in E3. subst s'.
    cbn [Z.eqb Pos.eqb] in H.
    apply lift_ok in H. destruct H as [H _]. unfold tf_identity in H.
    apply Ok_inj in H. subst sc.
    split; [left; reflexivity|]. split; [|exact X].
    cbn [get_shape]. rewrite Hx, !same_dim_1. reflexivity.
  - step_lift H as oc E3. rewrite Hf in E3. apply Ok_inj in E3. subst oc.
    step_lift H as s' E4. rewrite Hs in E4. apply Ok_inj in E4. subst s'.
    destruct (conv_layer_returns _ _ _ _ _ _ _ _ b h w c H Hx) as (C & S & _ & _).
    split; [right; exact C|]. split; [exact S|exact X].
Qed.

Ltac same_item H1 H2 :=
  rewrite H1 in H2; apply Ok_inj in H2.

(** What a first residual unit that returns has built. *)
Lemma first_residual_unit_returns (filters strides : list Z) (phase : Tensor)
  (decay : float) (i : Z) (x : Tensor) (g : Graph) (out : Tensor) (g' : Graph)
  (b h w : option Z) (c fp f s : Z) :
  first_residual_unit filters strides phase decay i x g = Ok (out, g') ->
  getitem filters (i - 1) = Ok fp -> getitem filters i = Ok f ->
  getitem strides (i - 1) = Ok s ->
  (fp = f -> s = 1 /\ c = f) ->
  get_shape x = [b; h; w; Some c] ->
  first_unit_where (kernel_in g') f s x out
  /\ get_shape out = [b; same_dim h s; same_dim w s; Some f]
  /\ f <> 0.
Proof.
  intros H Hfp Hf Hs Heq Hx. unfold first_residual_unit in H.
  apply scope_ok in H. destruct H as (ge & H & ->).
  step_bind H as t1 g1 E1.
  destruct (bn_relu_returns _ _ _ _ "relu_1" _ _ _ b h w c E1 Hx) as (B1 & S1 & _).
  step_lift H as a1 R1. unfold tf_nn_relu in R1. apply Ok_inj in R1. subst a1.
  step_bind H as sc g2 E2.
  destruct (first_unit_shortcut_returns _ _ _ _ _ _ _ b h w c fp f s E2 Hfp Hf Hs Heq S1)
    as (Sc & Ssc & _).
  step_lift H as oc G1. same_item Hf G1. subst oc.
  step_lift H as st G2. same_item Hs G2. subst st.
  step_bind H as c1 g3 E3.
  destruct (conv_layer_returns _ _ _ _ _ _ _ _ b h w c E3 S1) as (C1 & Sc1 & Hf0 & X3).
  step_bind H as t2 g4 E4.
  destruct (bn_relu_returns _ _ _ _ "relu_2" _ _ _ _ _ _ _ E4 Sc1) as (B2 & S2 & X4).
  step_lift H as a2 R2. unfold tf_nn_relu in R2. apply Ok_inj in R2. subst a2.
  step_lift H as oc G3. same_item Hf G3. subst oc.
  step_bind H as c2 g5 E5.
  destruct (conv_layer_returns _ _ _ _ _ _ _ _ _ _ _ _ E5 S2) as (C2 & Sc2 & _ & X5).
  rewrite !same_dim_1 in Sc2.
  apply lift_ok in H. destruct H as [H ->]. unfold tf_add in H.
  apply checked_ok in H. destruct H as [-> _].
  assert (K3 : forall W, kernel_in g3 W -> kernel_in (set_scope (variable_scope g) g5) W).
  { intros W K. apply kernel_in_set_scope.
    exact (kernel_in_extends _ _ _ X5 (kernel_in_extends _ _ _ X4 K)). }
  assert (K2 : forall W, kernel_in g2 W -> kernel_in (set_scope (variable_scope g) g5) W).
  { intros W K. apply K3. exact (kernel_in_extends _ _ _ X3 K). }
  split; [|split; [|exact Hf0]].
  - exists (Relu t1 "relu_1"), c1, (Relu t2 "relu_2"), c2, sc.
    split; [exact B1|]. split; [exact (conv_layer_where_impl _ _ _ _ _ _ _ K3 C1)|].
    split; [exact B2|]. split; [exact C2|]. split; [|reflexivity].
    destruct Sc as [Sc|Sc]; [left; exact Sc|].
    right. exact (conv_layer_where_impl _ _ _ _ _ _ _ K2 Sc).
  - rewrite get_shape_add_same; [exact Ssc|]. rewrite Sc2, Ssc. reflexivity.
Qed.

(** What a further residual unit that returns has built. *)
Lemma further_residual_unit_returns (filters : list Z) (phase : Tensor)
  (decay : float) (i j : Z) (x : Tensor) (g : Graph) (out : Tensor) (g' : Graph)
  (b h w : option Z) (f : Z) :
  further_residual_unit filters phase decay i j x g = Ok (out, g') ->
  getitem filters i = Ok f ->
  get_shape x = [b; h; w; Some f] ->
  further_unit_where (kernel_in g') f x out
  /\ get_shape out = [b; h; w; Some f].
Proof.
  intros H Hf Hx. unfold further_residual_unit in H. cbv zeta in H.
  apply scope_ok in H. destruct H as (ge & H & ->).
  step_bind H as t1 g1 E1.
  destruct (bn_relu_returns _ _ _ _ "relu_1" _ _ _ b h w f E1 Hx) as (B1 & S1 & _).
  step_lift H as a1 R1. unfold tf_nn_relu in R1. apply Ok_inj in R1. subst a1.
  step_lift H as oc G1. same_item Hf G1. subst oc.
  step_bind H as c1 g3 E3.
  destruct (conv_layer_returns _ _ _ _ _ _ _ _ b h w f E3 S1) as (C1 & Sc1 & _ & _).
  rewrite !same_dim_1 in Sc1.
  step_bind H as t2 g4 E4.
  destruct (bn_relu_returns _ _ _ _ "relu_2" _ _ _ _ _ _ _ E4 Sc1) as (B2 & S2 & X4).
  step_lift H as a2 R2. unfold tf_nn_relu in R2. apply Ok_inj in R2. subst a2.
  step_lift H as oc G3. same_item Hf G3. subst oc.
  step_bind H as c2 g5 E5.
  destruct (conv_layer_returns _ _ _ _ _ _ _ _ _ _ _ _ E5 S2) as (C2 & Sc2 & _ & X5).
  rewrite !same_dim_1 in Sc2.
  apply lift_ok in H. destruct H as [H ->]. unfold tf_add in H.
  apply checked_ok in H. destruct H as [-> _].
  assert (K3 : forall W, kernel_in g3 W -> kernel_in (set_scope (variable_scope g) g5) W).
  { intros W K. apply kernel_in_set_scope.
    exact (kernel_in_extends _ _ _ X5 (kernel_in_extends _ _ _ X4 K)). }
  split.
  - exists (Relu t1 "relu_1"), c1, (Relu t2 "relu_2"), c2.
    split; [exact B1|]. split; [exact (conv_layer_where_impl _ _ _ _ _ _ _ K3 C1)|].
    split; [exact B2|]. split; [exact C2|reflexivity].
  - rewrite get_shape_add_same; [exact Hx|]. rewrite Sc2, Hx. reflexivity.
Qed.

Lemma further_units_returns (filters : list Z) (phase : Tensor) (decay : float)
  (i f : Z) (b h w : option Z) :
  getitem filters i = Ok f ->
  forall (js : list Z) (x : Tensor) (g : Graph) (out : Tensor) (g' : Graph),
    for_each js (fun j x => further_residual_unit filters phase decay i j x) x g
    = Ok (out, g') ->
    get_shape x = [b; h; w; Some f] ->
    further_units_where (kernel_in g') (List.length js) f x out
    /\ get_shape out = [b; h; w; Some f]
    /\ extends g g'.
Proof.
  intros Hf. induction js as [|j js IH]; intros x g out g' H Hx; cbn [for_each] in H.
  - unfold ret in H. inversion H. subst. split; [reflexivity|].
    split; [exact Hx|apply extends_refl].
  - step_bind H as mid g1 E.
    pose proof (extending_further_residual_unit _ _ _ _ _ _ _ _ _ E) as X1.
    destruct (further_residual_unit_returns _ _ _ _ _ _ _ _ _ b h w f E Hf Hx) as (U & S).
    destruct (IH _ _ _ _ H S) as (Us & S' & X2).
    split; [|split; [exact S'|exact (extends_trans _ _ _ X1 X2)]].
    cbn [List.length further_units_where]. exists mid. split; [|exact Us].
    apply (further_unit_where_impl (kernel_in g1)); [|exact U].
    intros W K. exact (kernel_in_extends _ _ _ X2 K).
Qed.

(** What a residual block that returns has built: the loop over the
    further units ran on Python 2, [num_residual_units - 1] times. *)
Lemma residual_block_returns (py : Interpreter) (filters strides : list Z)
  (phase : Tensor) (decay : float) (n i : Z) (x : Tensor) (g : Graph)
  (out : Tensor) (g' : Graph) (b h w : option Z) (c fp f s : Z) :
  residual_block py filters strides phase decay n i x g = Ok (out, g') ->
  getitem filters (i - 1) = Ok fp -> getitem filters i = Ok f ->
  getitem strides (i - 1) = Ok s ->
  (fp = f -> s = 1 /\ c = f) ->
  get_shape x = [b; h; w; Some c] ->
  py = Python2
  /\ residual_block_where (kernel_in g') (S (Z.to_nat (n - 1))) f s x out
  /\ get_shape out = [b; same_dim h s; same_dim w s; Some f]
  /\ f <> 0
  /\ extends g g'.
Proof.
  intros H Hfp Hf Hs Heq Hx.
  pose proof (extending_residual_block _ _ _ _ _ _ _ _ _ _ _ H) as X.
  unfold residual_block in H.
  step_bind H as mid g1 E1.
  destruct (first_residual_unit_returns _ _ _ _ _ _ _ _ _ b h w c fp f s E1 Hfp Hf Hs Heq Hx)
    as (U & S1 & Hf0).
  step_lift H as js Ej.
  destruct py; [|discriminate]. cbn [xrange] in Ej. rewrite range_from_1 in Ej.
  apply Ok_inj in Ej. subst js.
  destruct (further_units_returns filters phase decay i f _ _ _ Hf _ _ _ _ _ H S1)
    as (Us & S2 & X2).
  rewrite length_map, length_seq in Us.
  split; [reflexivity|]. split; [|split; [exact S2|split; [exact Hf0|exact X]]].
  exists (Z.to_nat (n - 1)), mid. split; [reflexivity|]. split; [|exact Us].
  apply (first_unit_where_impl (kernel_in g1)); [|exact U].
  intros W K. exact (kernel_in_extends _ _ _ X2 K).
Qed.

Lemma register_weight_variables (W : tf_Variable) (g : Graph) :
  variables (register_weight W g) = variables g.
Proof. unfold register_weight. destruct (contains_variable _ _); reflexivity. Qed.

(** What an [fc] call on a rank-2 input that returns has built. *)
Lemma fc_returns (x : Tensor) (od : Z) (name : string) (g : Graph)
  (t : Tensor) (g' : Graph) (b : option Z) (c : Z) :
  fc x od name g = Ok (t, g') ->
  get_shape x = [b; Some c] ->
  exists W bias,
    t = Add (MatMul x (ReadVar W)) (ReadVar bias)
    /\ var_name W = variable_scope g ++ [name; "W"]
    /\ var_shape W = [c; od]
    /\ kernel_in g' W
    /\ var_name bias = variable_scope g ++ [name; "b"]
    /\ var_shape bias = [od]
    /\ find (has_name (var_name bias)) (variables g') = Some bias
    /\ get_shape t = [b; Some od]
    /\ od <> 0.
Proof.
  intros H Hx. pose proof H as H0. unfold fc in H0.
  apply scope_ok in H0. destruct H0 as (gl & H0 & _).
  step_lift H0 as q1 E1. inv_truediv E1. clear H0.
  apply fc_inv in H.
  destruct H as (W & bias & c' & gv & gb & -> & Gc & NW & SW & Nb & Sb & EW & Eb & ->).
  rewrite Hx in Gc. pose proof (getitem4 b (Some c) b b) as _.
  assert (c' = c).
  { unfold getitem in Gc. cbn in Gc. inversion Gc. reflexivity. }
  subst c'.
  pose proof (get_variable_found _ _ _ _ _ _ _ _ EW) as (FW & _).
  pose proof (get_variable_found _ _ _ _ _ _ _ _ Eb) as (Fb & _).
  pose proof (get_variable_inv _ _ _ _ _ _ _ _ EW) as (_ & ScW & _).
  pose proof (get_variable_inv _ _ _ _ _ _ _ _ Eb) as (_ & _ & _ & Cb & Vb).
  cbn [variable_scope set_scope] in FW, ScW.
  assert (Scr : variable_scope (register_weight W gv) = variable_scope g ++ [name]).
  { unfold register_weight. destruct (contains_variable _ _); simpl; exact ScW. }
  rewrite Scr in Fb.
  rewrite <- app_assoc in FW, Fb. cbn [app] in FW, Fb.
  exists W, bias.
  split; [reflexivity|]. split; [exact NW|]. split; [exact SW|]. split.
  - split.
    + cbn [variables set_scope]. rewrite NW.
      destruct Vb as [(-> & _)|(s & _ & _ & V & _)].
      * rewrite register_weight_variables. exact FW.
      * rewrite V, register_weight_variables. apply find_app_some. exact FW.
    + apply contains_variable_spec.
      change (get_collection "regularizable_variables"
                (set_scope (variable_scope g) gb))
        with (coll_lookup "regularizable_variables" (collections gb)).
      rewrite Cb. apply register_weight_contains.
  - split; [exact Nb|]. split; [exact Sb|]. split.
    + cbn [variables set_scope]. rewrite Nb. exact Fb.
    + split; [|apply Z.eqb_neq; assumption].
      rewrite get_shape_add, get_shape_matmul. cbn [get_shape]. rewrite Hx, SW, Sb.
      cbn [map]. rewrite matmul_shape_ok. cbn [shape_or_scalar].
      rewrite broadcast_shape_matrix_vector. reflexivity.
Qed.

Lemma reshape_flatten_inv (s : Shape) (c : Z) (r : Shape) :
  reshape_shape s [-1; c] = Some r -> 0 <= c.
Proof.
  unfold reshape_shape. cbn [filter negb Z.eqb Pos.eqb].
  destruct (c =? -1) eqn:E1.
  - cbn. intros H. discriminate H.
  - cbn [negb filter forallb]. destruct (0 <=? c) eqn:E2.
    + intros _. apply Z.leb_le. exact E2.
    + cbn. intros H. discriminate H.
Qed.

Lemma Some_inj {A : Type} (a b : A) : Some a = Some b -> a = b.
Proof. intros H. inversion H. reflexivity. Qed.

Lemma for_each_three {A S : Type} (a b c : A) (body : A -> S -> M S) (s : S) (g : Graph)
  (out : S) (g' : Graph) :
  for_each [a; b; c] body s g = Ok (out, g') ->
  exists s1 g1 s2 g2,
    body a s g = Ok (s1, g1) /\ body b s1 g1 = Ok (s2, g2) /\ body c s2 g2 = Ok (out, g').
Proof.
  cbn [for_each]. intros H.
  step_bind H as s1 g1 E1. step_bind H as s2 g2 E2. step_bind H as s3 g3 E3.
  unfold ret in H. inversion H. subst. exists s1, g1, s2, g2. auto.
Qed.

(** What a call of [set_up] that returns has built, whatever the graph and
    the reuse mode it was called in. *)
Lemma set_up_returns (py : Interpreter) (dl : cifar100_input.data_loading)
  (n k : Z) (wd bd : float) (g : Graph) (r : Tensor * Tensor) (g' : Graph)
  (X y phase : Tensor) :
  cifar100_input.load dl = (X, y, phase) ->
  set_up py dl n k wd bd g = Ok (r, g') ->
  exists b h w c x0 x1 x2 feat act W bias,
    py = Python2 /\ 1 <= k
    /\ get_shape X = [b; h; w; Some c]
    /\ conv_layer_where (kernel_in g') 3 16 1 X x0
    /\ residual_block_where (kernel_in g') (S (Z.to_nat (n - 1))) (16 * k) 1 x0 x1
    /\ residual_block_where (kernel_in g') (S (Z.to_nat (n - 1))) (32 * k) 2 x1 x2
    /\ residual_block_where (kernel_in g') (S (Z.to_nat (n - 1))) (64 * k) 2 x2 feat
    /\ get_shape feat
       = [b; same_dim (same_dim h 2) 2; same_dim (same_dim w 2) 2; Some (64 * k)]
    /\ bn_relu feat act "relu"
    /\ get_shape (ReduceMean act (Some [1; 2])) = [b; Some (64 * k)]
    /\ get_shape (Reshape (ReduceMean act (Some [1; 2])) [-1; 64 * k])
       = [b; Some (64 * k)]
    /\ var_name W = variable_scope g ++ ["fully-connected"; "fc"; "W"]
    /\ var_shape W = [64 * k; 100]
    /\ kernel_in g' W
    /\ var_name bias = variable_scope g ++ ["fully-connected"; "fc"; "b"]
    /\ var_shape bias = [100]
    /\ find (has_name (var_name bias)) (variables g') = Some bias
    /\ r = (losses_of y
              (Add (MatMul (Reshape (ReduceMean act (Some [1; 2])) [-1; 64 * k])
                           (ReadVar W))
                   (ReadVar bias)),
            accuracy_of y
              (Add (MatMul (Reshape (ReduceMean act (Some [1; 2])) [-1; 64 * k])
                           (ReadVar W))
                   (ReadVar bias)))
    /\ get_shape (fst r) = [b]
    /\ get_shape act
       = [b; same_dim (same_dim h 2) 2; same_dim (same_dim w 2) 2; Some (64 * k)]
    /\ get_shape (Add (MatMul (Reshape (ReduceMean act (Some [1; 2])) [-1; 64 * k])
                              (ReadVar W))
                      (ReadVar bias))
       = [b; Some 100].
Proof.
  intros Hl H. unfold set_up in H. cbv zeta in H. rewrite Hl in H.
  step_bind H as x0 g0 E0.
  pose proof (conv_returns _ _ _ _ _ _ _ _ E0) as (W0 & c & b & h & w & HX & _).
  destruct (conv_layer_returns _ _ _ _ _ _ _ _ b h w c E0 HX) as (C0 & S0 & _ & X0).
  rewrite !same_dim_1 in S0.
  step_lift H as blocks Eb.
  destruct py; [|discriminate]. cbn in Eb. apply Ok_inj in Eb. subst blocks.
  step_bind H as feat g3 EB.
  apply for_each_three in EB. destruct EB as (x1 & g1 & x2 & g2 & B1 & B2 & B3).
  pose proof (getitem4 16 (16 * k) (32 * k) (64 * k)) as (F0 & F1 & F2 & F3).
  pose proof (getitem3 1 2 2) as (T0 & T1 & T2).
  destruct (residual_block_returns _ _ _ _ _ _ 1 _ _ _ _ b h w 16 16 (16 * k) 1
              B1 F0 F1 T0 ltac:(intros E; split; [reflexivity|exact E]) S0)
    as (_ & R1 & S1 & K1 & X1).
  rewrite !same_dim_1 in S1.
  destruct (residual_block_returns _ _ _ _ _ _ 2 _ _ _ _ _ _ _ (16 * k) (16 * k) (32 * k) 2
              B2 F1 F2 T1 ltac:(intros E; exfalso; lia) S1)
    as (_ & R2 & S2 & K2 & X2).
  destruct (residual_block_returns _ _ _ _ _ _ 3 _ _ _ _ _ _ _ (32 * k) (32 * k) (64 * k) 2
              B3 F2 F3 T2 ltac:(intros E; exfalso; lia) S2)
    as (_ & R3 & S3 & K3 & X3).
  (* the last unit *)
  step_bind H as pooled g4 EL.
  assert (XL : extends g3 g4).
  { match type of EL with
    | ?m g3 = _ => assert (XX : extending m) by extending_layers
    end.
    exact (XX _ _ _ EL). }
  apply scope_ok in EL. destruct EL as (gl & EL & ->).
  step_bind EL as t g4 EL1.
  destruct (bn_relu_returns _ _ _ _ "relu" _ _ _ _ _ _ _ EL1 S3) as (BL & SL & _).
  step_lift EL as act RL. unfold tf_nn_relu in RL. apply Ok_inj in RL. subst act.
  apply lift_ok in EL. destruct EL as [EL ->].
  unfold tf_reduce_mean in EL. apply checked_ok in EL. destruct EL as [-> _].
  assert (SP : get_shape (ReduceMean (Relu t "relu") (Some [1; 2])) = [b; Some (64 * k)]).
  { cbn [get_shape] in SL |- *. rewrite SL. reflexivity. }
  (* the fully-connected layer *)
  step_bind H as logits g5 EF.
  assert (XF : extends (set_scope (variable_scope g3) g4) g5).
  { match type of EF with
    | ?m _ = _ => assert (XX : extending m) by (cbv zeta; extending_layers)
    end.
    exact (XX _ _ _ EF). }
  apply scope_ok in EF. destruct EF as (gf & EF & ->). cbv zeta in EF.
  step_lift EF as d1 Ed. rewrite SP in Ed.
  pose proof (getitem4 b (Some (64 * k)) b b) as _.
  assert (d1 = Some (64 * k)).
  { unfold getitem in Ed. cbn in Ed. inversion Ed. reflexivity. }
  subst d1.
  step_lift EF as flat ER. unfold tf_reshape in ER. cbn [forallb andb map] in ER.
  apply checked_ok in ER. destruct ER as [-> (sr & ER)].
  apply reshape_flatten_inv in ER.
  assert (Hk : 1 <= k) by lia.
  assert (SR : get_shape (Reshape (ReduceMean (Relu t "relu") (Some [1; 2])) [-1; 64 * k])
               = [b; Some (64 * k)]).
  { cbn [get_shape] in SP |- *. rewrite SP. rewrite reshape_flatten by lia. reflexivity. }
  cbn [variable_scope set_scope] in EF.
  pose proof (extends_trans _ _ _ X0 (extends_trans _ _ _ X1 (extends_trans _ _ _ X2 X3)))
    as X03.
  destruct (fc_returns _ _ _ _ _ _ b (64 * k) EF SR)
    as (W & bias & -> & NW & SW & KW & Nb & Sb & Fb & SLg & _).
  cbn [variable_scope set_scope] in NW, Nb.
  rewrite (ex_scope _ _ X03) in NW, Nb.
  rewrite <- app_assoc in NW, Nb. cbn [app] in NW, Nb.
  (* losses, weight decay, accuracy *)
  step_lift H as ls El. unfold tf_nn_softmax_cross_entropy_with_logits_v2 in El.
  apply checked_ok in El. destruct El as [-> (sl & El)].
  step_bind H as regs g6 Er. unfold tf_get_collection in Er. inversion Er; subst regs g6.
  clear Er.
  step_bind H as u g7 E7. destruct u.
  assert (X7 : extends (set_scope (variable_scope g3) gf) g7).
  { refine (extending_for_each _ _ _ _ _ _ _ E7). intros.
    apply extending_add_weight_decay. }
  step_lift H as yp Ep. unfold tf_argmax in Ep. apply checked_ok in Ep.
  destruct Ep as [-> _].
  step_lift H as yc Ec. unfold tf_argmax in Ec. apply checked_ok in Ec.
  destruct Ec as [-> _].
  step_lift H as cp Ecp. unfold tf_equal in Ecp. apply checked_ok in Ecp.
  destruct Ecp as [-> _].
  step_lift H as cc Ecc. unfold tf_cast in Ecc. apply Ok_inj in Ecc. subst cc.
  step_lift H as acc Ea. unfold tf_reduce_mean in Ea. apply Ok_inj in Ea. subst acc.
  unfold ret in H. apply Ok_inj in H. apply pair_equal_spec in H.
  destruct H as [<- ->].
  (* kernels are kernels of the final graph *)
  assert (KF : forall V, kernel_in (set_scope (variable_scope g3) gf) V -> kernel_in g' V).
  { intros V K. exact (kernel_in_extends _ _ _ X7 K). }
  assert (K4 : forall V, kernel_in g3 V -> kernel_in g' V).
  { intros V K. apply KF. apply (kernel_in_extends _ _ _ XF).
    exact (kernel_in_extends _ _ _ XL K). }
  assert (K2' : forall V, kernel_in g2 V -> kernel_in g' V).
  { intros V K. apply K4. exact (kernel_in_extends _ _ _ X3 K). }
  assert (K1' : forall V, kernel_in g1 V -> kernel_in g' V).
  { intros V K. apply K2'. exact (kernel_in_extends _ _ _ X2 K). }
  assert (K0' : forall V, kernel_in g0 V -> kernel_in g' V).
  { intros V K. apply K1'. exact (kernel_in_extends _ _ _ X1 K). }
  exists b, h, w, c, x0, x1, x2, feat, (Relu t "relu"), W, bias.
  split; [reflexivity|]. split; [exact Hk|]. split; [exact HX|].
  split; [exact (conv_layer_where_impl _ _ _ _ _ _ _ K0' C0)|].
  split; [exact (residual_block_where_impl _ _ _ _ _ _ _ K1' R1)|].
  split; [exact (residual_block_where_impl _ _ _ _ _ _ _ K2' R2)|].
  split; [exact (residual_block_where_impl _ _ _ _ _ _ _ K4 R3)|].
  split; [exact S3|]. split; [exact BL|]. split; [exact SP|]. split; [exact SR|].
  split; [exact NW|]. split; [exact SW|]. split; [exact (KF _ KW)|].
  split; [exact Nb|]. split; [exact Sb|]. split.
  - destruct X7 as [_ _ (vs & V & _) _ _]. rewrite V. apply find_app_some. exact Fb.
  - split; [reflexivity|]. split; [|split; [exact SL|exact SLg]].
    cbn [fst]. unfold losses_of.
    change (get_shape (SoftmaxCrossEntropyWithLogitsV2 y
              (Add (MatMul (Reshape (ReduceMean (Relu t "relu") (Some [1; 2])) [-1; 64 * k])
                      (ReadVar W)) (ReadVar bias))))
      with (shape_or_scalar
              (softmax_cross_entropy_shape (get_shape y)
                 (get_shape
                    (Add (MatMul (Reshape (ReduceMean (Relu t "relu") (Some [1; 2]))
                                    [-1; 64 * k]) (ReadVar W)) (ReadVar bias))))).
    rewrite SLg in El |- *. unfold softmax_cross_entropy_shape in El |- *.
    match type of El with
    | ?L = _ => change (shape_or_scalar L = [b])
    end.
    rewrite El. cbn [shape_or_scalar].
    destruct (broadcast_shape _ _) in El; [|discriminate El].
    apply Some_inj in El. symmetry. exact El.
Qed.

Lemma get_variable_obtained (name : string) (shape : Shape) (dtype : DType)
  (init : Initializer) (tr : bool) (g : Graph) (v : tf_Variable) (g' : Graph) :
  tf_get_variable name shape dtype init tr g = Ok (v, g') ->
  obtained g (variable_scope g ++ [name]) init tr v
  /\ scope_reuse g' = scope_reuse g
  /\ variable_scope g' = variable_scope g
  /\ incl (variables g) (variables g')
  /\ (forall u, In u (variables g') ->
                In u (variables g) \/ var_name u = variable_scope g ++ [name]).
Proof.
  intros H. apply get_variable_inv in H.
  destruct H as (N & Sc & Re & _ & [(-> & I & NR)|(s & _ & E & W & F)]).
  - split; [split; [exact N|right; split; assumption]|].
    split; [reflexivity|]. split; [reflexivity|].
    split; [apply incl_refl|]. intros u Hu. left. exact Hu.
  - split.
    + split; [exact N|]. left. split; [exact F|]. rewrite E. split; reflexivity.
    + split; [exact Re|]. split; [exact Sc|]. rewrite W. split.
      * apply incl_appl, incl_refl.
      * intros u Hu. apply in_app_or in Hu. destruct Hu as [Hu|[<-|[]]].
        -- left. exact Hu.
        -- right. exact N.
Qed.

Lemma obtained_earlier (g g1 : Graph) (name : list string) (init : Initializer)
  (tr : bool) (v : tf_Variable) :
  scope_reuse g1 = scope_reuse g ->
  incl (variables g) (variables g1) ->
  (forall u, In u (variables g1) -> In u (variables g) \/ var_name u <> name) ->
  obtained g1 name init tr v -> obtained g name init tr v.
Proof.
  intros Re I B (N & [(F & Hi & Ht)|(NR & Hv)]); split; try exact N.
  - left. split; [|split; assumption]. intros C. apply F.
    unfold names in *. apply in_map_iff in C. destruct C as (u & Hu & C).
    apply in_map_iff. exists u. split; [exact Hu|]. apply I. exact C.
  - right. rewrite Re in NR. split; [exact NR|].
    destruct (B v Hv) as [Hg|C]; [exact Hg|]. contradiction.
Qed.

Lemma snoc_name_neq (scope : list string) (a b : string) :
  a <> b -> scope ++ [a] <> scope ++ [b].
Proof.
  intros N C. apply app_inv_head in C. inversion C. contradiction.
Qed.

Lemma batch_norm_obtains (x phase : Tensor) (decay : float) (name : string)
  (g : Graph) (t : Tensor) (g' : Graph) :
  batch_norm x phase decay name g = Ok (t, g') ->
  exists mean_avg variance_avg beta gamma,
    t = BatchNormalization x
          (bn_select phase (MomentsMean x [0; 1; 2]) (ReadVar mean_avg))
          (bn_select phase (MomentsVariance x [0; 1; 2]) (ReadVar variance_avg))
          (ReadVar beta) (ReadVar gamma) eps_1e_5
    /\ obtained g (variable_scope g ++ [name; "mean_avg"]) zeros_initializer false mean_avg
    /\ obtained g (variable_scope g ++ [name; "std_avg"]) ones_initializer false
         variance_avg
    /\ obtained g (variable_scope g ++ [name; "beta"]) zeros_initializer true beta
    /\ obtained g (variable_scope g ++ [name; "gamma"]) ones_initializer true gamma.
Proof.
  unfold batch_norm. intros H.
  apply scope_ok in H. destruct H as (gl & H & ->).
  inv_bind H. inv_lift E. destruct a as [mean_batch variance_batch].
  unfold tf_nn_moments in E.
  destruct (reduce_shape (get_shape x) [0; 1; 2]) as [s|] eqn:RS; [|discriminate].
  inversion E; subst; clear E.
  inv_bind H. rename a into mean_avg. apply get_variable_obtained in E.
  destruct E as (O1 & Re1 & Sc1 & I1 & B1).
  inv_bind H. rename a into variance_avg. apply get_variable_obtained in E.
  destruct E as (O2 & Re2 & Sc2 & I2 & B2).
  inv_bind H. rename a into beta. apply get_variable_obtained in E.
  destruct E as (O3 & Re3 & Sc3 & I3 & B3).
  inv_bind H. rename a into gamma. apply get_variable_obtained in E.
  destruct E as (O4 & Re4 & Sc4 & I4 & B4).
  inv_bind H. inv_lift E. unfold tf_multiply in E. inv_checked E.
  inv_bind H. inv_lift E. unfold tf_multiply in E. inv_checked E.
  inv_bind H. inv_lift E. unfold tf_add in E. inv_checked E.
  inv_bind H. inv_lift E. unfold assign in E. inv_checked E.
  inv_bind H. inv_lift E. unfold tf_multiply in E. inv_checked E.
  inv_bind H. inv_lift E. unfold tf_multiply in E. inv_checked E.
  inv_bind H. inv_lift E. unfold tf_add in E. inv_checked E.
  inv_bind H. inv_lift E. unfold assign in E. inv_checked E.
  inv_bind H. unfold tf_add_to_collection in E. inversion E; subst; clear E.
  inv_bind H. unfold tf_add_to_collection in E. inversion E; subst; clear E.
  inv_bind H. inv_lift E. unfold tf_equal in E. inv_checked E.
  inv_bind H. inv_lift E. unfold tf_cond in E. inversion E; subst; clear E.
  inv_lift H. unfold tf_nn_batch_normalization in H. inv_checked H.
  rewrite Sc3, Sc2, Sc1 in O4. rewrite Sc2, Sc1 in O3, B3. rewrite Sc1 in O2, B2.
  rewrite Re3, Re2, Re1 in *. 
  cbn [set_scope variable_scope variables scope_reuse] in *.
  repeat rewrite <- app_assoc in *. cbn [app] in *.
  exists mean_avg, variance_avg, beta, gamma.
  split; [reflexivity|].
  split; [exact O1|].
  assert (N : forall a b : string, a <> b ->
            variable_scope g ++ [name; a] <> variable_scope g ++ [name; b]).
  { intros a b Hab C. apply app_inv_head in C. inversion C. contradiction. }
  split.
  { refine (obtained_earlier _ g0 _ _ _ _ _ I1 _ O2).
    - exact Re1.
    - intros u Hu. destruct (B1 u Hu) as [Hg|Hn]; [left; exact Hg|].
      right. rewrite Hn. apply N. discriminate. }
  split.
  { refine (obtained_earlier _ g1 _ _ _ _ _ (incl_tran I1 I2) _ O3).
    - exact Re2.
    - intros u Hu. destruct (B2 u Hu) as [Hg|Hn].
      + destruct (B1 u Hg) as [Hg'|Hn]; [left; exact Hg'|].
        right. rewrite Hn. apply N. discriminate.
      + right. rewrite Hn. apply N. discriminate. }
  refine (obtained_earlier _ g2 _ _ _ _ _ (incl_tran I1 (incl_tran I2 I3)) _ O4).
  - exact Re3.
  - intros u Hu. destruct (B3 u Hu) as [Hg|Hn].
    + destruct (B2 u Hg) as [Hg'|Hn].
      * destruct (B1 u Hg') as [Hg''|Hn]; [left; exact Hg''|].
        right. rewrite Hn. apply N. discriminate.
      * right. rewrite Hn. apply N. discriminate.
    + right. rewrite Hn. apply N. discriminate.
Qed.

(** C10 (amended): in every batch norm layer each of the four variables
    is either created by the layer, and then as stated -- the moving mean
    with zeros and the moving variance with ones, both not trainable, beta
    with zeros and gamma with ones, both trainable -- or, in a reusing
    variable scope only, it is the variable of that name which the graph
    already had.  The layer normalises with offset beta, scale gamma and
    epsilon 1e-5.  In a non-reusing scope (the default, which the module
    never changes) the layer creates all four. *)
Theorem batch_norm_variables_created_or_shared
  (x phase : Tensor) (decay : float) (name : string) (g : Graph) (t : Tensor) (g' : Graph) :
  batch_norm x phase decay name g = Ok (t, g') ->
  exists mean_avg variance_avg beta gamma,
    t = BatchNormalization x
          (bn_select phase (MomentsMean x [0; 1; 2]) (ReadVar mean_avg))
          (bn_select phase (MomentsVariance x [0; 1; 2]) (ReadVar variance_avg))
          (ReadVar beta) (ReadVar gamma) eps_1e_5
    /\ eps_1e_5 = (1 / 100000)%float
    /\ obtained g (variable_scope g ++ [name; "mean_avg"]) zeros_initializer false mean_avg
    /\ obtained g (variable_scope g ++ [name; "std_avg"]) ones_initializer false
         variance_avg
    /\ obtained g (variable_scope g ++ [name; "beta"]) zeros_initializer true beta
    /\ obtained g (variable_scope g ++ [name; "gamma"]) ones_initializer true gamma
    /\ (scope_reuse g = reuse_False ->
        variables g' = variables g ++ [mean_avg; variance_avg; beta; gamma]
        /\ var_initializer mean_avg = zeros_initializer /\ var_trainable mean_avg = false
        /\ var_initializer variance_avg = ones_initializer
        /\ var_trainable variance_avg = false
        /\ var_initializer beta = zeros_initializer /\ var_trainable beta = true
        /\ var_initializer gamma = ones_initializer /\ var_trainable gamma = true).
Proof.
  intros H.
  pose proof (batch_norm_obtains _ _ _ _ _ _ _ H) as (m & v & b & ga & Ht & O1 & O2 & O3 & O4).
  apply batch_norm_inv in H.
  destruct H as (mean_avg & variance_avg & beta & gamma & Ht' & _ & _ & _ & _ & _ & _
                 & _ & V & _).
  rewrite Ht in Ht'. unfold bn_select in Ht'. inversion Ht'. subst.
  exists mean_avg, variance_avg, beta, gamma.
  split; [reflexivity|]. split; [vm_compute; reflexivity|].
  split; [exact O1|]. split; [exact O2|]. split; [exact O3|]. split; [exact O4|].
  intros RF. destruct (V RF) as (s & _ & sh & _ & E1 & E2 & E3 & E4 & W).
  split; [exact W|].
  rewrite E1, E2, E3, E4. cbn. repeat split; reflexivity.
Qed.

Lemma batch_norm_variables_created_or_shared_witness :
  exists t g',
    batch_norm example_x example_phase decay_0_9 "bn_1" empty_graph = Ok (t, g')
    /\ exists mean_avg variance_avg beta gamma,
         t = BatchNormalization example_x
               (bn_select example_phase (MomentsMean example_x [0; 1; 2])
                  (ReadVar mean_avg))
               (bn_select example_phase (MomentsVariance example_x [0; 1; 2])
                  (ReadVar variance_avg))
               (ReadVar beta) (ReadVar gamma) eps_1e_5
         /\ eps_1e_5 = (1 / 100000)%float
         /\ obtained empty_graph (variable_scope empty_graph ++ ["bn_1"; "mean_avg"])
              zeros_initializer false mean_avg
         /\ obtained empty_graph (variable_scope empty_graph ++ ["bn_1"; "std_avg"])
              ones_initializer false variance_avg
         /\ obtained empty_graph (variable_scope empty_graph ++ ["bn_1"; "beta"])
              zeros_initializer true beta
         /\ obtained empty_graph (variable_scope empty_graph ++ ["bn_1"; "gamma"])
              ones_initializer true gamma
         /\ (scope_reuse empty_graph = reuse_False ->
             variables g' = variables empty_graph ++ [mean_avg; variance_avg; beta; gamma]
             /\ var_initializer mean_avg = zeros_initializer
             /\ var_trainable mean_avg = false
             /\ var_initializer variance_avg = ones_initializer
             /\ var_trainable variance_avg = false
             /\ var_initializer beta = zeros_initializer /\ var_trainable beta = true
             /\ var_initializer gamma = ones_initializer /\ var_trainable gamma = true).
Proof.
  eexists. eexists. split.
  - vm_compute. reflexivity.
  - apply (batch_norm_variables_created_or_shared example_x example_phase decay_0_9 "bn_1"
             empty_graph).
    vm_compute. reflexivity.
Defined.

Lemma batch_norm_shares_existing_moving_mean :
  exists t g' mean_avg variance offset scale,
    batch_norm example_x example_phase decay_0_9 "bn_1" shared_mean_graph = Ok (t, g')
    /\ t = BatchNormalization example_x
             (bn_select example_phase (MomentsMean example_x [0; 1; 2]) (ReadVar mean_avg))
             variance offset scale eps_1e_5
    /\ var_name mean_avg = variable_scope shared_mean_graph ++ ["bn_1"; "mean_avg"]
    /\ var_initializer mean_avg = ones_initializer
    /\ var_trainable mean_avg = true.
Proof.
  do 6 eexists. split; [vm_compute; reflexivity|].
  split; [vm_compute; reflexivity|].
  split; [reflexivity|]. split; reflexivity.
Defined.

Lemma kernel_in_variable_of (g : Graph) (V : tf_Variable) :
  kernel_in g V -> variable_of g V.
Proof.
  intros [F _]. apply find_some in F. exact (proj1 F).
Qed.

(** C4: for [n >= 1] and [k >= 1], whenever [set_up] returns, what it has
    built is a 3x3 stride-1 convolution of the images to 16 channels
    followed by exactly three residual blocks with 16k, 32k and 64k output
    channels and first-unit strides 1, 2 and 2; each block has exactly [n]
    units (one first unit and [n - 1] further units) and every unit ends in
    the addition of its shortcut to its residual branch.  The kernels are
    variables of the resulting graph, and both outputs are computed from the
    output of the third block. *)
Theorem set_up_builds_wide_residual_network
  (py : Interpreter) (dl : cifar100_input.data_loading) (n k : Z) (wd bd : float)
  (g : Graph) (r : Tensor * Tensor) (g' : Graph) (X y phase : Tensor) :
  1 <= n -> 1 <= k ->
  cifar100_input.load dl = (X, y, phase) ->
  set_up py dl n k wd bd g = Ok (r, g') ->
  exists x0 x1 x2 feat act W bias,
    conv_layer_where (variable_of g') 3 16 1 X x0
    /\ residual_block_where (variable_of g') (Z.to_nat n) (16 * k) 1 x0 x1
    /\ residual_block_where (variable_of g') (Z.to_nat n) (32 * k) 2 x1 x2
    /\ residual_block_where (variable_of g') (Z.to_nat n) (64 * k) 2 x2 feat
    /\ bn_relu feat act "relu"
    /\ r = (losses_of y (logits_of act (64 * k) W bias),
            accuracy_of y (logits_of act (64 * k) W bias)).
Proof.
  intros Hn Hk Hl H.
  destruct (set_up_returns _ _ _ _ _ _ _ _ _ _ _ _ Hl H)
    as (b & h & w & c & x0 & x1 & x2 & feat & act & W & bias & _ & _ & _ & C0 & B1 & B2
        & B3 & _ & A & _ & _ & _ & _ & _ & _ & _ & _ & Hr & _).
  replace (S (Z.to_nat (n - 1))) with (Z.to_nat n) in B1, B2, B3 by lia.
  exists x0, x1, x2, feat, act, W, bias.
  split; [exact (conv_layer_where_impl _ _ _ _ _ _ _ (kernel_in_variable_of g') C0)|].
  split; [exact (residual_block_where_impl _ _ _ _ _ _ _ (kernel_in_variable_of g') B1)|].
  split; [exact (residual_block_where_impl _ _ _ _ _ _ _ (kernel_in_variable_of g') B2)|].
  split; [exact (residual_block_where_impl _ _ _ _ _ _ _ (kernel_in_variable_of g') B3)|].
  split; [exact A|exact Hr].
Qed.

Lemma set_up_builds_wide_residual_network_witness :
  1 <= 4 /\ 1 <= 10
  /\ exists r g',
       set_up Python2 (cifar100_loader 128) 4 10 weight_decay_5e_4 decay_0_9 empty_graph
       = Ok (r, g')
       /\ exists x0 x1 x2 feat act W bias,
            conv_layer_where (variable_of g') 3 16 1
              (DataTensor "X" [Some 128; Some 32; Some 32; Some 3] float32) x0
            /\ residual_block_where (variable_of g') (Z.to_nat 4) (16 * 10) 1 x0 x1
            /\ residual_block_where (variable_of g') (Z.to_nat 4) (32 * 10) 2 x1 x2
            /\ residual_block_where (variable_of g') (Z.to_nat 4) (64 * 10) 2 x2 feat
            /\ bn_relu feat act "relu"
            /\ r = (losses_of (DataTensor "y" [Some 128; Some 100] float32)
                      (logits_of act (64 * 10) W bias),
                    accuracy_of (DataTensor "y" [Some 128; Some 100] float32)
                      (logits_of act (64 * 10) W bias)).
Proof.
  split; [lia|]. split; [lia|].
  destruct (set_up_ok (cifar100_loader 128) 4 10 weight_decay_5e_4 decay_0_9 _ _ _
              (Some 128) (Some 32) (Some 32) 3 empty_graph
              eq_refl eq_refl eq_refl ltac:(lia) ready_empty_graph eq_refl)
    as (x1 & x2 & feat & g' & vsb & upsb & R & _).
  eexists. exists g'. split; [exact R|].
  exact (set_up_builds_wide_residual_network Python2 (cifar100_loader 128) 4 10
           weight_decay_5e_4 decay_0_9 empty_graph _ g' _ _ _
           ltac:(lia) ltac:(lia) eq_refl R).
Defined.

(** C6: whenever [set_up] returns, the head it has built takes the
    activation of the last unit (batch, height, width, 64k channels), means
    it over the two spatial axes 1 and 2, reshapes the result to the two
    dimensions (batch, 64k), applies a fully connected layer -- a matrix
    product with a (64k, 100) weight plus a bias of 100 entries -- giving
    (batch, 100) logits, and takes the softmax cross entropy of the labels
    and these logits; the losses have the shape (batch), one entry per data
    point, where batch is the first dimension of the images. *)
Theorem set_up_head_pools_flattens_classifies
  (py : Interpreter) (dl : cifar100_input.data_loading) (n k : Z) (wd bd : float)
  (g : Graph) (r : Tensor * Tensor) (g' : Graph) (X y phase : Tensor) :
  cifar100_input.load dl = (X, y, phase) ->
  set_up py dl n k wd bd g = Ok (r, g') ->
  exists batch height width channels rows columns x2 feat act W bias,
    get_shape X = [batch; rows; columns; channels]
    /\ residual_block_where (variable_of g') (S (Z.to_nat (n - 1))) (64 * k) 2 x2 feat
    /\ bn_relu feat act "relu"
    /\ get_shape act = [batch; height; width; Some (64 * k)]
    /\ get_shape (ReduceMean act (Some [1; 2])) = [batch; Some (64 * k)]
    /\ get_shape (Reshape (ReduceMean act (Some [1; 2])) [-1; 64 * k])
       = [batch; Some (64 * k)]
    /\ var_shape W = [64 * k; 100]
    /\ var_shape bias = [100]
    /\ get_shape (logits_of act (64 * k) W bias) = [batch; Some 100]
    /\ fst r = SoftmaxCrossEntropyWithLogitsV2 y (logits_of act (64 * k) W bias)
    /\ get_shape (fst r) = [batch].
Proof.
  intros Hl H.
  destruct (set_up_returns _ _ _ _ _ _ _ _ _ _ _ _ Hl H)
    as (b & h & w & c & x0 & x1 & x2 & feat & act & W & bias & _ & _ & HX & _ & _ & _
        & B3 & _ & A & SP & SR & _ & SW & _ & _ & Sb & _ & Hr & SL & SA & SG).
  exists b, (same_dim (same_dim h 2) 2), (same_dim (same_dim w 2) 2), (Some c), h, w,
    x2, feat, act, W, bias.
  split; [exact HX|].
  split; [exact (residual_block_where_impl _ _ _ _ _ _ _ (kernel_in_variable_of g') B3)|].
  split; [exact A|]. split; [exact SA|]. split; [exact SP|]. split; [exact SR|].
  split; [exact SW|]. split; [exact Sb|]. split; [exact SG|].
  split; [rewrite Hr; reflexivity|exact SL].
Qed.

Lemma set_up_head_pools_flattens_classifies_witness :
  exists r g',
    set_up Python2 (cifar100_loader 128) 4 10 weight_decay_5e_4 decay_0_9 empty_graph
    = Ok (r, g')
    /\ exists batch height width channels rows columns x2 feat act W bias,
         get_shape (DataTensor "X" [Some 128; Some 32; Some 32; Some 3] float32)
         = [batch; rows; columns; channels]
         /\ residual_block_where (variable_of g') (S (Z.to_nat (4 - 1))) (64 * 10) 2 x2 feat
         /\ bn_relu feat act "relu"
         /\ get_shape act = [batch; height; width; Some (64 * 10)]
         /\ get_shape (ReduceMean act (Some [1; 2])) = [batch; Some (64 * 10)]
         /\ get_shape (Reshape (ReduceMean act (Some [1; 2])) [-1; 64 * 10])
            = [batch; Some (64 * 10)]
         /\ var_shape W = [64 * 10; 100]
         /\ var_shape bias = [100]
         /\ get_shape (logits_of act (64 * 10) W bias) = [batch; Some 100]
         /\ fst r = SoftmaxCrossEntropyWithLogitsV2
                      (DataTensor "y" [Some 128; Some 100] float32)
                      (logits_of act (64 * 10) W bias)
         /\ get_shape (fst r) = [batch].
Proof.
  destruct (set_up_ok (cifar100_loader 128) 4 10 weight_decay_5e_4 decay_0_9 _ _ _
              (Some 128) (Some 32) (Some 32) 3 empty_graph
              eq_refl eq_refl eq_refl ltac:(lia) ready_empty_graph eq_refl)
    as (x1 & x2 & feat & g' & vsb & upsb & R & _).
  eexists. exists g'. split; [exact R|].
  exact (set_up_head_pools_flattens_classifies Python2 (cifar100_loader 128) 4 10
           weight_decay_5e_4 decay_0_9 empty_graph _ g' _ _ _ eq_refl R).
Defined.

Lemma size_ok_nonzero (z : Z) : size_ok z -> z <> 0.
Proof. unfold size_ok. lia. Qed.

Lemma size_ok_positive (z : Z) : size_ok z -> 0 < z.
Proof. unfold size_ok. lia. Qed.

(** X1: on a Python 2 interpreter with TensorFlow 1 in graph mode, the
    class can be constructed in a graph without variables whenever the
    data loader returns [float32] images of rank four with a known channel
    count, [float32] one-hot labels over 100 classes for the same batch and
    a scalar string phase, the width [k] is between 1 and 512 and the
    number of residual units is a C long of at most 1024 (any value below 1
    builds one unit per block): [get()] then returns losses with one entry
    per data point and a scalar accuracy, and the variable scope is back at
    the top level. *)
Theorem construction_succeeds_on_python2
  (cifar100_input_data_loading : Z -> cifar100_input.data_loading)
  (batch_size n k : Z) (wd bd : float) (X y phase : Tensor) (b h w : option Z) (c : Z)
  (g : Graph) :
  cifar100_input.load (cifar100_input_data_loading batch_size) = (X, y, phase) ->
  feature_maps X b h w c ->
  label_batch y b ->
  phase_tensor phase ->
  units_ok n ->
  1 <= k -> size_ok (64 * k) ->
  ready g -> variables g = [] ->
  exists self g',
    __init__ Python2 cifar100_input_data_loading batch_size n k wd bd g = Ok (self, g')
    /\ data_loading self = cifar100_input_data_loading batch_size
    /\ get_shape (fst (get self)) = [b]
    /\ get_shape (snd (get self)) = []
    /\ ready g'.
Proof.
  intros Hl (HX & _) (Hy & _) _ _ Hk _ Rd Hv.
  destruct (set_up_ok _ n k wd bd X y phase b h w c g Hl HX Hy Hk Rd Hv)
    as (x1 & x2 & feat & g' & vsb & upsb & R & _ & _ & _ & Sf & Rd' & _).
  assert (Hc : 0 < 64 * k) by lia.
  destruct (classifier_logits_shape feat phase _ _ _ (64 * k) Sf Hc) as [_ Slog].
  eexists. exists g'. split.
  - unfold __init__. eapply runs_bind; [exact R|]. apply runs_ret.
  - cbn [data_loading get losses accuracy fst snd].
    split; [reflexivity|]. split; [exact (losses_shape _ _ _ Hy Slog)|].
    split; [reflexivity|exact Rd'].
Qed.

Lemma construction_succeeds_on_python2_witness :
  exists self g',
    __init__ Python2 cifar100_loader 128 4 10 weight_decay_5e_4 decay_0_9 empty_graph
    = Ok (self, g')
    /\ data_loading self = cifar100_loader 128
    /\ get_shape (fst (get self)) = [Some 128]
    /\ get_shape (snd (get self)) = []
    /\ ready g'.
Proof.
  apply (construction_succeeds_on_python2 cifar100_loader 128 4 10 weight_decay_5e_4
           decay_0_9 _ _ _ (Some 128) (Some 32) (Some 32) 3 empty_graph eq_refl).
  - unfold feature_maps, dim_ok, size_ok, max_size. cbn. repeat split; lia.
  - split; reflexivity.
  - split; reflexivity.
  - unfold units_ok. lia.
  - lia.
  - unfold size_ok, max_size. lia.
  - exact ready_empty_graph.
  - reflexivity.
Defined.

Lemma set_up_fresh_returns (py : Interpreter) (dl : cifar100_input.data_loading)
  (n k : Z) (wd bd : float) (X y phase : Tensor) (b h w : option Z) (c : Z)
  (g : Graph) (r : Tensor * Tensor) (g' : Graph) :
  cifar100_input.load dl = (X, y, phase) ->
  get_shape X = [b; h; w; Some c] ->
  get_shape y = [b; Some 100] ->
  ready g -> variables g = [] ->
  set_up py dl n k wd bd g = Ok (r, g') ->
  exists x1 x2 feat vsb upsb,
    ready g'
    /\ variables g'
       = [conv_kernel ["conv_0"] 3 c 16] ++ vsb
         ++ bn_variables ["unit_last"; "batch_norm"] (64 * k)
         ++ [fc_weight ["fully-connected"; "fc"] (64 * k) 100;
             fc_bias ["fully-connected"; "fc"] 100]
    /\ List.length vsb
       = ((if (16 =? 16 * k)%Z then 10 else 11) + 22 + 30 * Z.to_nat (n - 1))%nat
    /\ List.length (filter is_weight vsb)
       = ((if (16 =? 16 * k)%Z then 2 else 3) + 6 + 6 * Z.to_nat (n - 1))%nat
    /\ get_collection tf_GraphKeys_UPDATE_OPS g'
       = get_collection tf_GraphKeys_UPDATE_OPS g
         ++ map ITensor
              (upsb ++ bn_updates ["unit_last"; "batch_norm"] (64 * k) feat bd)
    /\ List.length upsb = (12 + 12 * Z.to_nat (n - 1))%nat
    /\ get_collection tf_GraphKeys_REGULARIZATION_LOSSES g'
       = get_collection tf_GraphKeys_REGULARIZATION_LOSSES g
         ++ map (weight_decay_term wd) (filter is_weight (variables g'))
    /\ residual_block_of (Z.to_nat (n - 1)) (16 * k) 1
         (conv_output ["conv_0"] X 3 c 16 1) x1
    /\ residual_block_of (Z.to_nat (n - 1)) (32 * k) 2 x1 x2
    /\ residual_block_of (Z.to_nat (n - 1)) (64 * k) 2 x2 feat.
Proof.
  intros Hl HX Hy Rd Hv H.
  destruct (set_up_returns _ _ _ _ _ _ _ _ _ _ _ _ Hl H)
    as (_ & _ & _ & _ & _ & _ & _ & _ & _ & _ & _ & -> & Hk & _).
  destruct (set_up_ok dl n k wd bd X y phase b h w c g Hl HX Hy Hk Rd Hv)
    as (x1 & x2 & feat & g1 & vsb & upsb & R & T1 & T2 & T3 & _ & Rd' & V & _ & Lv & Lw
        & U & Lu & L).
  unfold runs in R. rewrite H in R. apply Ok_inj in R.
  apply pair_equal_spec in R. destruct R as [_ <-].
  exists x1, x2, feat, vsb, upsb.
  repeat (split; [assumption|]). assumption.
Qed.

Lemma width_one (k : Z) : (16 =? 16 * k) = (k =? 1).
Proof.
  destruct (k =? 1) eqn:E1; destruct (16 =? 16 * k) eqn:E2; try reflexivity.
  - apply Z.eqb_eq in E1. apply Z.eqb_neq in E2. lia.
  - apply Z.eqb_neq in E1. apply Z.eqb_eq in E2. lia.
Qed.

(** X4: weight decay bookkeeping of [set_up] in a graph without variables,
    for images with a known channel count and labels over 100 classes:
    whenever [set_up] returns, the "regularizable_variables" collection
    holds exactly the variables named "W" of the variable store, in
    creation order, and the regularization losses have gained exactly one
    term [weight_decay * l2_loss(W)] for each of them; a variable that is
    not a weight (the bias of the fully-connected layer, the batch norm
    variables) gets no term.  There are [10 + 6 (units - 1)] weights when
    [k = 1] (the first shortcut is the identity) and [11 + 6 (units - 1)]
    otherwise. *)
Theorem set_up_weight_decay_terms
  (py : Interpreter) (dl : cifar100_input.data_loading) (n k : Z) (wd bd : float)
  (X y phase : Tensor) (b h w : option Z) (c : Z) (g : Graph)
  (r : Tensor * Tensor) (g' : Graph) :
  cifar100_input.load dl = (X, y, phase) ->
  get_shape X = [b; h; w; Some c] ->
  get_shape y = [b; Some 100] ->
  ready g -> variables g = [] ->
  set_up py dl n k wd bd g = Ok (r, g') ->
  get_collection "regularizable_variables" g'
  = map IVar (filter is_weight (variables g'))
  /\ get_collection tf_GraphKeys_REGULARIZATION_LOSSES g'
     = get_collection tf_GraphKeys_REGULARIZATION_LOSSES g
       ++ map (fun W => ITensor (Mul (Const wd) (L2Loss (ReadVar W))))
            (filter is_weight (variables g'))
  /\ List.length (filter is_weight (variables g'))
     = ((if (k =? 1)%Z then 10 else 11) + 6 * Z.to_nat (n - 1))%nat
  /\ In (fc_weight ["fully-connected"; "fc"] (64 * k) 100)
        (filter is_weight (variables g'))
  /\ In (fc_bias ["fully-connected"; "fc"] 100) (variables g')
  /\ (forall v, In v (variables g') -> is_weight v = false ->
        ~ In (ITensor (Mul (Const wd) (L2Loss (ReadVar v))))
             (map (fun W => ITensor (Mul (Const wd) (L2Loss (ReadVar W))))
                (filter is_weight (variables g')))).
Proof.
  intros Hl HX Hy Rd Hv H.
  destruct (set_up_fresh_returns _ _ _ _ _ _ _ _ _ _ _ _ _ _ _ _ Hl HX Hy Rd Hv H)
    as (x1 & x2 & feat & vsb & upsb & Rd' & V & _ & Lw & _ & _ & L & _).
  split; [exact (proj2 (proj2 Rd'))|]. split; [exact L|].
  assert (F : filter is_weight (variables g')
              = [conv_kernel ["conv_0"] 3 c 16] ++ filter is_weight vsb
                ++ [fc_weight ["fully-connected"; "fc"] (64 * k) 100]).
  { rewrite V, !filter_app. reflexivity. }
  split; [|split; [|split]].
  - rewrite F, !length_app, Lw. cbn [List.length]. rewrite width_one.
    destruct (k =? 1); lia.
  - rewrite F. apply in_or_app. right. apply in_or_app. right. left. reflexivity.
  - rewrite V. apply in_or_app. right. apply in_or_app. right. apply in_or_app.
    right. right. left. reflexivity.
  - intros v Iv Wv I. apply in_map_iff in I. destruct I as (v' & E & I').
    inversion E. subst v'. apply filter_In in I'. destruct I' as [_ I']. congruence.
Qed.

Lemma set_up_weight_decay_terms_witness :
  exists r g',
    set_up Python2 (cifar100_loader 128) 4 10 weight_decay_5e_4 decay_0_9 empty_graph
    = Ok (r, g')
    /\ get_collection "regularizable_variables" g'
       = map IVar (filter is_weight (variables g'))
    /\ get_collection tf_GraphKeys_REGULARIZATION_LOSSES g'
       = get_collection tf_GraphKeys_REGULARIZATION_LOSSES empty_graph
         ++ map (fun W => ITensor (Mul (Const weight_decay_5e_4) (L2Loss (ReadVar W))))
              (filter is_weight (variables g'))
    /\ List.length (filter is_weight (variables g'))
       = ((if (10 =? 1)%Z then 10 else 11) + 6 * Z.to_nat (4 - 1))%nat
    /\ In (fc_weight ["fully-connected"; "fc"] (64 * 10) 100)
          (filter is_weight (variables g'))
    /\ In (fc_bias ["fully-connected"; "fc"] 100) (variables g')
    /\ (forall v, In v (variables g') -> is_weight v = false ->
          ~ In (ITensor (Mul (Const weight_decay_5e_4) (L2Loss (ReadVar v))))
               (map (fun W => ITensor (Mul (Const weight_decay_5e_4) (L2Loss (ReadVar W))))
                  (filter is_weight (variables g')))).
Proof.
  destruct (set_up_ok (cifar100_loader 128) 4 10 weight_decay_5e_4 decay_0_9 _ _ _
              (Some 128) (Some 32) (Some 32) 3 empty_graph
              eq_refl eq_refl eq_refl ltac:(lia) ready_empty_graph eq_refl)
    as (x1 & x2 & feat & g' & vsb & upsb & R & _).
  eexists. exists g'. split; [exact R|].
  exact (set_up_weight_decay_terms Python2 (cifar100_loader 128) 4 10 weight_decay_5e_4
           decay_0_9 _ _ _ (Some 128) (Some 32) (Some 32) 3 empty_graph _ g'
           eq_refl eq_refl eq_refl ready_empty_graph eq_refl R).
Defined.

(** X5: in a graph without variables, for images with a known channel
    count and labels over 100 classes: whenever [set_up] returns it has
    registered two update operations per batch norm layer,
    [14 + 12 (units - 1)] in all, the last two being the moving-average
    updates of the final batch norm, and it has created
    [39 + 30 (units - 1)] variables when [k = 1] and one more otherwise. *)
Theorem set_up_update_ops_and_variable_counts
  (py : Interpreter) (dl : cifar100_input.data_loading) (n k : Z) (wd bd : float)
  (X y phase : Tensor) (b h w : option Z) (c : Z) (g : Graph)
  (r : Tensor * Tensor) (g' : Graph) :
  cifar100_input.load dl = (X, y, phase) ->
  get_shape X = [b; h; w; Some c] ->
  get_shape y = [b; Some 100] ->
  ready g -> variables g = [] ->
  set_up py dl n k wd bd g = Ok (r, g') ->
  exists feat ups,
    get_collection tf_GraphKeys_UPDATE_OPS g'
    = get_collection tf_GraphKeys_UPDATE_OPS g
      ++ map ITensor (ups ++ bn_updates ["unit_last"; "batch_norm"] (64 * k) feat bd)
    /\ List.length (ups ++ bn_updates ["unit_last"; "batch_norm"] (64 * k) feat bd)
       = (14 + 12 * Z.to_nat (n - 1))%nat
    /\ List.length (variables g')
       = ((if (k =? 1)%Z then 39 else 40) + 30 * Z.to_nat (n - 1))%nat.
Proof.
  intros Hl HX Hy Rd Hv H.
  destruct (set_up_fresh_returns _ _ _ _ _ _ _ _ _ _ _ _ _ _ _ _ Hl HX Hy Rd Hv H)
    as (x1 & x2 & feat & vsb & upsb & _ & V & Lv & _ & U & Lu & _).
  exists feat, upsb. split; [exact U|]. split.
  - rewrite length_app, Lu. cbn [bn_updates List.length]. lia.
  - rewrite V, !length_app, Lv. cbn [bn_variables List.length]. rewrite width_one.
    destruct (k =? 1); lia.
Qed.

Lemma set_up_update_ops_and_variable_counts_witness :
  exists r g' feat ups,
    set_up Python2 (cifar100_loader 128) 4 10 weight_decay_5e_4 decay_0_9 empty_graph
    = Ok (r, g')
    /\ get_collection tf_GraphKeys_UPDATE_OPS g'
       = get_collection tf_GraphKeys_UPDATE_OPS empty_graph
         ++ map ITensor
              (ups ++ bn_updates ["unit_last"; "batch_norm"] (64 * 10) feat decay_0_9)
    /\ List.length (ups ++ bn_updates ["unit_last"; "batch_norm"] (64 * 10) feat decay_0_9)
       = (14 + 12 * Z.to_nat (4 - 1))%nat
    /\ List.length (variables g')
       = ((if (10 =? 1)%Z then 39 else 40) + 30 * Z.to_nat (4 - 1))%nat.
Proof.
  destruct (set_up_ok (cifar100_loader 128) 4 10 weight_decay_5e_4 decay_0_9 _ _ _
              (Some 128) (Some 32) (Some 32) 3 empty_graph
              eq_refl eq_refl eq_refl ltac:(lia) ready_empty_graph eq_refl)
    as (x1 & x2 & feat0 & g' & vsb & upsb & R & _).
  destruct (set_up_update_ops_and_variable_counts Python2 (cifar100_loader 128) 4 10
              weight_decay_5e_4 decay_0_9 _ _ _ (Some 128) (Some 32) (Some 32) 3
              empty_graph _ g' eq_refl eq_refl eq_refl ready_empty_graph eq_refl R)
    as (feat & ups & P).
  eexists. exists g', feat, ups. split; [exact R|exact P].
Defined.

(** X6: [num_residual_units] counts the units of a block only from 1 on:
    for every [num_residual_units <= 1] that [xrange] takes (a C long; zero
    and negative values included) [set_up] does exactly what it does for 1,
    one unit per block, on every interpreter and graph: it returns the same
    outputs and the same graph, or raises the same exception. *)
Theorem at_most_one_unit_builds_one_unit
  (py : Interpreter) (dl : cifar100_input.data_loading) (n k : Z) (wd bd : float)
  (g : Graph) :
  fits_c_long n ->
  n <= 1 ->
  set_up py dl n k wd bd g = set_up py dl 1 k wd bd g.
Proof.
  intros _ Hn. unfold set_up.
  destruct (cifar100_input.load dl) as [[X y] phase].
  apply bind_ext. intros x g1. apply bind_ext. intros blocks g2.
  unfold bind at 1 3.
  rewrite (for_each_ext blocks
             (residual_block py [16; 16 * k; 32 * k; 64 * k] [1; 2; 2] phase bd n)
             (residual_block py [16; 16 * k; 32 * k; 64 * k] [1; 2; 2] phase bd 1)).
  - reflexivity.
  - intros i s g3. unfold residual_block. apply bind_ext. intros x' g4.
    rewrite (xrange_at_most_one py n Hn). reflexivity.
Qed.

Lemma at_most_one_unit_builds_one_unit_witness :
  fits_c_long (-3) /\ -3 <= 1
  /\ set_up Python2 (cifar100_loader 128) (-3) 10 weight_decay_5e_4 decay_0_9 empty_graph
     = set_up Python2 (cifar100_loader 128) 1 10 weight_decay_5e_4 decay_0_9 empty_graph.
Proof.
  assert (F : fits_c_long (-3)) by (unfold fits_c_long; lia).
  split; [exact F|]. split; [lia|].
  apply (at_most_one_unit_builds_one_unit Python2 (cifar100_loader 128) (-3) 10
           weight_decay_5e_4 decay_0_9 empty_graph F). lia.
Defined.

(** X8: width [k = 0] is rejected with [ZeroDivisionError] (Python 2 with
    TensorFlow 1 in graph mode, a graph without variables, [float32] images
    of rank four with a known channel count and a scalar string phase):
    once the initial convolution and the first batch norm are built, the
    first unit of the first block asks for a shortcut convolution with
    [16 * 0] output channels, whose initializer divides by the number of
    output channels. *)
Theorem zero_width_raises_zero_division_error
  (dl : cifar100_input.data_loading) (n : Z) (wd bd : float)
  (X y phase : Tensor) (b h w : option Z) (c : Z) (g : Graph) :
  cifar100_input.load dl = (X, y, phase) ->
  feature_maps X b h w c ->
  phase_tensor phase ->
  ready g -> variables g = [] ->
  set_up Python2 dl n 0 wd bd g = Raise (ZeroDivisionError "float division by zero").
Proof.
  intros Hl (HX & _) _ Rd Hv.
  pose proof Rd as (Sc & Re & In0).
  destruct (conv_at [] X 3 16 1 "conv_0" g b h w c Sc Re In0 HX)
    as (g0 & R0 & S0 & G0); try discriminate; try lia.
  { unfold names. rewrite Hv. intros []. }
  rewrite !same_dim_1 in S0. cbn [app] in R0, S0, G0.
  set (x0 := conv_output ["conv_0"] X 3 c 16 1) in *.
  set (gs := set_scope ["unit_1_0"] g0).
  destruct (batch_norm_at ["unit_1_0"] x0 phase bd "bn_1" gs b h w 16 eq_refl) as (g1 & R1 & G1).
  { change (scope_reuse gs) with (scope_reuse g0). rewrite (gr_reuse _ _ _ _ G0). exact Re. }
  { exact S0. }
  { intros nm. unfold names. change (variables gs) with (variables g0).
    rewrite (gr_vars _ _ _ _ G0), Hv. names_differ. }
  change (raises (set_up Python2 dl n 0 wd bd) g
            (ZeroDivisionError "float division by zero")).
  unfold set_up. rewrite Hl.
  eapply raises_bind_r; [exact R0|]. fold x0.
  eapply raises_bind_r; [apply (runs_lift _ [1; 2; 3]); reflexivity|].
  apply raises_bind_l. cbn [for_each]. apply raises_bind_l.
  unfold residual_block. apply raises_bind_l.
  unfold first_residual_unit. apply raises_scope.
  rewrite (gr_scope _ _ _ _ G0), Sc. change (set_scope _ g0) with gs.
  eapply raises_bind_r; [exact R1|].
  eapply raises_bind_r; [apply runs_lift; reflexivity|].
  apply raises_bind_l. unfold first_unit_shortcut.
  eapply raises_bind_r; [apply (runs_lift _ 16); reflexivity|].
  eapply raises_bind_r; [apply (runs_lift _ 0); reflexivity|].
  change (16 =? 0) with false. cbv iota.
  eapply raises_bind_r; [apply (runs_lift _ 0); reflexivity|].
  eapply raises_bind_r; [apply (runs_lift _ 1); reflexivity|].
  unfold conv. apply raises_scope.
  eapply raises_bind_r; [apply runs_lift; reflexivity|].
  eapply raises_bind_r; [apply runs_lift; reflexivity|].
  apply raises_bind_l. apply raises_lift. reflexivity.
Qed.

Lemma zero_width_raises_zero_division_error_witness :
  set_up Python2 (cifar100_loader 128) 4 0 weight_decay_5e_4 decay_0_9 empty_graph
  = Raise (ZeroDivisionError "float division by zero").
Proof.
  apply (zero_width_raises_zero_division_error (cifar100_loader 128) 4 weight_decay_5e_4
           decay_0_9 _ _ _ (Some 128) (Some 32) (Some 32) 3 empty_graph eq_refl).
  - unfold feature_maps, dim_ok, size_ok, max_size. cbn. repeat split; lia.
  - split; reflexivity.
  - exact ready_empty_graph.
  - reflexivity.
Defined.

(** X10: the network cannot be built twice in the same graph: in a
    non-reusing variable scope, whenever [set_up] has returned, every
    further [set_up] with the same data loader on the resulting graph,
    whatever its other arguments, raises [ValueError] at the initial
    convolution, whose kernel already exists. *)
Theorem set_up_twice_raises_value_error
  (py : Interpreter) (dl : cifar100_input.data_loading) (n k : Z) (wd bd : float)
  (g : Graph) (r : Tensor * Tensor) (g' : Graph) :
  scope_reuse g = reuse_False ->
  set_up py dl n k wd bd g = Ok (r, g') ->
  forall (py' : Interpreter) (n' k' : Z) (wd' bd' : float),
    set_up py' dl n' k' wd' bd' g'
    = Raise (ValueError "Variable already exists, disallowed").
Proof.
  intros Re H py' n' k' wd' bd'.
  pose proof (extending_set_up _ _ _ _ _ _ _ _ _ H) as Ex.
  change (raises (set_up py' dl n' k' wd' bd') g'
            (ValueError "Variable already exists, disallowed")).
  unfold set_up in *. cbv zeta in *.
  destruct (cifar100_input.load dl) as [[X y] phase].
  step_bind H as x0 g0 E0.
  destruct (conv_returns _ _ _ _ _ _ _ _ E0)
    as (W & c & b & h & w & HX & _ & NW & _ & K & _).
  assert (Ex0 : extends g0 g').
  { match type of H with
    | ?m g0 = _ => assert (XX : extending m) by (unfold add_weight_decay; extending_layers)
    end.
    exact (XX _ _ _ H). }
  apply (kernel_in_extends _ _ _ Ex0) in K. destruct K as [F _].
  apply find_some in F. destruct F as [F _].
  apply raises_bind_l. unfold conv. apply raises_scope.
  eapply raises_bind_r; [apply runs_lift; reflexivity|].
  eapply raises_bind_r; [apply runs_lift; reflexivity|].
  eapply raises_bind_r; [apply runs_lift; reflexivity|].
  eapply raises_bind_r; [apply runs_lift; rewrite HX; reflexivity|].
  apply raises_bind_l. apply get_variable_exists.
  - cbn [scope_reuse set_scope]. rewrite (ex_reuse _ _ Ex). exact Re.
  - cbn [variable_scope set_scope]. unfold names. cbn [variables set_scope].
    rewrite (ex_scope _ _ Ex), <- app_assoc. cbn [app]. rewrite <- NW.
    apply in_map. exact F.
Qed.

Lemma set_up_twice_raises_value_error_witness :
  scope_reuse empty_graph = reuse_False
  /\ exists r g',
       set_up Python2 (cifar100_loader 128) 4 10 weight_decay_5e_4 decay_0_9 empty_graph
       = Ok (r, g')
       /\ forall (py' : Interpreter) (n' k' : Z) (wd' bd' : float),
            set_up py' (cifar100_loader 128) n' k' wd' bd' g'
            = Raise (ValueError "Variable already exists, disallowed").
Proof.
  split; [reflexivity|].
  destruct (set_up_ok (cifar100_loader 128) 4 10 weight_decay_5e_4 decay_0_9 _ _ _
              (Some 128) (Some 32) (Some 32) 3 empty_graph
              eq_refl eq_refl eq_refl ltac:(lia) ready_empty_graph eq_refl)
    as (x1 & x2 & feat & g' & vsb & upsb & R & _).
  eexists. exists g'. split; [exact R|].
  exact (set_up_twice_raises_value_error Python2 (cifar100_loader 128) 4 10
           weight_decay_5e_4 decay_0_9 empty_graph _ g' eq_refl R).
Defined.

(** X11: [conv] reads the channel count with [in_shape[3]]: on an input of
    rank below four, with a filter size and a channel count that are
    sizes and a valid scope name, it raises [IndexError], whatever the
    graph; [fc] does the same with [x.get_shape()[1]] on an input of rank
    below two. *)
Theorem layers_raise_index_error_on_low_rank
  (x : Tensor) (fs oc st od : Z) (pad : Padding) (name : string) (g : Graph) :
  valid_scope_name name = true ->
  (size_ok fs -> size_ok oc -> (List.length (get_shape x) < 4)%nat ->
   conv x fs oc st pad name g = Raise (IndexError "list index out of range"))
  /\ (size_ok od -> (List.length (get_shape x) < 2)%nat ->
      fc x od name g = Raise (IndexError "list index out of range")).
Proof.
  intros _. split.
  - intros Hfs Hoc Hr. apply size_ok_nonzero in Hfs, Hoc.
    apply Z.eqb_neq in Hfs. apply Z.eqb_neq in Hoc.
    change (raises (conv x fs oc st pad name) g (IndexError "list index out of range")).
    unfold conv. apply raises_scope.
    eapply raises_bind_r; [apply runs_lift; unfold truediv; rewrite Hfs; reflexivity|].
    eapply raises_bind_r; [apply runs_lift; unfold truediv; rewrite Hfs; reflexivity|].
    eapply raises_bind_r; [apply runs_lift; unfold truediv; rewrite Hoc; reflexivity|].
    apply raises_bind_l. apply raises_lift. apply getitem_out_of_range. lia.
  - intros Hod Hr. apply size_ok_nonzero in Hod. apply Z.eqb_neq in Hod.
    change (raises (fc x od name) g (IndexError "list index out of range")).
    unfold fc. apply raises_scope.
    eapply raises_bind_r; [apply runs_lift; unfold truediv; rewrite Hod; reflexivity|].
    apply raises_bind_l. apply raises_lift. apply getitem_out_of_range. lia.
Qed.

Lemma layers_raise_index_error_on_low_rank_witness :
  conv (DataTensor "y" [Some 128; Some 100] float32) 3 16 1 SAME "layer" empty_graph
  = Raise (IndexError "list index out of range")
  /\ fc (DataTensor "phase" [] string_) 100 "layer" empty_graph
     = Raise (IndexError "list index out of range").
Proof.
  split.
  - apply (proj1 (layers_raise_index_error_on_low_rank
                    (DataTensor "y" [Some 128; Some 100] float32) 3 16 1 100 SAME "layer"
                    empty_graph eq_refl)).
    + unfold size_ok, max_size. lia.
    + unfold size_ok, max_size. lia.
    + cbn. lia.
  - apply (proj2 (layers_raise_index_error_on_low_rank
                    (DataTensor "phase" [] string_) 3 16 1 100 SAME "layer" empty_graph
                    eq_refl)).
    + unfold size_ok, max_size. lia.
    + cbn. lia.
Defined.

(** X16: in a non-reusing scope where the layer's names are free, a batch
    norm layer with a valid scope name on [float32] feature maps (rank
    four, known channel count) and a scalar string phase always returns:
    the output has the shape of the input, the variable store gains exactly
    the four variables of the layer, all of shape [[channels]], and no
    weight is registered for weight decay. *)
Theorem batch_norm_succeeds_and_keeps_shape (x phase : Tensor) (decay : float)
  (name : string) (g : Graph) (b h w : option Z) (c : Z) :
  feature_maps x b h w c ->
  phase_tensor phase ->
  valid_scope_name name = true ->
  scope_reuse g = reuse_False ->
  (forall nm, ~ In (variable_scope g ++ [name; nm]) (names g)) ->
  exists t g',
    batch_norm x phase decay name g = Ok (t, g')
    /\ get_shape t = get_shape x
    /\ variables g' = variables g ++ bn_variables (variable_scope g ++ [name]) c
    /\ get_collection "regularizable_variables" g'
       = get_collection "regularizable_variables" g
    /\ variable_scope g' = variable_scope g.
Proof.
  intros (Hx & _) _ _ R Fr.
  destruct (batch_norm_ok x phase decay name g b h w c R Hx Fr) as (g' & Hr & G).
  exists (bn_output (variable_scope g ++ [name]) c x phase), g'.
  split; [exact Hr|]. split.
  - rewrite Hx. apply bn_output_shape. exact Hx.
  - split; [exact (gr_vars _ _ _ _ G)|]. split; [|exact (gr_scope _ _ _ _ G)].
    rewrite (gr_regs _ _ _ _ G). unfold bn_variables. simpl.
    rewrite !is_weight_snoc. simpl. apply app_nil_r.
Qed.

Lemma example_x_feature_maps : feature_maps example_x (Some 2) (Some 4) (Some 4) 8.
Proof. unfold feature_maps, dim_ok, size_ok, max_size. cbn. repeat split; lia. Qed.

Lemma batch_norm_succeeds_and_keeps_shape_witness :
  exists t g',
    batch_norm example_x example_phase decay_0_9 "bn_1" empty_graph = Ok (t, g')
    /\ get_shape t = get_shape example_x
    /\ variables g' = variables empty_graph ++ bn_variables ([] ++ ["bn_1"]) 8
    /\ get_collection "regularizable_variables" g'
       = get_collection "regularizable_variables" empty_graph
    /\ variable_scope g' = variable_scope empty_graph.
Proof.
  apply (batch_norm_succeeds_and_keeps_shape example_x example_phase decay_0_9 "bn_1"
           empty_graph (Some 2) (Some 4) (Some 4) 8).
  - exact example_x_feature_maps.
  - split; reflexivity.
  - reflexivity.
  - reflexivity.
  - intros nm [].
Defined.

(** X17: in a non-reusing scope where "W" is free, a convolution layer with
    a valid scope name whose filter size, channel count and stride are
    sizes, on [float32] feature maps (rank four, known channel count),
    always returns: with the default "SAME" padding the output has height
    [ceil(h / stride)], width [ceil(w / stride)] and [out_channels]
    channels; the only variable created is the kernel [name/W] of shape
    [[filter_size, filter_size, in_channels, out_channels]], and it is
    registered for weight decay. *)
Theorem conv_succeeds_with_same_padding_shape (x : Tensor)
  (filter_size out_channels stride : Z) (name : string) (g : Graph)
  (b h w : option Z) (c : Z) :
  feature_maps x b h w c ->
  size_ok filter_size -> size_ok out_channels -> size_ok stride ->
  valid_scope_name name = true ->
  scope_reuse g = reuse_False -> reg_inv g ->
  ~ In (variable_scope g ++ [name; "W"]) (names g) ->
  exists t g',
    conv x filter_size out_channels stride SAME name g = Ok (t, g')
    /\ get_shape t
       = [b; option_map (fun n => (n + stride - 1) / stride) h;
          option_map (fun n => (n + stride - 1) / stride) w; Some out_channels]
    /\ variables g'
       = variables g
         ++ [mkVariable (variable_scope g ++ [name; "W"])
               [filter_size; filter_size; c; out_channels] float32
               (conv_initializer filter_size out_channels) true]
    /\ get_collection "regularizable_variables" g'
       = get_collection "regularizable_variables" g
         ++ [IVar (mkVariable (variable_scope g ++ [name; "W"])
                     [filter_size; filter_size; c; out_channels] float32
                     (conv_initializer filter_size out_channels) true)]
    /\ reg_inv g'.
Proof.
  intros (Hx & _) Hfs Hoc Hst _ R I Fr.
  destruct (conv_ok x filter_size out_channels stride name g b h w c R I Hx
              (size_ok_nonzero _ Hfs) (size_ok_nonzero _ Hoc) (size_ok_positive _ Hst) Fr)
    as (g' & Hr & Hs & G).
  exists (conv_output (variable_scope g ++ [name]) x filter_size c out_channels stride), g'.
  assert (N : (variable_scope g ++ [name]) ++ ["W"%string] = variable_scope g ++ [name; "W"%string]).
  { rewrite <- app_assoc. reflexivity. }
  split; [exact Hr|]. split; [exact Hs|].
  pose proof (gr_vars _ _ _ _ G) as V. pose proof (gr_regs _ _ _ _ G) as C.
  unfold conv_kernel in V, C. cbn [filter] in C. rewrite is_weight_snoc in C.
  cbn in C. rewrite N in V, C.
  split; [exact V|]. split; [exact C|].
  unfold reg_inv in *. rewrite C, V, I, filter_app, map_app. cbn [filter].
  rewrite <- N, is_weight_snoc. reflexivity.
Qed.

Lemma conv_succeeds_with_same_padding_shape_witness :
  exists t g',
    conv example_x 3 16 2 SAME "conv_1" empty_graph = Ok (t, g')
    /\ get_shape t = [Some 2; Some 2; Some 2; Some 16]
    /\ variables g'
       = [mkVariable ["conv_1"; "W"] [3; 3; 8; 16] float32 (conv_initializer 3 16) true]
    /\ get_collection "regularizable_variables" g'
       = [IVar (mkVariable ["conv_1"; "W"] [3; 3; 8; 16] float32
                  (conv_initializer 3 16) true)]
    /\ reg_inv g'.
Proof.
  apply (conv_succeeds_with_same_padding_shape example_x 3 16 2 "conv_1" empty_graph
           (Some 2) (Some 4) (Some 4) 8).
  - exact example_x_feature_maps.
  - unfold size_ok, max_size. lia.
  - unfold size_ok, max_size. lia.
  - unfold size_ok, max_size. lia.
  - reflexivity.
  - reflexivity.
  - reflexivity.
  - intros [].
Defined.

(** X18: in a non-reusing scope where "W" and "b" are free, a
    fully-connected layer with a valid scope name whose output dimension
    is a size, on [float32] feature vectors (rank two, known feature
    count), always returns a tensor of shape [[batch, out_dim]]; it creates
    the weight [name/W] of shape [[features, out_dim]] and the bias
    [name/b] of shape [[out_dim]], initialised to the constant 0, and
    registers the weight, never the bias, for weight decay. *)
Theorem fc_succeeds_and_registers_weight_only (x : Tensor) (out_dim : Z) (name : string)
  (g : Graph) (b : option Z) (c : Z) :
  feature_vectors x b c ->
  size_ok out_dim ->
  valid_scope_name name = true ->
  scope_reuse g = reuse_False -> reg_inv g ->
  ~ In (variable_scope g ++ [name; "W"]) (names g) ->
  ~ In (variable_scope g ++ [name; "b"]) (names g) ->
  exists t g',
    fc x out_dim name g = Ok (t, g')
    /\ get_shape t = [b; Some out_dim]
    /\ variables g'
       = variables g ++ [fc_weight (variable_scope g ++ [name]) c out_dim;
                         fc_bias (variable_scope g ++ [name]) out_dim]
    /\ get_collection "regularizable_variables" g'
       = get_collection "regularizable_variables" g
         ++ [IVar (fc_weight (variable_scope g ++ [name]) c out_dim)]
    /\ var_initializer (fc_bias (variable_scope g ++ [name]) out_dim)
       = constant_initializer 0.
Proof.
  intros (Hx & _) Hod _ R I FrW Frb.
  destruct (fc_ok x out_dim name g b c R I Hx (size_ok_nonzero _ Hod) FrW Frb)
    as (g' & Hr & Hs & G).
  exists (fc_output (variable_scope g ++ [name]) x c out_dim), g'.
  split; [exact Hr|]. split; [exact Hs|].
  split; [exact (gr_vars _ _ _ _ G)|]. split; [|reflexivity].
  rewrite (gr_regs _ _ _ _ G). unfold fc_weight, fc_bias.
  cbn [filter]. rewrite !is_weight_snoc. reflexivity.
Qed.

Lemma fc_succeeds_and_registers_weight_only_witness :
  exists t g',
    fc (DataTensor "features" [Some 128; Some 640] float32) 100 "fc" empty_graph
    = Ok (t, g')
    /\ get_shape t = [Some 128; Some 100]
    /\ variables g'
       = variables empty_graph ++ [fc_weight ([] ++ ["fc"]) 640 100;
                                   fc_bias ([] ++ ["fc"]) 100]
    /\ get_collection "regularizable_variables" g'
       = get_collection "regularizable_variables" empty_graph
         ++ [IVar (fc_weight ([] ++ ["fc"]) 640 100)]
    /\ var_initializer (fc_bias ([] ++ ["fc"]) 100) = constant_initializer 0.
Proof.
  apply (fc_succeeds_and_registers_weight_only
           (DataTensor "features" [Some 128; Some 640] float32) 100 "fc" empty_graph
           (Some 128) 640).
  - unfold feature_vectors, dim_ok, size_ok, max_size. cbn. repeat split; lia.
  - unfold size_ok, max_size. lia.
  - reflexivity.
  - reflexivity.
  - reflexivity.
  - intros [].
  - intros [].
Defined.

(** X19: the residual units are shape compatible.  Whenever the first unit
    of a block returns on feature maps of shape [[b, h, w, c]] -- its
    shortcut being a convolution, or the identity when the block keeps the
    channel count ([c = filters[i]], stride 1) -- its output has the shape
    [[b, ceil(h / s), ceil(w / s), filters[i]]] for the stride [s] of the
    block; whenever a further unit returns on a tensor with [filters[i]]
    channels, its output has the shape of its input.  So the addition of
    the shortcut never broadcasts.  Both units have the structure that the
    network is made of, and their kernels are variables of the resulting
    graph. *)
Theorem residual_units_are_shape_compatible (filters strides : list Z)
  (phase : Tensor) (decay : float) (i j : Z) (x x' : Tensor) (g ga : Graph)
  (out out' : Tensor) (g' ga' : Graph)
  (b h w b' h' w' : option Z) (c fp f s : Z) :
  getitem filters (i - 1) = Ok fp -> getitem filters i = Ok f ->
  getitem strides (i - 1) = Ok s ->
  (fp = f -> s = 1 /\ c = f) ->
  get_shape x = [b; h; w; Some c] ->
  get_shape x' = [b'; h'; w'; Some f] ->
  first_residual_unit filters strides phase decay i x g = Ok (out, g') ->
  further_residual_unit filters phase decay i j x' ga = Ok (out', ga') ->
  (get_shape out = [b; same_dim h s; same_dim w s; Some f]
   /\ first_unit_where (variable_of g') f s x out)
  /\ (get_shape out' = get_shape x'
      /\ further_unit_where (variable_of ga') f x' out').
Proof.
  intros Hfp Hf Hs Heq Hx Hx' H1 H2. split.
  - destruct (first_residual_unit_returns _ _ _ _ _ _ _ _ _ b h w c fp f s H1 Hfp Hf Hs
                Heq Hx) as (U & S & _).
    split; [exact S|].
    exact (first_unit_where_impl _ _ _ _ _ _ (kernel_in_variable_of g') U).
  - destruct (further_residual_unit_returns _ _ _ _ _ _ _ _ _ b' h' w' f H2 Hf Hx')
      as (U & S).
    split; [rewrite Hx'; exact S|].
    exact (further_unit_where_impl _ _ _ _ _ (kernel_in_variable_of ga') U).
Qed.

Lemma residual_units_are_shape_compatible_witness :
  exists out g' out' ga',
    first_residual_unit [16; 8; 16; 32] [1; 2; 2] example_phase decay_0_9 2 example_x
      empty_graph = Ok (out, g')
    /\ further_residual_unit [16; 8; 16; 32] example_phase decay_0_9 2 1
         (DataTensor "x" [Some 2; Some 2; Some 2; Some 16] float32) empty_graph
       = Ok (out', ga')
    /\ (get_shape out = [Some 2; same_dim (Some 4) 2; same_dim (Some 4) 2; Some 16]
        /\ first_unit_where (variable_of g') 16 2 example_x out)
    /\ (get_shape out'
        = get_shape (DataTensor "x" [Some 2; Some 2; Some 2; Some 16] float32)
        /\ further_unit_where (variable_of ga') 16
             (DataTensor "x" [Some 2; Some 2; Some 2; Some 16] float32) out').
Proof.
  assert (B1 : ok_b (first_residual_unit [16; 8; 16; 32] [1; 2; 2] example_phase decay_0_9
                       2 example_x empty_graph) = true) by (vm_compute; reflexivity).
  assert (B2 : ok_b (further_residual_unit [16; 8; 16; 32] example_phase decay_0_9 2 1
                       (DataTensor "x" [Some 2; Some 2; Some 2; Some 16] float32)
                       empty_graph) = true) by (vm_compute; reflexivity).
  destruct (first_residual_unit [16; 8; 16; 32] [1; 2; 2] example_phase decay_0_9 2
              example_x empty_graph) as [[out g']|e] eqn:E1; [|discriminate B1].
  destruct (further_residual_unit [16; 8; 16; 32] example_phase decay_0_9 2 1
              (DataTensor "x" [Some 2; Some 2; Some 2; Some 16] float32) empty_graph)
    as [[out' ga']|e] eqn:E2; [|discriminate B2].
  exists out, g', out', ga'. split; [reflexivity|]. split; [reflexivity|].
  apply (residual_units_are_shape_compatible [16; 8; 16; 32] [1; 2; 2] example_phase
           decay_0_9 2 1 example_x
           (DataTensor "x" [Some 2; Some 2; Some 2; Some 16] float32)
           empty_graph empty_graph out out' g' ga'
           (Some 2) (Some 4) (Some 4) (Some 2) (Some 2) (Some 2) 8 8 16 2).
  - reflexivity.
  - reflexivity.
  - reflexivity.
  - intros E. discriminate E.
  - reflexivity.
  - reflexivity.
  - exact E1.
  - exact E2.
Defined.

(** X20: a layer cannot create its variables from an input whose channel
    count is not statically known: in a non-reusing scope, [batch_norm]
    (with a scalar string phase) and [conv] (with a filter size and a
    channel count that are sizes), called with a valid scope name on a
    [float32] input of rank four with unknown last dimension, raise
    [ValueError] and return nothing. *)
Theorem unknown_channel_count_raises_value_error (x phase : Tensor) (decay : float)
  (filter_size out_channels stride : Z) (padding : Padding) (name : string)
  (g : Graph) (b h w : option Z) :
  get_shape x = [b; h; w; None] -> get_dtype x = float32 ->
  dim_ok b -> dim_ok h -> dim_ok w ->
  phase_tensor phase ->
  size_ok filter_size -> size_ok out_channels ->
  valid_scope_name name = true ->
  scope_reuse g = reuse_False ->
  (exists msg, batch_norm x phase decay name g = Raise (ValueError msg))
  /\ (exists msg,
         conv x filter_size out_channels stride padding name g = Raise (ValueError msg)).
Proof.
  intros Hx _ _ _ _ _ Hfs Hoc _ R. apply size_ok_nonzero in Hfs, Hoc. split.
  - destruct (get_variable_partial_shape "mean_avg" [None] float32 zeros_initializer false
                (set_scope (variable_scope g ++ [name]) g) R eq_refl) as (msg & E).
    exists msg. change (raises (batch_norm x phase decay name) g (ValueError msg)).
    unfold batch_norm. apply raises_scope.
    eapply raises_bind_r.
    + apply runs_lift. unfold tf_nn_moments. rewrite Hx. reflexivity.
    + cbv beta iota. apply raises_bind_l. cbn [get_shape]. rewrite Hx. exact E.
  - destruct (get_variable_partial_shape "W"
                [Some filter_size; Some filter_size; None; Some out_channels] float32
                (conv_initializer filter_size out_channels) true
                (set_scope (variable_scope g ++ [name]) g) R eq_refl) as (msg & E).
    exists msg.
    change (raises (conv x filter_size out_channels stride padding name) g
              (ValueError msg)).
    apply Z.eqb_neq in Hfs, Hoc.
    unfold conv. cbv zeta. apply raises_scope.
    eapply raises_bind_r; [apply runs_lift; unfold truediv; rewrite Hfs; reflexivity|].
    eapply raises_bind_r; [apply runs_lift; unfold truediv; rewrite Hfs; reflexivity|].
    eapply raises_bind_r; [apply runs_lift; unfold truediv; rewrite Hoc; reflexivity|].
    eapply raises_bind_r; [apply runs_lift; rewrite Hx; reflexivity|].
    apply raises_bind_l. exact E.
Qed.

Lemma unknown_channel_count_raises_value_error_witness :
  (exists msg,
      batch_norm (DataTensor "x" [Some 2; Some 4; Some 4; None] float32) example_phase
        decay_0_9 "layer" empty_graph = Raise (ValueError msg))
  /\ (exists msg,
         conv (DataTensor "x" [Some 2; Some 4; Some 4; None] float32) 3 16 1 SAME
           "layer" empty_graph = Raise (ValueError msg)).
Proof.
  apply (unknown_channel_count_raises_value_error
           (DataTensor "x" [Some 2; Some 4; Some 4; None] float32) example_phase
           decay_0_9 3 16 1 SAME "layer" empty_graph (Some 2) (Some 4) (Some 4)).
  - reflexivity.
  - reflexivity.
  - unfold dim_ok, size_ok, max_size. lia.
  - unfold dim_ok, size_ok, max_size. lia.
  - unfold dim_ok, size_ok, max_size. lia.
  - split; reflexivity.
  - unfold size_ok, max_size. lia.
  - unfold size_ok, max_size. lia.
  - reflexivity.
  - reflexivity.
Defined.






























